(** * WSOP scheduler: schedule parsers, game-variant classifier and rake engine

    A shallow embedding of the two schedule parsers of the repository
    (parsers/wsop-parser.js and parsers/generic-parser.js) and the
    properties stated about them, and of the part of server.js that calls
    them on an uploaded schedule.

    Modelling conventions.
    - A JavaScript string is a [string]: a sequence of code units.  The
      character tables ([isSpace], [isWordChar], [toLower], [toUpper]) are
      those of JavaScript on ASCII text; code units 128..255 are caseless,
      non-blank, non-word characters.
    - A JavaScript number is an IEEE 754 binary64 value, a [double]: a
      finite value is held exactly, as a rational in lowest terms, next to
      the two infinities and NaN; -0 is not told from 0.  Every
      multiplication, division and subtraction, and every decimal literal,
      is rounded to the nearest binary64 value, ties to even ([round64]).
      The results of [parseInt] and [Math.round], which are whole numbers,
      infinite or NaN, are a [jsnum].  Numbers read from one or two digits
      (a day of the month) or four (a year) are a [Z].
    - [null] is [None]; a field that may also read as [undefined] is a
      [jsvalue].
    - A regular expression literal is a [RegExp]: a syntax tree and its [i]
      flag, run by a backtracking matcher with JavaScript's priorities
      (left alternative first, greedy quantifiers, leftmost match).
    - A JavaScript object used as a table is an association list in source
      order; a lookup under an arbitrary string also finds the members
      every object inherits from [Object.prototype]. *)

From Stdlib Require Import Bool Arith ZArith QArith Qround Qabs Qpower Qreduction.
From Stdlib Require Import List Sorted Ascii String Lia Lqa.
From Stdlib Require Import Numbers.DecimalString.
From Stdlib Require Import Decimal DecimalZ.
Import ListNotations.

Local Open Scope list_scope.
Local Open Scope string_scope.
Local Open Scope nat_scope.

(* ================================================================== *)
(** ** JavaScript strings *)

Module JS.

Definition code (c : ascii) : nat := nat_of_ascii c.

Definition inRange (lo hi c : ascii) : bool :=
  (code lo <=? code c) && (code c <=? code hi).

Definition isDigit (c : ascii) : bool := inRange "0" "9" c.
Definition isUpper (c : ascii) : bool := inRange "A" "Z" c.
Definition isLower (c : ascii) : bool := inRange "a" "z" c.

(** [\w] *)
Definition isWordChar (c : ascii) : bool :=
  isDigit c || isUpper c || isLower c || Ascii.eqb c "_".

(** [\s], also the characters removed by [trim]: TAB, LF, VT, FF, CR, SP. *)
Definition isSpace (c : ascii) : bool :=
  ((9 <=? code c) && (code c <=? 13)) || (code c =? 32).

(** [.] : anything but a line terminator. *)
Definition isNotNewline (c : ascii) : bool :=
  negb ((code c =? 10) || (code c =? 13)).

Definition toLower (c : ascii) : ascii :=
  if isUpper c then ascii_of_nat (code c + 32) else c.

Definition toUpper (c : ascii) : ascii :=
  if isLower c then ascii_of_nat (code c - 32) else c.

Fixpoint toLowerCase (s : string) : string :=
  match s with
  | "" => ""
  | String c s' => String (toLower c) (toLowerCase s')
  end.

Fixpoint toUpperCase (s : string) : string :=
  match s with
  | "" => ""
  | String c s' => String (toUpper c) (toUpperCase s')
  end.

(** [s.includes(sub)] *)
Fixpoint includes (s sub : string) : bool :=
  if String.prefix sub s then true
  else match s with
       | "" => false
       | String _ s' => includes s' sub
       end.

(** [s.indexOf(c)] for a one-character needle; [None] is [-1]. *)
Fixpoint indexOf (s : string) (c : ascii) : option nat :=
  match s with
  | "" => None
  | String x s' =>
      if Ascii.eqb x c then Some 0
      else match indexOf s' c with
           | Some n => Some (S n)
           | None => None
           end
  end.

(** [s.substring(0, n)] *)
Fixpoint take (n : nat) (s : string) : string :=
  match n, s with
  | S n', String c s' => String c (take n' s')
  | _, _ => ""
  end.

(** [s.slice(a, b)] for [0 <= a], [0 <= b]; indices past the end are clamped. *)
Definition slice (s : string) (a b : nat) : string := substring a (b - a) s.

(** [s.slice(a)] *)
Fixpoint sliceFrom (s : string) (a : nat) : string :=
  match a, s with
  | S a', String _ s' => sliceFrom s' a'
  | _, _ => s
  end.

Fixpoint trimStart (s : string) : string :=
  match s with
  | String c s' => if isSpace c then trimStart s' else s
  | "" => ""
  end.

Fixpoint trimEnd (s : string) : string :=
  match s with
  | "" => ""
  | String c s' =>
      match trimEnd s' with
      | "" => if isSpace c then "" else String c ""
      | t => String c t
      end
  end.

Definition trim (s : string) : string := trimEnd (trimStart s).

(** [s.split(sep)] for a one-character separator. *)
Fixpoint splitChar (sep : ascii) (s : string) : list string :=
  match s with
  | "" => [""]
  | String c s' =>
      if Ascii.eqb c sep then "" :: splitChar sep s'
      else match splitChar sep s' with
           | w :: ws => String c w :: ws
           | [] => [String c ""]
           end
  end.

(** [parts.join(sep)] *)
Fixpoint join (sep : string) (parts : list string) : string :=
  match parts with
  | [] => ""
  | [p] => p
  | p :: ps => p ++ sep ++ join sep ps
  end.

(** A string is truthy when it is not empty. *)
Definition truthy (s : string) : bool :=
  match s with "" => false | _ => true end.

(** *** Numbers *)

(** A number: an IEEE 754 binary64 value.  The finite ones are held
    exactly, as rationals in lowest terms; -0 is not told from 0 (no
    operation of the parsers tells them apart). *)
Inductive double : Type :=
| Dbl (q : Q)
| DPosInf
| DNegInf
| DNaN.

Definition pow2 (e : Z) : Q := (2 ^ e)%Q.

(** The binary exponent of a positive rational: [2^e <= a < 2^(e+1)]
    (lemma [ilog2_spec]). *)
Definition ilog2 (a : Q) : Z :=
  let e0 := (Z.log2 (Qnum a) - Z.log2 (Z.pos (Qden a)))%Z in
  if Qle_bool (pow2 e0) a then e0 else (e0 - 1)%Z.

(** Nearest integer, a tie going to the even one. *)
Definition roundEven (x : Q) : Z :=
  let f := Qfloor x in
  match Qcompare (x - inject_Z f) (1 # 2) with
  | Lt => f
  | Gt => (f + 1)%Z
  | Eq => if Z.even f then f else (f + 1)%Z
  end.

(** The binary64 value nearest to a rational, ties to even: 53
    significant bits, exponents from -1022 to 1023, subnormal values
    below, an infinity when the rounded magnitude reaches 2^1024. *)
Definition round64 (q : Q) : double :=
  if Qeq_bool q 0 then Dbl 0
  else
    let a := Qabs q in
    let e := Z.max (ilog2 a) (-1022) in
    let ulp := pow2 (e - 52) in
    let r := (inject_Z (roundEven (a / ulp)) * ulp)%Q in
    if Qle_bool (pow2 1024) r then (if Qle_bool 0 q then DPosInf else DNegInf)
    else Dbl (Qred (if Qle_bool 0 q then r else - r)).

(** The number a decimal literal of the source denotes. *)
Definition literal (q : Q) : double := round64 q.

Definition isNegative (x : double) : bool :=
  match x with
  | Dbl q => negb (Qle_bool 0 q)
  | DNegInf => true
  | _ => false
  end.

Definition isZero (x : double) : bool :=
  match x with
  | Dbl q => Qeq_bool q 0
  | _ => false
  end.

Definition infinity (negative : bool) : double :=
  if negative then DNegInf else DPosInf.

(** [x * y] *)
Definition Dmul (x y : double) : double :=
  match x, y with
  | DNaN, _ | _, DNaN => DNaN
  | Dbl a, Dbl b => round64 (a * b)
  | _, _ =>
      if isZero x || isZero y then DNaN
      else infinity (xorb (isNegative x) (isNegative y))
  end.

(** [x / y] *)
Definition Ddiv (x y : double) : double :=
  match x, y with
  | DNaN, _ | _, DNaN => DNaN
  | Dbl a, Dbl b =>
      if Qeq_bool b 0 then
        if Qeq_bool a 0 then DNaN else infinity (isNegative x)
      else round64 (a / b)
  | Dbl _, _ => Dbl 0
  | _, Dbl _ => infinity (xorb (isNegative x) (isNegative y))
  | _, _ => DNaN
  end.

(** [x - y] *)
Definition Dsub (x y : double) : double :=
  match x, y with
  | DNaN, _ | _, DNaN => DNaN
  | Dbl a, Dbl b => round64 (a - b)
  | DPosInf, DPosInf | DNegInf, DNegInf => DNaN
  | DPosInf, _ | _, DNegInf => DPosInf
  | DNegInf, _ | _, DPosInf => DNegInf
  end.

(** [x || ...]: 0 and [NaN] are falsy. *)
Definition falsyDouble (x : double) : bool :=
  match x with
  | Dbl q => Qeq_bool q 0
  | DNaN => true
  | _ => false
  end.

(** [z <= x] for a whole number [z] *)
Definition leq (z : Z) (x : double) : bool :=
  match x with
  | Dbl q => Qle_bool (inject_Z z) q
  | DPosInf => true
  | _ => false
  end.

(** A number read from a property that may be missing. *)
Inductive jsvalue : Type :=
| Num (x : double)
| Undefined.

(** The numbers [parseInt] and [Math.round] return: whole, infinite or
    [NaN]. *)
Inductive jsnum : Type :=
| JNum (z : Z)
| JNaN
| JPosInf
| JNegInf.

Definition toDouble (n : jsnum) : double :=
  match n with
  | JNum z => Dbl (inject_Z z)
  | JNaN => DNaN
  | JPosInf => DPosInf
  | JNegInf => DNegInf
  end.

(** [!n]: 0 and [NaN] are falsy. *)
Definition falsyNumber (n : jsnum) : bool :=
  match n with
  | JNum z => (z =? 0)%Z
  | JNaN => true
  | _ => false
  end.

(** [n > 0] *)
Definition isPositive (n : jsnum) : bool :=
  match n with
  | JNum z => (0 <? z)%Z
  | JPosInf => true
  | _ => false
  end.

(** [n < z] for a whole number [z] *)
Definition lessThan (n : jsnum) (z : Z) : bool :=
  match n with
  | JNum v => (v <? z)%Z
  | JNegInf => true
  | _ => false
  end.

(** [z <= n] as a proposition *)
Definition atLeast (z : Z) (n : jsnum) : Prop :=
  match n with
  | JNum v => (z <= v)%Z
  | JPosInf => True
  | _ => False
  end.

Fixpoint digitsValue (acc : Z) (s : string) : Z :=
  match s with
  | String c s' =>
      if isDigit c then digitsValue (10 * acc + Z.of_nat (code c - 48)) s'
      else acc
  | "" => acc
  end.

(** The whole number a run of digits denotes, as a number: the nearest
    binary64 value (the digits beyond the 20th count too, as in V8),
    [Infinity] for the numbers too large for a finite one, which have 309
    digits or more. *)
Definition numberOfDigits (z : Z) : jsnum :=
  match round64 (inject_Z z) with
  | Dbl q => JNum (Qfloor q)
  | DPosInf => JPosInf
  | DNegInf => JNegInf
  | DNaN => JNaN
  end.

(** [parseInt(s)].  Every call site passes a string made of decimal digits
    only (commas and the dollar sign are removed first), possibly empty:
    the value is that of the leading run of digits, [NaN] when there is none. *)
Definition parseInt (s : string) : jsnum :=
  match s with
  | String c _ => if isDigit c then numberOfDigits (digitsValue 0 s) else JNaN
  | "" => JNaN
  end.

(** Decimal text of an integer, as in a template literal. *)
Definition toString (z : Z) : string := NilEmpty.string_of_int (Z.to_int z).

(** [Math.round]: nearest integer, ties towards plus infinity. *)
Definition Math_round (x : double) : jsnum :=
  match x with
  | Dbl q => JNum (Qfloor (q + (1 # 2)))
  | DPosInf => JPosInf
  | DNegInf => JNegInf
  | DNaN => JNaN
  end.

End JS.

(* ================================================================== *)
(** ** Regular expressions *)

Module Re.

Inductive regex : Type :=
| Eps : regex                          (* the empty pattern *)
| Chr : ascii -> regex                 (* a literal character *)
| Cls : (ascii -> bool) -> regex       (* a character class *)
| Seq : regex -> regex -> regex
| Alt : regex -> regex -> regex        (* r1|r2, r1 tried first *)
| Star : regex -> regex                (* r*, greedy *)
| Grp : nat -> regex -> regex          (* capturing group number n *)
| Bol : regex                          (* ^ *)
| Eol : regex                          (* $ *)
| WordB : regex.                       (* \b *)

Record RegExp : Type := mkRegExp { source : regex; ignoreCase : bool }.

(** Position in the subject: offset, character before it, text after it,
    and the groups captured so far (latest first). *)
Record mstate : Type := mkState {
  m_pos : nat;
  m_prev : option ascii;
  m_rest : string;
  m_caps : list (nat * (nat * nat))
}.

Definition eqChar (ci : bool) (c x : ascii) : bool :=
  if ci then Ascii.eqb (JS.toUpper c) (JS.toUpper x) else Ascii.eqb c x.

Definition inClass (ci : bool) (p : ascii -> bool) (x : ascii) : bool :=
  if ci then p x || p (JS.toUpper x) || p (JS.toLower x) else p x.

Definition isWordOpt (o : option ascii) : bool :=
  match o with Some c => JS.isWordChar c | None => false end.

Definition nextChar (s : string) : option ascii :=
  match s with String c _ => Some c | "" => None end.

Definition advance (st : mstate) (c : ascii) (s' : string) : mstate :=
  mkState (S (m_pos st)) (Some c) s' (m_caps st).

Definition capture (n start : nat) (st : mstate) : mstate :=
  mkState (m_pos st) (m_prev st) (m_rest st) ((n, (start, m_pos st)) :: m_caps st).

(** The iterations of [r*].  [body] matches [r] once; an iteration that
    consumes nothing is rejected, as in JavaScript, so there are at most
    as many iterations as characters left and the [fuel] the matcher
    gives, one more than that, is never used up (lemma [starLoop_fuel]). *)
Fixpoint starLoop (body : (mstate -> option mstate) -> mstate -> option mstate)
    (k : mstate -> option mstate) (fuel : nat) (st : mstate) {struct fuel}
    : option mstate :=
  match fuel with
  | O => k st
  | S fuel' =>
      match body (fun st' => if m_pos st' =? m_pos st then None
                             else starLoop body k fuel' st') st with
      | Some m => Some m
      | None => k st
      end
  end.

(** Backtracking matcher in continuation-passing style: [rmatch ci r k st]
    matches [r] at [st] and hands the state after it to [k]; when [k]
    fails the next way of matching [r] is tried. *)
Fixpoint rmatch (ci : bool) (r : regex) (k : mstate -> option mstate)
    (st : mstate) {struct r} : option mstate :=
  match r with
  | Eps => k st
  | Chr c =>
      match m_rest st with
      | String x s' => if eqChar ci c x then k (advance st x s') else None
      | "" => None
      end
  | Cls p =>
      match m_rest st with
      | String x s' => if inClass ci p x then k (advance st x s') else None
      | "" => None
      end
  | Seq r1 r2 => rmatch ci r1 (rmatch ci r2 k) st
  | Alt r1 r2 =>
      match rmatch ci r1 k st with
      | Some m => Some m
      | None => rmatch ci r2 k st
      end
  | Star r' => starLoop (rmatch ci r') k (S (String.length (m_rest st))) st
  | Grp n r' => rmatch ci r' (fun st' => k (capture n (m_pos st) st')) st
  | Bol => if m_pos st =? 0 then k st else None
  | Eol => match m_rest st with "" => k st | _ => None end
  | WordB =>
      if xorb (isWordOpt (m_prev st)) (isWordOpt (nextChar (m_rest st)))
      then k st else None
  end.

(** *** Pattern syntax *)

Fixpoint Lit (s : string) : regex :=
  match s with
  | "" => Eps
  | String c "" => Chr c
  | String c s' => Seq (Chr c) (Lit s')
  end.

Fixpoint AltOf (rs : list regex) : regex :=
  match rs with
  | [] => Eps
  | [r] => r
  | r :: rs' => Alt r (AltOf rs')
  end.

(** [a|b|c] over literal words *)
Definition Words (ws : list string) : regex := AltOf (map Lit ws).

Definition Opt (r : regex) : regex := Alt r Eps.        (* r? *)
Definition Plus (r : regex) : regex := Seq r (Star r).  (* r+ *)

Fixpoint UpTo (n : nat) (r : regex) : regex :=          (* r{0,n} *)
  match n with
  | O => Eps
  | S n' => Opt (Seq r (UpTo n' r))
  end.

Fixpoint Times (n : nat) (r : regex) : regex :=         (* r{n} *)
  match n with
  | O => Eps
  | S O => r
  | S n' => Seq r (Times n' r)
  end.

(** [r{lo,hi}] *)
Definition Rep (lo hi : nat) (r : regex) : regex :=
  match lo with
  | O => UpTo hi r
  | _ => Seq (Times lo r) (UpTo (hi - lo) r)
  end.

Definition digit : regex := Cls JS.isDigit.             (* \d *)
Definition space : regex := Cls JS.isSpace.             (* \s *)
Definition word : regex := Cls JS.isWordChar.           (* \w *)
Definition anyChar : regex := Cls JS.isNotNewline.      (* . *)
Definition range (lo hi : ascii) : regex := Cls (JS.inRange lo hi).

(** *** Running a pattern *)

(** A successful match: where it starts, where it ends, its groups. *)
Record result : Type := mkResult {
  index : nat;
  lastIndex : nat;
  groups : list (nat * (nat * nat));
  after : mstate
}.

Definition resultAt (start : nat) (st : mstate) : result :=
  mkResult start (m_pos st) (m_caps st) st.

(** Leftmost match at or after the position of [st]. *)
Fixpoint searchFrom (re : RegExp) (pos : nat) (prev : option ascii)
    (s : string) {struct s} : option result :=
  match rmatch (ignoreCase re) (source re) Some (mkState pos prev s []) with
  | Some st => Some (resultAt pos st)
  | None =>
      match s with
      | "" => None
      | String c s' => searchFrom re (S pos) (Some c) s'
      end
  end.

(** [re.exec(s)] / [s.match(re)] for a pattern without the [g] flag. *)
Definition exec (re : RegExp) (s : string) : option result :=
  searchFrom re 0 None s.

(** [re.test(s)] *)
Definition test (re : RegExp) (s : string) : bool :=
  match exec re s with Some _ => true | None => false end.

(** [m[0]] *)
Definition matched (s : string) (m : result) : string :=
  JS.slice s (index m) (lastIndex m).

Fixpoint lookupGroup (n : nat) (gs : list (nat * (nat * nat))) : option (nat * nat) :=
  match gs with
  | [] => None
  | (k, se) :: gs' => if k =? n then Some se else lookupGroup n gs'
  end.

(** [m[n]]; a group that did not take part gives the empty string here
    (the callers only read groups that always take part). *)
Definition group (s : string) (m : result) (n : nat) : string :=
  match lookupGroup n (groups m) with
  | Some (a, b) => JS.slice s a b
  | None => ""
  end.

(** All matches of a pattern with the [g] flag, left to right; after an
    empty match the search resumes one character further.  Every round
    moves on in the subject, so the [fuel] is never used up (lemma
    [allFrom_fuel]). *)
Fixpoint allFrom (fuel : nat) (re : RegExp) (st : mstate) : list result :=
  match fuel with
  | O => []
  | S fuel' =>
      match searchFrom re (m_pos st) (m_prev st) (m_rest st) with
      | None => []
      | Some m =>
          let st' := after m in
          if lastIndex m =? index m then
            match m_rest st' with
            | "" => [m]
            | String c s' => m :: allFrom fuel' re (advance st' c s')
            end
          else m :: allFrom fuel' re (mkState (m_pos st') (m_prev st') (m_rest st') [])
      end
  end.

Definition matchAll (re : RegExp) (s : string) : list result :=
  allFrom (S (String.length s)) re (mkState 0 None s []).

(** Text of [s] outside the matches [ms], with [by] in place of each
    match; [pos] is the offset of the part of [s] not yet copied. *)
Fixpoint substitute (s : string) (pos : nat) (ms : list result) (by_ : string) : string :=
  match ms with
  | [] => JS.sliceFrom s pos
  | m :: ms' => JS.slice s pos (index m) ++ by_ ++ substitute s (lastIndex m) ms' by_
  end.

(** [s.replace(/re/g, by)], for a replacement text without [$] patterns. *)
Definition replaceAll (re : RegExp) (s by_ : string) : string :=
  substitute s 0 (matchAll re s) by_.

(** [s.replace(/re/, by)]: the first match only. *)
Definition replaceFirst (re : RegExp) (s by_ : string) : string :=
  match exec re s with
  | None => s
  | Some m => JS.slice s 0 (index m) ++ by_ ++ JS.sliceFrom s (lastIndex m)
  end.

(** [s.split(re)] for a pattern without groups.  At each offset [q] the
    pattern is tried there and only there; a match that ends where the
    current piece starts is skipped.  The [fuel] is never used up (lemma
    [splitFrom_fuel]). *)
Fixpoint splitFrom (fuel : nat) (re : RegExp) (s : string)
    (p : nat) (q : nat) (prev : option ascii) (rest : string) : list string :=
  match fuel with
  | O => [JS.sliceFrom s p]
  | S fuel' =>
      match rest with
      | "" => [JS.sliceFrom s p]
      | String c rest' =>
          match rmatch (ignoreCase re) (source re) Some (mkState q prev rest []) with
          | Some st =>
              if m_pos st =? p then splitFrom fuel' re s p (S q) (Some c) rest'
              else JS.slice s p q
                   :: splitFrom fuel' re s (m_pos st) (m_pos st) (m_prev st) (m_rest st)
          | None => splitFrom fuel' re s p (S q) (Some c) rest'
          end
      end
  end.

Definition split (re : RegExp) (s : string) : list string :=
  match s with
  | "" => if test re "" then [] else [""]
  | _ => splitFrom (S (2 * String.length s)) re s 0 0 None s
  end.

(** [st'] is a later position in the same subject as [st]. *)
Definition follows (st st' : mstate) : Prop :=
  m_pos st <= m_pos st'
  /\ m_pos st' + String.length (m_rest st') = m_pos st + String.length (m_rest st).

End Re.

(* ================================================================== *)
(** ** parsers/wsop-parser.js: the columnar pipeline *)

Module WsopParser.
Import JS Re.

(** Sequence of patterns. *)
Fixpoint Cat (rs : list regex) : regex :=
  match rs with
  | [] => Eps
  | [r] => r
  | r :: rs' => Seq r (Cat rs')
  end.

(** Membership in a bracket expression that lists characters. *)
Fixpoint oneOf (chars : string) (c : ascii) : bool :=
  match chars with
  | "" => false
  | String x chars' => Ascii.eqb x c || oneOf chars' c
  end.

Definition re (r : regex) : RegExp := mkRegExp r false.    (* /r/ *)
Definition rei (r : regex) : RegExp := mkRegExp r true.    (* /r/i *)

(** *** Rake table *)

Record Tier : Type := mkTier {
  entryFeePct : Q;
  dealerStaffPct : Q;
  totalPct : Q
}.

Definition WSOP_RAKE_BY_BUYIN : list (Z * Tier) :=
  [ (300%Z,    mkTier 12.6  5.4  18.0);
    (400%Z,    mkTier 12.25 5.25 17.5);
    (500%Z,    mkTier 11.9  5.1  17.0);
    (550%Z,    mkTier 11.9  5.1  17.0);
    (600%Z,    mkTier 11.2  4.8  16.0);
    (800%Z,    mkTier 8.75  3.75 12.5);
    (1000%Z,   mkTier 8.4   3.6  12.0);
    (1500%Z,   mkTier 8.05  3.45 11.5);
    (1700%Z,   mkTier 8.05  3.45 11.5);
    (2000%Z,   mkTier 7.7   3.3  11.0);
    (2500%Z,   mkTier 7.7   3.3  11.0);
    (3000%Z,   mkTier 7.7   3.3  11.0);
    (5000%Z,   mkTier 5.6   2.4  8.0);
    (10000%Z,  mkTier 4.9   2.1  7.0);
    (25000%Z,  mkTier 4.2   1.8  6.0);
    (50000%Z,  mkTier 3.5   1.5  5.0);
    (100000%Z, mkTier 2.8   1.2  4.0);
    (250000%Z, mkTier 1.4   0.6  2.0) ].

Definition WSOP_RAKE_OVERRIDES : list (string * Tier) :=
  [ ("59", mkTier 7.0 3.0 10.0) ].

(** The entry of the table under a whole number. *)
Fixpoint tierOfBuyin (tbl : list (Z * Tier)) (buyin : Z) : option Tier :=
  match tbl with
  | [] => None
  | (k, t) :: tbl' => if (k =? buyin)%Z then Some t else tierOfBuyin tbl' buyin
  end.

(** The whole number a number is, when it is one. *)
Definition wholeNumber (x : double) : option Z :=
  match x with
  | Dbl q => if Qeq_bool (inject_Z (Qfloor q)) q then Some (Qfloor q) else None
  | _ => None
  end.

(** [WSOP_RAKE_BY_BUYIN[buyin]].  The keys are the decimal numerals of
    whole numbers below 10^21, and a number converts to such a numeral
    only when it is that whole number; no number converts to the name of
    an inherited member. *)
Definition tierOf (buyin : double) : option Tier :=
  match wholeNumber buyin with
  | Some key => tierOfBuyin WSOP_RAKE_BY_BUYIN key
  | None => None
  end.

(** The property names every object inherits from [Object.prototype]. *)
Definition objectPrototypeNames : list string :=
  [ "constructor"; "__defineGetter__"; "__defineSetter__"; "hasOwnProperty";
    "__lookupGetter__"; "__lookupSetter__"; "isPrototypeOf";
    "propertyIsEnumerable"; "toString"; "valueOf"; "__proto__";
    "toLocaleString" ].

(** What a table holds under a name: an entry of its own, or a member
    inherited from [Object.prototype] (a function, or the prototype itself
    under [__proto__]), which is truthy and has none of the fields of a
    tier. *)
Inductive Property : Type :=
| Entry (tier : Tier)
| Inherited.

Fixpoint ownEntry (tbl : list (string * Tier)) (name : string) : option Tier :=
  match tbl with
  | [] => None
  | (k, t) :: tbl' => if String.eqb k name then Some t else ownEntry tbl' name
  end.

(** [WSOP_RAKE_OVERRIDES[eventNumber]] *)
Definition tierOfEvent (tbl : list (string * Tier)) (eventNumber : string)
    : option Property :=
  match ownEntry tbl eventNumber with
  | Some tier => Some (Entry tier)
  | None =>
      if existsb (String.eqb eventNumber) objectPrototypeNames then Some Inherited
      else None
  end.

(** The object returned by [getWSOPRake]. *)
Module Rake.
Record t : Type := mk {
  rakePct : option jsvalue;
  rakeDollars : option jsnum;
  prizePool : option double;
  houseFee : option jsnum;
  optAddOn : option jsnum
}.
End Rake.

(** [Math.round(buyin * pct / 100)] for a percentage literal [pct] *)
Definition percentOf (buyin : double) (pct : Q) : jsnum :=
  Math_round (Ddiv (Dmul buyin (literal pct)) (Dbl 100)).

(** The three returns that compute from a tier share this body. *)
Definition rakeOfTier (buyin : double) (tier : Tier) : Rake.t :=
  let rakeDollars := percentOf buyin (totalPct tier) in
  let houseFee := percentOf buyin (entryFeePct tier) in
  let dealerStaff := percentOf buyin (dealerStaffPct tier) in
  Rake.mk (Some (Num (literal (totalPct tier)))) (Some rakeDollars)
          (Some (Dsub buyin (toDouble rakeDollars)))
          (Some houseFee) (Some dealerStaff).

(** The same body when the override is an inherited member: its three
    percentages read as [undefined], every product with them is [NaN],
    [Math.round(NaN)] is [NaN] and so is [buyin - NaN]. *)
Definition rakeOfInherited : Rake.t :=
  Rake.mk (Some Undefined) (Some JNaN) (Some DNaN) (Some JNaN) (Some JNaN).

Definition rakeOfProperty (buyin : double) (override : Property) : Rake.t :=
  match override with
  | Entry tier => rakeOfTier buyin tier
  | Inherited => rakeOfInherited
  end.

Definition unknownRake : Rake.t := Rake.mk None None None None None.

(** [keys.sort((a, b) => a - b)] *)
Fixpoint insertSorted (x : Z) (l : list Z) : list Z :=
  match l with
  | [] => [x]
  | y :: l' => if (x <? y)%Z then x :: l else y :: insertSorted x l'
  end.

Definition sortNumbers (l : list Z) : list Z := fold_right insertSorted [] l.

(** The loop of the fallback: the last tier that does not exceed the
    buy-in, stopping at the first tier above it. *)
Fixpoint scanTiers (tiers : list Z) (buyin : double) (bestTier : option Z) : option Z :=
  match tiers with
  | [] => bestTier
  | t :: tiers' =>
      if leq t buyin then scanTiers tiers' buyin (Some t) else bestTier
  end.

(** [eventNumber && WSOP_RAKE_OVERRIDES[eventNumber]]: [eventNumber] is
    [None] when the argument is missing; the empty string is falsy too. *)
Definition overrideFor (eventNumber : option string) : option Property :=
  match eventNumber with
  | Some ev => if truthy ev then tierOfEvent WSOP_RAKE_OVERRIDES ev else None
  | None => None
  end.

(** The fallback: nearest tier below, the smallest tier when the buy-in
    is below all of them. *)
Definition fallbackTier (buyin : double) : option Z :=
  let tiers := sortNumbers (map fst WSOP_RAKE_BY_BUYIN) in
  let bestTier := scanTiers tiers buyin None in
  match bestTier, tiers with
  | None, t0 :: _ => Some t0
  | _, _ => bestTier
  end.

(** The tier of the second and third return: exact key, fallback.  The
    fallback names a key of the table, so its lookup succeeds (lemma
    [resolveTier_total]). *)
Definition resolveTier (buyin : double) : option Tier :=
  match tierOf buyin with
  | Some tier => Some tier
  | None =>
      match fallbackTier buyin with
      | Some bestTier => tierOfBuyin WSOP_RAKE_BY_BUYIN bestTier
      | None => None
      end
  end.

Definition getWSOPRake (buyin : double) (eventNumber : option string) : Rake.t :=
  match overrideFor eventNumber with
  | Some override => rakeOfProperty buyin override
  | None =>
      match resolveTier buyin with
      | Some tier => rakeOfTier buyin tier
      | None => unknownRake
      end
  end.

(** *** Game variant classifier *)

Definition torseRe : RegExp :=                     (* /\bt\.?o\.?r\.?s\.?e\.?\b/i *)
  rei (Cat [WordB; Chr "t"; Opt (Chr "."); Chr "o"; Opt (Chr "."); Chr "r";
            Opt (Chr "."); Chr "s"; Opt (Chr "."); Chr "e"; Opt (Chr "."); WordB]).
Definition mixedStartRe : RegExp :=                (* /^mixed[:\s]/i *)
  rei (Cat [Bol; Lit "mixed"; Cls (fun c => oneOf ":" c || isSpace c)]).
Definition mixedGameRe : RegExp :=                 (* /\bmixed game/i *)
  rei (Cat [WordB; Lit "mixed game"]).
Definition plo8Re : RegExp :=                      (* /\bplo\s*8\b/i *)
  rei (Cat [WordB; Lit "plo"; Star space; Chr "8"; WordB]).
Definition ploRe : RegExp :=                       (* /\bplo\b/i *)
  rei (Cat [WordB; Lit "plo"; WordB]).
Definition bigORe : RegExp :=                      (* /\bbig[- ]?o\b/i *)
  rei (Cat [WordB; Lit "big"; Opt (Cls (oneOf "- ")); Chr "o"; WordB]).

(** The part of the name the tests look at. *)
Definition mainName (eventName : string) : string :=
  match indexOf eventName ";" with
  | Some semi => if 0 <? semi then take semi eventName else eventName
  | None => eventName
  end.

Definition classifyGameVariant (eventName : string) : string :=
  let main := mainName eventName in
  let lower := toLowerCase main in
  if includes lower "dealers choice" then "Dealers Choice"
  else if includes lower "8-game" || includes lower "8 game mix"
          || includes lower "nine game" then "Mixed Games"
  else if includes lower "h.o.r.s.e" then "H.O.R.S.E."
  else if test torseRe lower || includes lower "torse" then "T.O.R.S.E."
  else if includes lower "mixed plo" then "PLO"
  else if test mixedStartRe lower || test mixedGameRe lower then "Mixed Games"
  else if includes lower "pot-limit omaha hi-lo" || includes lower "plo hi-lo"
       then "PLO Hi-Lo"
  else if test plo8Re lower || includes lower "plo hi/lo" then "PLO Hi-Lo"
  else if includes lower "5 card plo" || includes lower "5-card plo" then "5-Card PLO"
  else if includes lower "pot-limit omaha" || test ploRe lower then "PLO"
  else if test bigORe lower then "Big O"
  else if includes lower "omaha hi-lo" then "Omaha Hi-Lo"
  else if includes lower "2-7" && includes lower "triple draw" then "2-7 Triple Draw"
  else if includes lower "2-7" && includes lower "lowball" then "2-7 Lowball"
  else if includes lower "stud hi-lo" then "Stud Hi-Lo"
  else if includes lower "seven card stud" then "7-Card Stud"
  else if includes lower "razz" then "Razz"
  else if includes lower "badugi" then "Badugi"
  else if includes lower "limit hold" && negb (includes lower "no-limit")
       then "Limit Holdem"
  else "NLHE".

(** Every label [classifyGameVariant] can return, in order of first
    appearance in its body. *)
Definition variantLabels : list string :=
  [ "Dealers Choice"; "Mixed Games"; "H.O.R.S.E."; "T.O.R.S.E."; "PLO";
    "PLO Hi-Lo"; "5-Card PLO"; "Big O"; "Omaha Hi-Lo"; "2-7 Triple Draw";
    "2-7 Lowball"; "Stud Hi-Lo"; "7-Card Stud"; "Razz"; "Badugi";
    "Limit Holdem"; "NLHE" ].

(** *** Column reconstruction *)

Definition pageNumberRe : RegExp :=                (* /^\d+\/\d+$/ *)
  re (Cat [Bol; Plus digit; Chr "/"; Plus digit; Eol]).
Definition dateLineRe : RegExp :=                  (* /^(May|June|July)\s+\d+$/i *)
  rei (Cat [Bol; Grp 1 (Words ["May"; "June"; "July"]); Plus space; Plus digit; Eol]).
Definition timeLineRe : RegExp :=                  (* /^\d{1,2}(:\d{2})?\s*(AM|PM)$/i *)
  rei (Cat [Bol; Rep 1 2 digit; Opt (Grp 1 (Cat [Chr ":"; Times 2 digit]));
            Star space; Grp 2 (Words ["AM"; "PM"]); Eol]).
Definition spacesRe : RegExp := re (Plus space).   (* /\s+/g *)
Definition dollarStartRe : RegExp :=               (* /^\$/ *)
  re (Cat [Bol; Chr "$"]).
Definition dollarAmountRe : RegExp :=              (* /\$([\d,]+)/ *)
  re (Cat [Chr "$"; Grp 1 (Plus (Cls (fun c => isDigit c || oneOf "," c)))]).
Definition commaRe : RegExp := re (Chr ",").       (* /,/g *)
Definition chipsLineRe : RegExp :=                 (* /^[\d,]+$/ *)
  re (Cat [Bol; Plus (Cls (fun c => isDigit c || oneOf "," c)); Eol]).
Definition durationLineRe : RegExp :=              (* /^[\d\s\/]+$/ *)
  re (Cat [Bol; Plus (Cls (fun c => isDigit c || isSpace c || oneOf "/" c)); Eol]).
Definition digitsLineRe : RegExp :=                (* /^\d+$/ *)
  re (Cat [Bol; Plus digit; Eol]).
Definition perFlightRe : RegExp :=                 (* /^\d+\s*\/\s*flight/i *)
  rei (Cat [Bol; Plus digit; Star space; Chr "/"; Star space; Lit "flight"]).
Definition levelsLineRe : RegExp :=                (* /^\d+\s*levels?$/i *)
  rei (Cat [Bol; Plus digit; Star space; Lit "level"; Opt (Chr "s"); Eol]).
Definition firstRe : RegExp :=                     (* /^First/i *)
  rei (Cat [Bol; Lit "First"]).
Definition eventNumberRe : RegExp :=               (* /^\d{1,3}[A-E]?$/ *)
  re (Cat [Bol; Rep 1 3 digit; Opt (range "A" "E"); Eol]).
(** [/^MAIN EVENT\s*-\s*(Day\s+\d|Day\s+Off|Plays|Final)/i] *)
Definition mainEventDayRe : RegExp :=
  rei (Cat [Bol; Lit "MAIN EVENT"; Star space; Chr "-"; Star space;
            Grp 1 (AltOf [Cat [Lit "Day"; Plus space; digit];
                          Cat [Lit "Day"; Plus space; Lit "Off"];
                          Lit "Plays"; Lit "Final"])]).
Definition multiDayTailRe : RegExp :=              (* /\(\d+-day event\)\s*$/i *)
  rei (Cat [Chr "("; Plus digit; Lit "-day event)"; Star space; Eol]).

(** The [starters] of [isNewEventName], each anchored at the start and
    case-insensitive. *)
Definition starters : list RegExp :=
  map (fun r => rei (Seq Bol r))
    [ Lit "Mystery"; Lit "Industry"; Cat [Plus digit; Lit "-Handed"];
      Lit "Omaha Hi-Lo"; Lit "Pot-Limit";
      Cat [Lit "Seven Card Stud"; Plus space; Chr "("]; Lit "Heads Up";
      Lit "Dealers Choice"; Lit "No-Limit";
      Lit "COLOSSUS"; Lit "SHOOTOUT"; Lit "High Roller";
      Cat [Lit "Badugi"; Plus space; Chr "("]; Lit "Big O";
      Cat [Lit "Mixed"; Cls (fun c => oneOf ":" c || isSpace c)];
      Lit "Super Turbo"; Lit "Freezeout"; Lit "MONSTER"; Lit "Seniors";
      Lit "SENIORS"; Lit "MILLIONAIRE"; Lit "Battle"; Lit "SUPER SENIORS";
      Lit "TAG TEAM"; Lit "Poker Players"; Lit "Gladiators"; Lit "LADIES";
      Lit "Limit 2-7"; Lit "Limit Hold"; Lit "MINI"; Lit "Pokernews"; Lit "Summer";
      Lit "MAIN EVENT"; Lit "Ultra Stack"; Lit "Mid-Stakes"; Lit "Lucky";
      Lit "Poker Hall"; Lit "T.O.R.S.E"; Lit "The Closer"; Lit "H.O.R.S.E";
      Cat [Lit "Razz"; Plus space; Chr "("]; Lit "SALUTE"; Lit "6-Handed";
      Lit "8-Handed" ].

Definition isNewEventName (line : string) (buffer : list string) : bool :=
  match buffer with
  | [] => true
  | _ =>
      let bufferText := join " " buffer in
      if includes bufferText ";" && negb (test multiDayTailRe bufferText) then false
      else existsb (fun p => test p line) starters
  end.

Inductive SectionName : Type :=
| NoSection | Dates | Days | Times | Buyins | Chips | Durations
| Reentries | LateRegs | EventNames | EventNumbers.

Definition isSection (a b : SectionName) : bool :=
  match a, b with
  | NoSection, NoSection | Dates, Dates | Days, Days | Times, Times
  | Buyins, Buyins | Chips, Chips | Durations, Durations
  | Reentries, Reentries | LateRegs, LateRegs | EventNames, EventNames
  | EventNumbers, EventNumbers => true
  | _, _ => false
  end.

(** The [result] object of [findSections]. *)
Record Sections : Type := mkSections {
  dates : list string;
  times : list string;
  allBuyins : list (option jsnum);   (* null for "-" *)
  chips : list (option jsnum);
  durations : list string;
  reentries : list string;
  lateRegs : list string;
  eventNames : list string;
  eventNumbers : list string
}.

Definition noSections : Sections := mkSections [] [] [] [] [] [] [] [] [].

Definition push {A : Type} (l : list A) (x : A) : list A := (l ++ [x])%list.

Definition pushDate (r : Sections) (x : string) : Sections :=
  mkSections (push (dates r) x) (times r) (allBuyins r) (chips r) (durations r)
             (reentries r) (lateRegs r) (eventNames r) (eventNumbers r).
Definition pushTime (r : Sections) (x : string) : Sections :=
  mkSections (dates r) (push (times r) x) (allBuyins r) (chips r) (durations r)
             (reentries r) (lateRegs r) (eventNames r) (eventNumbers r).
Definition pushBuyin (r : Sections) (x : option jsnum) : Sections :=
  mkSections (dates r) (times r) (push (allBuyins r) x) (chips r) (durations r)
             (reentries r) (lateRegs r) (eventNames r) (eventNumbers r).
Definition pushChips (r : Sections) (x : option jsnum) : Sections :=
  mkSections (dates r) (times r) (allBuyins r) (push (chips r) x) (durations r)
             (reentries r) (lateRegs r) (eventNames r) (eventNumbers r).
Definition pushDuration (r : Sections) (x : string) : Sections :=
  mkSections (dates r) (times r) (allBuyins r) (chips r) (push (durations r) x)
             (reentries r) (lateRegs r) (eventNames r) (eventNumbers r).
Definition pushReentry (r : Sections) (x : string) : Sections :=
  mkSections (dates r) (times r) (allBuyins r) (chips r) (durations r)
             (push (reentries r) x) (lateRegs r) (eventNames r) (eventNumbers r).
Definition pushLateReg (r : Sections) (x : string) : Sections :=
  mkSections (dates r) (times r) (allBuyins r) (chips r) (durations r)
             (reentries r) (push (lateRegs r) x) (eventNames r) (eventNumbers r).
Definition pushEventName (r : Sections) (x : string) : Sections :=
  mkSections (dates r) (times r) (allBuyins r) (chips r) (durations r)
             (reentries r) (lateRegs r) (push (eventNames r) x) (eventNumbers r).
Definition pushEventNumber (r : Sections) (x : string) : Sections :=
  mkSections (dates r) (times r) (allBuyins r) (chips r) (durations r)
             (reentries r) (lateRegs r) (eventNames r) (push (eventNumbers r) x).
Definition setEventNames (r : Sections) (names : list string) : Sections :=
  mkSections (dates r) (times r) (allBuyins r) (chips r) (durations r)
             (reentries r) (lateRegs r) names (eventNumbers r).

(** The variables the loop of [findSections] updates. *)
Record Scan : Type := mkScan {
  section : SectionName;
  eventNameBuffer : list string;
  result : Sections
}.

(** Push the buffered event name, if any. *)
Definition flushName (buffer : list string) (r : Sections) : Sections :=
  match buffer with
  | [] => r
  | _ => pushEventName r (join " " buffer)
  end.

(** The chain "Collect data based on section": the data pushed for [line]
    and the section afterwards (a line that is no late-registration entry
    switches to the event names). *)
Definition collect (sec : SectionName) (r : Sections) (line : string)
    : SectionName * Sections :=
  match sec with
  | Dates => (sec, if test dateLineRe line then pushDate r line else r)
  | Days => (sec, r)
  | Times =>
      (sec, if test timeLineRe line || String.eqb line "TBD"
            then pushTime r (toUpperCase (replaceAll spacesRe line ""))
            else r)
  | Buyins =>
      (sec, if String.eqb line "-" then pushBuyin r None
            else if test dollarStartRe line then
              match exec dollarAmountRe line with
              | Some m => pushBuyin r (Some (parseInt (replaceAll commaRe (group line m 1) "")))
              | None => pushBuyin r None
              end
            else r)
  | Chips =>
      (sec, if test chipsLineRe line || String.eqb line "-"
            then pushChips r (if String.eqb line "-" then None
                              else Some (parseInt (replaceAll commaRe line "")))
            else r)
  | Durations =>
      (sec, if test durationLineRe line || String.eqb line "-"
            then pushDuration r (if String.eqb line "-" then "" else line)
            else r)
  | Reentries =>
      (sec, if test digitsLineRe line || test perFlightRe line
               || includes (toLowerCase line) "unlimited"
               || includes (toLowerCase line) "bust" || String.eqb line "0"
            then pushReentry r line else r)
  | LateRegs =>
      if test levelsLineRe line || test firstRe line
      then (sec, pushLateReg r line)
      else (EventNames, r)
  | NoSection | EventNames | EventNumbers => (sec, r)
  end.

(** One iteration of the loop over the lines. *)
Definition scanLine (st : Scan) (line : string) : Scan :=
  let sec := section st in
  let buf := eventNameBuffer st in
  let r := result st in
  if includes line "EVENT NAME" && includes line "DATE" then mkScan Dates buf r
  else if String.eqb line "DAY" then mkScan Days buf r
  else if String.eqb line "TIME" then mkScan Times buf r
  else if String.eqb line "BUY-IN" then mkScan Buyins buf r
  else if String.eqb line "STARTING" then mkScan Chips buf r
  else if String.eqb line "CHIPS" then st
  else if String.eqb line "LVL" then mkScan Durations buf r
  else if String.eqb line "DURATION" || String.eqb line "(MINUTES)" then st
  else if String.eqb line "RE-ENTRY" then mkScan Reentries buf r
  else if String.eqb line "LATE" then mkScan LateRegs buf r
  else if String.eqb line "REG." then st
  else if String.eqb line "EV#" then mkScan EventNumbers [] (flushName buf r)
  else if test pageNumberRe line then st
  else if String.eqb line "WOHLD SERIES" || String.eqb line "PDi<ER" then st
  else
    let '(sec, r) := collect sec r line in
    match sec with
    | EventNames =>
        if isNewEventName line buf
        then mkScan sec [line] (flushName buf r)
        else mkScan sec (push buf line) r
    | EventNumbers =>
        mkScan sec buf (if test eventNumberRe line then pushEventNumber r line else r)
    | _ => mkScan sec buf r
    end.

(** Names that are no tournaments are removed at the end. *)
Definition keepName (n : string) : bool :=
  if includes (toLowerCase n) "registration opens" then false
  else if test mainEventDayRe n then false
  else true.

Definition findSections (lines : list string) : Sections :=
  let st := fold_left scanLine lines (mkScan NoSection [] noSections) in
  let r := flushName (eventNameBuffer st) (result st) in
  setEventNames r (filter keepName (eventNames r)).

(** *** Pages *)

(** A record pushed by [parsePage]. *)
Module Tournament.
Record t : Type := mk {
  eventNumber : string;
  eventName : string;
  date : string;
  time : string;
  buyin : jsnum;
  prizePool : option double;
  houseFee : option jsnum;
  optAddOn : option jsnum;
  rakePct : option jsvalue;
  rakeDollars : option jsnum;
  startingChips : option jsnum;
  levelDuration : string;
  reentry : string;
  lateReg : string;
  gameVariant : string;
  venue : string
}.
End Tournament.

(** [validBuyinIndices]: positions of the buy-ins that are not [null]. *)
Fixpoint nonNullIndices (idx : nat) (buyins : list (option jsnum)) : list nat :=
  match buyins with
  | [] => []
  | None :: bs => nonNullIndices (S idx) bs
  | Some _ :: bs => idx :: nonNullIndices (S idx) bs
  end.

(** [xs[i] || ''] *)
Definition orEmpty (o : option string) : string :=
  match o with Some s => s | None => "" end.

(** [chips[i] || null]: zero and [NaN] are falsy. *)
Definition chipsOrNull (o : option (option jsnum)) : option jsnum :=
  match o with
  | Some (Some n) => if falsyNumber n then None else Some n
  | _ => None
  end.

(** The body of the loop over the events: the record pushed for event
    [i], [None] where the body runs into a [continue]. *)
Definition parseEvent (sections : Sections) (validBuyinIndices : list nat)
    (year : Z) (i : nat) : option Tournament.t :=
  let eventNum := nth i (eventNumbers sections) "" in
  let eventName := orEmpty (nth_error (eventNames sections) i) in
  if test mainEventDayRe eventName then None
  else
    match nth_error validBuyinIndices i with
    | None => None
    | Some rowIdx =>
        match nth_error (allBuyins sections) rowIdx with
        | Some (Some buyin) =>
            if falsyNumber buyin || lessThan buyin 100 then None
            else
              let rake := getWSOPRake (toDouble buyin) (Some eventNum) in
              Some (Tournament.mk
                eventNum
                eventName
                (match nth_error (dates sections) rowIdx with
                 | Some d => if truthy d then d ++ ", " ++ toString year else ""
                 | None => ""
                 end)
                (match nth_error (times sections) rowIdx with
                 | Some t => if truthy t then t else "TBD"
                 | None => "TBD"
                 end)
                buyin
                (Rake.prizePool rake)
                (Rake.houseFee rake)
                (Rake.optAddOn rake)
                (Rake.rakePct rake)
                (Rake.rakeDollars rake)
                (chipsOrNull (nth_error (chips sections) i))
                (orEmpty (nth_error (durations sections) i))
                (orEmpty (nth_error (reentries sections) i))
                (orEmpty (nth_error (lateRegs sections) i))
                (classifyGameVariant eventName)
                "WSOP Las Vegas")
        | _ => None                      (* null buy-in *)
        end
    end.

(** [xs.flatMap]-like collection of the records that were pushed. *)
Fixpoint pushed {A B : Type} (f : A -> option B) (l : list A) : list B :=
  match l with
  | [] => []
  | x :: l' =>
      match f x with
      | Some y => y :: pushed f l'
      | None => pushed f l'
      end
  end.

(** [pageText.split('\n').map(l => l.trim()).filter(l => l)] *)
Definition pageLines (pageText : string) : list string :=
  filter truthy (map trim (splitChar "010" pageText)).

Definition parsePage (pageText : string) (year : Z) : list Tournament.t :=
  let lines := pageLines pageText in
  let sections := findSections lines in
  match eventNumbers sections with
  | [] => []
  | _ =>
      let numEvents := List.length (eventNumbers sections) in
      let validBuyinIndices := nonNullIndices 0 (allBuyins sections) in
      pushed (parseEvent sections validBuyinIndices year) (seq 0 numEvents)
  end.

Definition pageBreakRe : RegExp :=                 (* /-- \d+ of \d+ --/ *)
  re (Cat [Lit "-- "; Plus digit; Lit " of "; Plus digit; Lit " --"]).

(** [text.split(/-- \d+ of \d+ --/).filter(p => p.trim())] *)
Definition splitPages (text : string) : list string :=
  filter (fun p => truthy (trim p)) (split pageBreakRe text).

Definition isInfoPage (page : string) : bool :=
  includes page "Consult structure sheets"
  || includes page "Specialty Landmark"
  || includes page "Take-Out Percentages".

Definition parseWSOP2025Schedule (text : string) (year : Z) : list Tournament.t :=
  flat_map (fun page => if isInfoPage page then [] else parsePage page year)
           (splitPages text).

End WsopParser.

(* ================================================================== *)
(** ** parsers/generic-parser.js: the row pipeline *)

Module GenericParser.
Import JS Re.
Import WsopParser (Cat, oneOf, re, rei, push, sortNumbers, classifyGameVariant,
                   splitPages, spacesRe).

(** What a call does: it returns a value or throws.  The only statement of
    generic-parser.js that can throw is [rowLines[0].replace] in
    [parseRow], a [TypeError] when [rowLines] is empty; wsop-parser.js has
    none. *)
Inductive completion (A : Type) : Type :=
| Returns (a : A)
| Throws.
Arguments Returns {A} a.
Arguments Throws {A}.

Definition dayNames : regex :=
  Words ["MON"; "TUES"; "WED"; "THURS"; "FRI"; "SAT"; "SUN"].
Definition monthNames : regex :=
  Words ["JAN"; "FEB"; "MAR"; "APR"; "MAY"; "JUN"; "JUL"; "AUG"; "SEP"; "OCT"; "NOV"; "DEC"].

Definition MONTH_FULL : list (string * string) :=
  [ ("JAN", "January"); ("FEB", "February"); ("MAR", "March"); ("APR", "April");
    ("MAY", "May"); ("JUN", "June"); ("JUL", "July"); ("AUG", "August");
    ("SEP", "September"); ("OCT", "October"); ("NOV", "November"); ("DEC", "December") ].

(** [/^(\d{1,3}[A-G]?\s+)?(MON|...|SUN)\s+(JAN|...|DEC)\s+\d{1,2}\b/i] *)
Definition ROW_START_RE : RegExp :=
  rei (Cat [Bol; Opt (Grp 1 (Cat [Rep 1 3 digit; Opt (range "A" "G"); Plus space]));
            Grp 2 dayNames; Plus space; Grp 3 monthNames; Plus space;
            Rep 1 2 digit; WordB]).

Definition KNOWN_VENUES : list string :=
  [ "MGM NATIONAL HARBOR"; "MGM GRAND"; "WYNN"; "ENCORE"; "VENETIAN";
    "ARIA"; "BELLAGIO"; "RESORTS WORLD"; "GOLDEN NUGGET"; "SOUTH POINT";
    "ORLEANS"; "HORSESHOE"; "PARIS LAS VEGAS"; "SEMINOLE HARD ROCK";
    "BORGATA"; "FOXWOODS"; "MOHEGAN SUN"; "THUNDER VALLEY";
    "CHOCTAW"; "BIKE"; "COMMERCE"; "HARD ROCK HOLLYWOOD" ].

Definition FOOTER_RE : RegExp :=
  rei (AltOf [Cat [Lit "MUST BE 21"; Chr "+"]; Lit "PLEASE PLAY RESPONSIBLY";
              Lit "GAMBLER"; Cat [Lit "GAMBLING"; Opt (Chr " "); Lit "HELP"];
              Lit "NO LONGER WITHHOLDS"; Lit "AUTO-GRATUITY"; Lit "OPTIONAL ADD-ON";
              Lit "STRUCTURE SHEETS FOR A COMPLETE"]).

(** *** Header and metadata detection *)

Definition headerFragments : list RegExp :=
  map rei
    [ Cat [Bol; Lit "event"; Eol]; Cat [Bol; Chr "#"; Star space; Lit "day"; WordB];
      Cat [Bol; Lit "entry"; Eol]; Cat [Bol; Lit "prize"; Eol];
      Cat [Bol; Lit "pool"; Eol]; Cat [Bol; Lit "house"; Eol];
      Cat [Bol; Lit "fee"; Eol]; Cat [Bol; Lit "opt"; Eol];
      Cat [Bol; Lit "add-on"; WordB]; Cat [Bol; Lit "chips"; Eol];
      Cat [Bol; Lit "levels"; Eol]; Cat [Bol; Lit "buy-in"; Eol];
      Cat [Bol; Lit "total"; Eol] ].

Definition hashDayRe : RegExp :=                   (* /^#\s*Day\s/i *)
  rei (Cat [Bol; Chr "#"; Star space; Lit "Day"; space]).
Definition dateWordRe : RegExp := rei (Lit "Date"). (* /Date/i *)
Definition timeWordRe : RegExp := rei (Lit "Time"). (* /Time/i *)

Definition isColumnHeaderLine (line : string) : bool :=
  let lower := trim (toLowerCase line) in
  if test ROW_START_RE line then false
  else if existsb (fun r => test r lower) headerFragments then true
  else if test hashDayRe line && test dateWordRe line && test timeWordRe line then true
  else false.

(** [/^\d{4}\s+POTOMAC|POKER OPEN|WINTER|SUMMER|SPRING|CLASSIC|CHAMPIONSHIP/i] *)
Definition seriesLineRe : RegExp :=
  rei (AltOf [Cat [Bol; Times 4 digit; Plus space; Lit "POTOMAC"]; Lit "POKER OPEN";
              Lit "WINTER"; Lit "SUMMER"; Lit "SPRING"; Lit "CLASSIC";
              Lit "CHAMPIONSHIP"]).
(** [/^(JANUARY|...|DECEMBER)\s+\d/i] *)
Definition monthLineRe : RegExp :=
  rei (Cat [Bol; Grp 1 (Words ["JANUARY"; "FEBRUARY"; "MARCH"; "APRIL"; "MAY"; "JUNE";
                               "JULY"; "AUGUST"; "SEPTEMBER"; "OCTOBER"; "NOVEMBER";
                               "DECEMBER"]); Plus space; digit]).
(** [new RegExp(`\\b${year}\\b`)] *)
Definition yearWordRe (year : Z) : RegExp :=
  re (Cat [WordB; Lit (toString year); WordB]).
Definition presentedByRe : RegExp :=               (* /^PRESENTED BY/i *)
  rei (Cat [Bol; Lit "PRESENTED BY"]).

Definition isMetadataLine (line : string) (year : Z) : bool :=
  if test seriesLineRe line then true
  else if test monthLineRe line then true
  else if test (yearWordRe year) line && negb (test ROW_START_RE line) then true
  else if existsb (fun v => includes (toUpperCase line) v) KNOWN_VENUES
          && negb (test ROW_START_RE line) then true
  else if test presentedByRe line then true
  else false.

(** *** Year and venue detection *)

Definition yearRe : RegExp :=                      (* /\b(202\d|203\d)\b/ *)
  re (Cat [WordB; Grp 1 (Alt (Cat [Lit "202"; digit]) (Cat [Lit "203"; digit])); WordB]).

(** [currentYear] stands for [new Date().getFullYear()], read when the
    first 500 characters hold no year.  [m[1]] is four digits, so its
    [parseInt] is their value. *)
Definition detectYear (currentYear : Z) (text : string) : Z :=
  let header := slice text 0 500 in
  match exec yearRe header with
  | Some m => digitsValue 0 (group header m 1)
  | None => currentYear
  end.

Definition VENUE_DISPLAY : list (string * string) :=
  [ ("MGM NATIONAL HARBOR", "MGM National Harbor");
    ("MGM GRAND", "MGM Grand");
    ("WYNN", "Wynn Las Vegas");
    ("ENCORE", "Wynn Las Vegas");
    ("VENETIAN", "Venetian");
    ("ARIA", "Aria");
    ("BELLAGIO", "Bellagio");
    ("RESORTS WORLD", "Resorts World");
    ("GOLDEN NUGGET", "Golden Nugget");
    ("SOUTH POINT", "South Point");
    ("ORLEANS", "Orleans");
    ("HORSESHOE", "Horseshoe / Paris Las Vegas");
    ("PARIS LAS VEGAS", "Horseshoe / Paris Las Vegas");
    ("SEMINOLE HARD ROCK", "Seminole Hard Rock");
    ("BORGATA", "Borgata");
    ("FOXWOODS", "Foxwoods");
    ("MOHEGAN SUN", "Mohegan Sun");
    ("THUNDER VALLEY", "Thunder Valley");
    ("CHOCTAW", "Choctaw");
    ("BIKE", "The Bicycle Casino");
    ("COMMERCE", "Commerce Casino");
    ("HARD ROCK HOLLYWOOD", "Hard Rock Hollywood") ].

(** [table[key] || key] *)
Fixpoint lookupOr (tbl : list (string * string)) (key : string) : string :=
  match tbl with
  | [] => key
  | (k, v) :: tbl' =>
      if String.eqb k key then (if truthy v then v else key) else lookupOr tbl' key
  end.

Definition detectVenue (text : string) : string :=
  let upper := toUpperCase text in
  match find (fun v => includes upper v) KNOWN_VENUES with
  | Some v => lookupOr VENUE_DISPLAY v
  | None => "Unknown Venue"
  end.

(** *** Series name detection *)

(** [/(\w[\w\s]*(?:POKER OPEN|CLASSIC|CHAMPIONSHIP|SERIES|FESTIVAL|OPEN|CIRCUIT))/i] *)
Definition seriesNameRe : RegExp :=
  rei (Grp 1 (Cat [word; Star (Cls (fun c => isWordChar c || isSpace c));
                   Words ["POKER OPEN"; "CLASSIC"; "CHAMPIONSHIP"; "SERIES";
                          "FESTIVAL"; "OPEN"; "CIRCUIT"]])).

Definition detectSeriesName (text : string) : option string :=
  let header := slice text 0 500 in
  match exec seriesNameRe header with
  | Some m => Some (trim (group header m 1))
  | None => None
  end.

(** *** Grouping lines into rows *)

(** The loop of [groupIntoRows]: [rows] pushed so far, [currentRow]. *)
Fixpoint groupLines (lines : list string) (rows : list (list string))
    (currentRow : option (list string)) : list (list string) :=
  match lines with
  | [] =>
      match currentRow with
      | Some row => push rows row
      | None => rows
      end
  | line :: lines' =>
      if test ROW_START_RE line then
        groupLines lines'
          (match currentRow with Some row => push rows row | None => rows end)
          (Some [line])
      else
        match currentRow with
        | Some row => groupLines lines' rows (Some (push row line))
        | None => groupLines lines' rows None
        end
  end.

Definition groupIntoRows (lines : list string) : list (list string) :=
  groupLines lines [] None.

(** *** Fields of a row *)

Definition tabsRe : RegExp := re (Plus (Chr "009")).     (* /\t+/g *)
Definition tabRe : RegExp := re (Chr "009").             (* /\t/g *)
Definition spaceRe : RegExp := re space.                 (* /\s/g *)
(** [/^(\d{1,3}[A-G]?)\s+(MON|...|SUN)/i] *)
Definition eventNumberRe : RegExp :=
  rei (Cat [Bol; Grp 1 (Cat [Rep 1 3 digit; Opt (range "A" "G")]); Plus space;
            Grp 2 dayNames]).
(** [/(MON|...|SUN)\s+(JAN|...|DEC)\s+(\d{1,2})/i] *)
Definition dateRe : RegExp :=
  rei (Cat [Grp 1 dayNames; Plus space; Grp 2 monthNames; Plus space;
            Grp 3 (Rep 1 2 digit)]).
(** [/\b(\d{1,2}(?::\d{2})?\s*(?:AM|PM))\b/i] *)
Definition timeRe : RegExp :=
  rei (Cat [WordB;
            Grp 1 (Cat [Rep 1 2 digit; Opt (Cat [Chr ":"; Times 2 digit]);
                        Star space; Words ["AM"; "PM"]]);
            WordB]).
Definition digitOrComma (c : ascii) : bool := isDigit c || oneOf "," c.
Definition dollarRe : RegExp :=                    (* /\$[\d,]+/g *)
  re (Cat [Chr "$"; Plus (Cls digitOrComma)]).
Definition dollarCommaRe : RegExp :=               (* /[$,]/g *)
  re (Cls (oneOf "$,")).
Definition guaranteedNextRe : RegExp :=            (* /^\s*GUARANTEED/i *)
  rei (Cat [Bol; Star space; Lit "GUARANTEED"]).
Definition commaBeforeRe : RegExp :=               (* /,\s*$/ *)
  re (Cat [Chr ","; Star space; Eol]).
Definition perRebuyRe : RegExp :=                  (* /^\s*(PER |REBUY|GUARANTEE)/i *)
  rei (Cat [Bol; Star space; Grp 1 (Words ["PER "; "REBUY"; "GUARANTEE"])]).
Definition chipsRe : RegExp :=                     (* /\b(\d+)K\b/i *)
  rei (Cat [WordB; Grp 1 (Plus digit); Chr "K"; WordB]).
(** [/\b(\d{1,2}(?:\s*,\s*\d{1,2})?)\s*$/] *)
Definition levelsRe : RegExp :=
  re (Cat [WordB;
           Grp 1 (Cat [Rep 1 2 digit;
                       Opt (Cat [Star space; Chr ","; Star space; Rep 1 2 digit])]);
           Star space; Eol]).
(** [/\s+\d+K\s+\d{1,2}(?:,\d{1,2})?\s*$/] *)
Definition chipsLevelsTailRe : RegExp :=
  re (Cat [Plus space; Plus digit; Chr "K"; Plus space; Rep 1 2 digit;
           Opt (Cat [Chr ","; Rep 1 2 digit]); Star space; Eol]).
Definition chipsTailRe : RegExp :=                 (* /\s+\d+K\s*$/ *)
  re (Cat [Plus space; Plus digit; Chr "K"; Star space; Eol]).
Definition edgeSpaceRe : RegExp :=                 (* /^[\s\t]+|[\s\t]+$/g *)
  re (Alt (Cat [Bol; Plus space]) (Cat [Plus space; Eol])).
Definition restartRe : RegExp := rei (Cat [WordB; Lit "RESTART"; WordB]).
Definition finalTableRe : RegExp := rei (Cat [WordB; Lit "FINAL TABLE"; WordB]).
Definition satelliteRe : RegExp := rei (Cat [WordB; Lit "SATELLITE"; WordB]).
Definition superSatRe : RegExp := rei (Cat [WordB; Lit "SUPER SAT"]).
Definition freerollRe : RegExp := rei (Cat [WordB; Lit "FREEROLL"; WordB]).
Definition inviteOnlyRe : RegExp :=                (* /\bINVITE\s*ONLY\b/i *)
  rei (Cat [WordB; Lit "INVITE"; Star space; Lit "ONLY"; WordB]).
Definition guaranteeRe : RegExp :=                 (* /\$([\d,]+)\s*GUARANTEED/i *)
  rei (Cat [Chr "$"; Grp 1 (Plus (Cls digitOrComma)); Star space; Lit "GUARANTEED"]).
Definition bountyRe : RegExp := rei (Cat [WordB; Lit "BOUNTY"; WordB]).
Definition freezeoutRe : RegExp := rei (Cat [WordB; Lit "FREEZEOUT"; WordB]).
Definition turboRe : RegExp := rei (Cat [WordB; Lit "TURBO"; WordB]).
Definition multiDayRe : RegExp :=                  (* /\((\d)-DAY EVENT\)/i *)
  rei (Cat [Chr "("; Grp 1 digit; Lit "-DAY EVENT)"]).
Definition singleReentryRe : RegExp := rei (Cat [WordB; Lit "SINGLE RE-ENTRY"; WordB]).
Definition satelliteTargetRe : RegExp :=           (* /EVENT\s+(\d+)\s+.*SATELLITE/i *)
  rei (Cat [Lit "EVENT"; Plus space; Grp 1 (Plus digit); Plus space; Star anyChar;
            Lit "SATELLITE"]).
Definition eventRefRe : RegExp :=                  (* /EVENT\s+(\d+)/i *)
  rei (Cat [Lit "EVENT"; Plus space; Grp 1 (Plus digit)]).
Definition mainEventRe : RegExp := rei (Lit "MAIN EVENT").

(** An element of [allDollars]. *)
Record Dollar : Type := mkDollar {
  value : jsnum;
  dIndex : nat;          (* index *)
  raw : string
}.

(** [rowLines.join(' ').replace(/\t+/g, ' ').replace(/\s+/g, ' ').trim()] *)
Definition joinedOf (rowLines : list string) : string :=
  trim (replaceAll spacesRe (replaceAll tabsRe (join " " rowLines) " ") " ").

Definition timeMatchOf (joined : string) : option result := exec timeRe joined.

(** [timeMatch.index + timeMatch[0].length], 0 without a time. *)
Definition timeEndIdxOf (timeMatch : option result) : nat :=
  match timeMatch with
  | Some m => lastIndex m
  | None => 0
  end.

Definition allDollarsOf (joined : string) : list Dollar :=
  map (fun dm =>
         let raw := matched joined dm in
         mkDollar (parseInt (replaceAll dollarCommaRe raw "")) (index dm) raw)
      (matchAll dollarRe joined).

(** The amounts pushed to [columnDollars]: not followed by "GUARANTEED",
    not preceded by a comma, and after the time. *)
Definition columnDollarsOf (joined : string) (timeEndIdx : nat) : list Dollar :=
  filter (fun d =>
            let stop := dIndex d + String.length (raw d) in
            let afterText := slice joined stop (stop + 15) in
            let beforeText := slice joined (dIndex d - 5) (dIndex d) in
            if test guaranteedNextRe afterText || test commaBeforeRe beforeText
            then false
            else timeEndIdx <? dIndex d)
         (allDollarsOf joined).

Definition filteredColumnDollarsOf (joined : string) (timeEndIdx : nat) : list Dollar :=
  filter (fun d =>
            let stop := dIndex d + String.length (raw d) in
            let after := slice joined stop (stop + 20) in
            negb (test perRebuyRe after))
         (columnDollarsOf joined timeEndIdx).

(** The event name once cleaned up (the variable [eventName] from its
    clean-up on). *)
Definition eventNameOf (joined : string) (timeMatch : option result)
    (filteredColumnDollars : list Dollar) : string :=
  let eventName :=
    match timeMatch, filteredColumnDollars with
    | Some m, d :: _ => trim (slice joined (lastIndex m) (dIndex d))
    | Some m, [] =>
        let raw := trim (sliceFrom joined (lastIndex m)) in
        let raw := trim (replaceFirst chipsLevelsTailRe raw "") in
        let raw := trim (replaceFirst chipsTailRe raw "") in
        raw
    | None, _ => ""
    end in
  let eventName := trim (replaceAll spacesRe (replaceAll tabRe eventName " ") " ") in
  replaceAll edgeSpaceRe eventName "".

Definition isRestartOf (eventName : string) : bool :=
  test restartRe eventName || test finalTableRe eventName.

Definition isSatelliteOf (eventName : string) : bool :=
  test satelliteRe eventName || test superSatRe eventName.

Definition isFreerollOf (eventName joined : string) : bool :=
  test freerollRe eventName || test inviteOnlyRe joined.

Definition notesOf (joined eventName : string) : list string :=
  List.concat
    [ match exec guaranteeRe joined with
      | Some m => ["$" ++ group joined m 1 ++ " Guaranteed"]
      | None => []
      end;
      if test bountyRe eventName then ["Bounty"] else [];
      if test freezeoutRe eventName then ["Freezeout"] else [];
      if test turboRe eventName then ["Turbo"] else [];
      match exec multiDayRe eventName with
      | Some m => [group eventName m 1 ++ "-Day Event"]
      | None => []
      end;
      if test singleReentryRe eventName then ["Single Re-Entry"] else [] ].

Definition targetEventOf (eventName : string) (isSatellite : bool) : option string :=
  if isSatellite then
    match exec satelliteTargetRe eventName with
    | Some m => Some (group eventName m 1)
    | None => if test mainEventRe eventName then Some "MAIN EVENT" else None
    end
  else None.

Definition parentEventOf (eventName : string) (isRestart : bool) : option string :=
  if isRestart then
    match exec eventRefRe eventName with
    | Some m => Some (group eventName m 1)
    | None => if test mainEventRe eventName then Some "MAIN EVENT" else None
    end
  else None.

(** [filteredColumnDollars[0] ? filteredColumnDollars[0].value : 0] *)
Definition totalEntryOf (filteredColumnDollars : list Dollar) : jsnum :=
  match nth_error filteredColumnDollars 0 with
  | Some d => value d
  | None => JNum 0
  end.

(** [filteredColumnDollars[i] ? filteredColumnDollars[i].value : null] *)
Definition columnValue (filteredColumnDollars : list Dollar) (i : nat) : option jsnum :=
  option_map value (nth_error filteredColumnDollars i).

Definition buyinOf (totalEntry : jsnum) (isRestart isFreeroll : bool) : jsnum :=
  let buyin := totalEntry in
  let buyin := if isRestart then JNum 0 else buyin in
  let buyin := if isFreeroll then JNum 0 else buyin in
  buyin.

(** [(rakeDollars, rakePercent)], computed when the total entry and the
    prize pool are positive numbers:
    [rakeDollars = totalEntry - prizePool] and
    [rakePercent = Math.round((rakeDollars / totalEntry) * 1000) / 10]. *)
Definition rakeOf (totalEntry : jsnum) (prizePool : option jsnum)
    : option (double * double) :=
  match prizePool with
  | Some prizePool =>
      if isPositive totalEntry && isPositive prizePool then
        let rakeDollars := Dsub (toDouble totalEntry) (toDouble prizePool) in
        Some (rakeDollars,
              Ddiv (toDouble (Math_round
                                (Dmul (Ddiv rakeDollars (toDouble totalEntry)) (Dbl 1000))))
                   (Dbl 10))
      else None
  | None => None
  end.

Definition quoteTailRe : RegExp :=                 (* a double quote, then $ *)
  re (Cat [Chr "034"; Eol]).
Definition guaranteeTextRe : RegExp :=             (* /\$[\d,]+\s*GUARANTEED\s*/gi *)
  rei (Cat [Chr "$"; Plus (Cls digitOrComma); Star space; Lit "GUARANTEED"; Star space]).
Definition inviteOnlyTextRe : RegExp :=            (* /\s*INVITE\s*ONLY\s*/gi *)
  rei (Cat [Star space; Lit "INVITE"; Star space; Lit "ONLY"; Star space]).

Definition cleanEventName (name : string) : string :=
  trim (replaceAll spacesRe
          (replaceAll inviteOnlyTextRe
             (replaceAll quoteTailRe
                (replaceAll guaranteeTextRe name "") "") "") " ").

(** The object returned by [parseRow]. *)
Module Tournament.
Record t : Type := mk {
  eventNumber : string;
  eventName : string;
  date : string;
  time : string;
  buyin : jsnum;
  prizePool : option jsnum;
  houseFee : option jsnum;
  optAddOn : option jsnum;
  rakePct : option double;
  rakeDollars : option double;
  startingChips : option double;
  levelDuration : string;
  reentry : option string;
  lateReg : option string;
  gameVariant : string;
  venue : string;
  notes : option string;
  isSatellite : bool;
  isRestart : bool;
  targetEvent : option string;
  parentEvent : option string
}.
End Tournament.

(** The locals of [parseRow] the statements below speak about, as
    functions of the row. *)
Definition rowJoined (rowLines : list string) : string := joinedOf rowLines.
Definition rowColumnDollars (rowLines : list string) : list Dollar :=
  let joined := rowJoined rowLines in
  filteredColumnDollarsOf joined (timeEndIdxOf (timeMatchOf joined)).
Definition rowEventName (rowLines : list string) : string :=
  let joined := rowJoined rowLines in
  eventNameOf joined (timeMatchOf joined) (rowColumnDollars rowLines).
Definition rowTotalEntry (rowLines : list string) : jsnum :=
  totalEntryOf (rowColumnDollars rowLines).
Definition rowIsFreeroll (rowLines : list string) : bool :=
  isFreerollOf (rowEventName rowLines) (rowJoined rowLines).

Definition parseRow (rowLines : list string) (year : Z) (venue : string)
    : completion (option Tournament.t) :=
  let joined := rowJoined rowLines in
  match rowLines with
  | [] => Throws
  | line0 :: _ =>
      let firstLine := replaceAll tabsRe line0 " " in
      let eventNumber :=
        match exec eventNumberRe firstLine with
        | Some m => group firstLine m 1
        | None => ""
        end in
      match exec dateRe joined with
      | None => Returns None
      | Some dateMatch =>
          let monthAbbr := toUpperCase (group joined dateMatch 2) in
          let day := digitsValue 0 (group joined dateMatch 3) in
          let fullMonth := lookupOr MONTH_FULL monthAbbr in
          let dateStr := fullMonth ++ " " ++ toString day ++ ", " ++ toString year in
          let timeMatch := timeMatchOf joined in
          let time :=
            match timeMatch with
            | Some m => toUpperCase (replaceAll spacesRe (group joined m 1) "")
            | None => "TBD"
            end in
          let filteredColumnDollars := rowColumnDollars rowLines in
          let totalEntry := rowTotalEntry rowLines in
          let prizePool := columnValue filteredColumnDollars 1 in
          let houseFee := columnValue filteredColumnDollars 2 in
          let optAddOn := columnValue filteredColumnDollars 3 in
          let startingChips :=
            match exec chipsRe joined with
            | Some m => Some (Dmul (toDouble (parseInt (group joined m 1))) (Dbl 1000))
            | None => None
            end in
          let levelDuration :=
            match exec levelsRe joined with
            | Some m => replaceAll spaceRe (group joined m 1) ""
            | None => ""
            end in
          let eventName := rowEventName rowLines in
          let isRestart := isRestartOf eventName in
          let isSatellite := isSatelliteOf eventName in
          let isFreeroll := rowIsFreeroll rowLines in
          let notes := notesOf joined eventName in
          let targetEvent := targetEventOf eventName isSatellite in
          let parentEvent := parentEventOf eventName isRestart in
          let buyin := buyinOf totalEntry isRestart isFreeroll in
          let rake := rakeOf totalEntry prizePool in
          let gameVariant := classifyGameVariant eventName in
          Returns (Some (Tournament.mk
            eventNumber
            (cleanEventName eventName)
            dateStr
            time
            buyin
            prizePool
            houseFee
            optAddOn
            (option_map snd rake)
            (option_map fst rake)
            startingChips
            levelDuration
            None
            None
            gameVariant
            venue
            (match notes with [] => None | _ => Some (join ", " notes) end)
            isSatellite
            isRestart
            targetEvent
            parentEvent))
      end
  end.

(** *** Linking restarts to their parents *)

Definition flightLetterRe : RegExp :=              (* /[A-G]$/i *)
  rei (Cat [range "A" "G"; Eol]).

Definition setParentEvent (t : Tournament.t) (p : option string) : Tournament.t :=
  Tournament.mk (Tournament.eventNumber t) (Tournament.eventName t)
    (Tournament.date t) (Tournament.time t) (Tournament.buyin t)
    (Tournament.prizePool t) (Tournament.houseFee t) (Tournament.optAddOn t)
    (Tournament.rakePct t) (Tournament.rakeDollars t) (Tournament.startingChips t)
    (Tournament.levelDuration t) (Tournament.reentry t) (Tournament.lateReg t)
    (Tournament.gameVariant t) (Tournament.venue t) (Tournament.notes t)
    (Tournament.isSatellite t) (Tournament.isRestart t) (Tournament.targetEvent t) p.

(** The keys of [eventMap] in the order they were created: the base
    number of every numbered record that is no restart, once. *)
Definition eventMapKeys (tournaments : list Tournament.t) : list string :=
  fold_left
    (fun keys t =>
       if truthy (Tournament.eventNumber t) && negb (Tournament.isRestart t) then
         let base := replaceFirst flightLetterRe (Tournament.eventNumber t) "" in
         if existsb (String.eqb base) keys then keys else push keys base
       else keys)
    tournaments [].

Fixpoint allDigits (s : string) : bool :=
  match s with
  | "" => true
  | String c s' => isDigit c && allDigits s'
  end.

(** A key that is an array index: a canonical decimal below 2^32 - 1. *)
Definition isArrayIndex (k : string) : bool :=
  match k with
  | "" => false
  | String c rest =>
      allDigits k
      && (negb (Ascii.eqb c "0") || negb (truthy rest))
      && (digitsValue 0 k <? 4294967295)%Z
  end.

(** [Object.entries] lists the array-index keys first, in ascending
    numeric order, then the other keys in creation order. *)
Definition entriesOrder (keys : list string) : list string :=
  (map toString (sortNumbers (map (digitsValue 0) (filter isArrayIndex keys)))
   ++ filter (fun k => negb (isArrayIndex k)) keys)%list.

Definition falsy (o : option string) : bool :=
  match o with
  | Some s => negb (truthy s)
  | None => true
  end.

(** The second loop of [linkRestartsToParents], for one record. *)
Definition linkRestart (entries : list string) (t : Tournament.t) : Tournament.t :=
  if Tournament.isRestart t && falsy (Tournament.parentEvent t) then
    match find (fun num =>
                  includes (Tournament.eventName t) ("EVENT " ++ num ++ " ")
                  || includes (Tournament.eventName t) ("EVENT " ++ num ++ String "009" ""))
               entries with
    | Some num => setParentEvent t (Some num)
    | None => t
    end
  else t.

(** The array after [linkRestartsToParents(tournaments)] has updated it in
    place. *)
Definition linkRestartsToParents (tournaments : list Tournament.t) : list Tournament.t :=
  map (linkRestart (entriesOrder (eventMapKeys tournaments))) tournaments.

(** *** The parser *)

Module Options.
Record t : Type := mk { venue : option string }.
End Options.

(** The body of the loop over the lines of a page: [pageHeaderDone] and
    [dataLines] after [rawLine]. *)
Definition scanDataLine (year : Z) (st : bool * list string) (rawLine : string)
    : bool * list string :=
  let '(pageHeaderDone, dataLines) := st in
  let line := trim rawLine in
  if negb (truthy line) then st
  else if test FOOTER_RE line then st
  else if isColumnHeaderLine line then (true, dataLines)
  else if negb pageHeaderDone then
    if isMetadataLine line year then st
    else if test ROW_START_RE line then (true, push dataLines line)
    else st
  else (pageHeaderDone, push dataLines line).

Definition collectDataLines (year : Z) (pages : list string) : list string :=
  fold_left
    (fun dataLines page =>
       snd (fold_left (scanDataLine year) (splitChar "010" page) (false, dataLines)))
    pages [].

(** The loop over the rows: the records pushed, unless a row throws. *)
Fixpoint parseRows (rows : list (list string)) (year : Z) (venue : string)
    : completion (list Tournament.t) :=
  match rows with
  | [] => Returns []
  | row :: rows' =>
      match parseRow row year venue with
      | Throws => Throws
      | Returns parsed =>
          match parseRows rows' year venue with
          | Throws => Throws
          | Returns ts =>
              Returns (match parsed with Some t => t :: ts | None => ts end)
          end
      end
  end.

(** [currentYear] is the calendar year at the time of the call.  The
    series name is detected and never used. *)
Definition parseGenericSchedule (currentYear : Z) (text : string) (options : Options.t)
    : completion (list Tournament.t) :=
  let pages := splitPages text in
  let allText := join (String "010" "") pages in
  let year := detectYear currentYear allText in
  let venue :=
    match Options.venue options with
    | Some v => if truthy v then v else detectVenue allText
    | None => detectVenue allText
    end in
  let seriesName := detectSeriesName allText in
  let dataLines := collectDataLines year pages in
  let rows := groupIntoRows dataLines in
  match parseRows rows year venue with
  | Throws => Throws
  | Returns tournaments => Returns (linkRestartsToParents tournaments)
  end.

(** *** Format detection *)

Inductive Format : Type := wsop | generic.

Definition detectFormat (pdfText : string) : Format :=
  if includes pdfText "EV#" && includes pdfText "LVL"
     && (includes pdfText "RE-ENTRY" || includes pdfText "LATE") then wsop
  else if test ROW_START_RE pdfText then generic
  else generic.

End GenericParser.

(* ================================================================== *)
(** ** Vocabulary of the statements *)

Module Statements.
Import JS Re.

(** *** Rake engine *)

Definition allTiers : list WsopParser.Tier :=
  (map snd WsopParser.WSOP_RAKE_OVERRIDES ++ map snd WsopParser.WSOP_RAKE_BY_BUYIN)%list.

(** No field is [null]. *)
Definition rakeAllPresent (r : WsopParser.Rake.t) : Prop :=
  WsopParser.Rake.prizePool r <> None /\ WsopParser.Rake.houseFee r <> None
  /\ WsopParser.Rake.optAddOn r <> None /\ WsopParser.Rake.rakePct r <> None
  /\ WsopParser.Rake.rakeDollars r <> None.

(** *** Columnar pipeline *)

(** An event-number token of a page: a line that matches the
    event-number pattern. *)
Definition eventNumberToken (lines : list string) (n : string) : Prop :=
  test WsopParser.eventNumberRe n = true /\ In n lines.


Definition samplePage : string :=
  "EVENT NAME DATE
May 27
May 28
TIME
10 AM
12:30 pm
BUY-IN
$1,000
-
$500
STARTING
CHIPS
25,000
20,000
LVL
40
30
RE-ENTRY
1
Unlimited
LATE
REG.
8 levels
10 levels
Mystery Millions
SALUTE to Warriors
EV#
1
59
1/10".

(** A page without the EV# header. *)
Definition pageWithoutEvents : string :=
  "WSOP 2026
Daily deepstacks, see the cage for times".

(** *** Row pipeline *)

Import GenericParser.

(** The linker changes nothing but [parentEvent]. *)
Definition sameButParent (t t0 : Tournament.t) : Prop :=
  t = t0 \/ exists p, t = setParentEvent t0 p.

(** A record of the output comes from a row of the text. *)
Definition parsedFrom (rowLines : list string) (t : Tournament.t) : Prop :=
  exists year venue t0,
    parseRow rowLines year venue = Returns (Some t0) /\ sameButParent t t0.

(** The text the year is looked up in: the first 500 characters of the
    pages joined by newlines. *)
Definition headerOf (text : string) : string :=
  slice (join (String "010" "") (WsopParser.splitPages text)) 0 500.



Definition mainEventRestartRow : list string :=
  ["7 SUN JAN 18 12PM NLH MAIN EVENT DAY 2 RESTART $1,100 $960 $100 $40 30K 40"].

Definition noOptions : Options.t := Options.mk None.

End Statements.

(* ================================================================== *)
(** ** server.js: the upload handler *)

(** From the text of the PDF and the venue field of the form to the
    INSERT statements and the answer of the handler. *)
Module Server.
Import JS GenericParser.

(** [s || d] on strings *)
Definition orString (s d : string) : string := if truthy s then s else d.

(** [s || null] on a string *)
Definition stringOrNull (s : string) : option string :=
  if truthy s then Some s else None.

(** [s || null] on a string that may be [null] or [undefined] *)
Definition textOrNull (o : option string) : option string :=
  match o with
  | Some s => stringOrNull s
  | None => None
  end.

(** [x || null] on a number that may be [null]: 0 and [NaN] are falsy. *)
Definition doubleOrNull (o : option double) : option double :=
  match o with
  | Some x => if falsyDouble x then None else Some x
  | None => None
  end.

(** [n || null] on a whole number that may be [null] *)
Definition numOrNull (o : option jsnum) : option double :=
  doubleOrNull (option_map toDouble o).

(** [x || null] on a number that may be [null] or [undefined] *)
Definition valueOrNull (o : option jsvalue) : option double :=
  match o with
  | Some (Num x) => doubleOrNull (Some x)
  | _ => None
  end.

(** [b ? 1 : 0] *)
Definition flag (b : bool) : Z := if b then 1%Z else 0%Z.

(** The parameters of one INSERT, without the user id and the file name. *)
Module Insert.
Record t : Type := mk {
  event_number : string;
  event_name : string;
  date : string;
  time : string;
  buyin : jsnum;
  starting_chips : option double;
  level_duration : option string;
  reentry : option string;
  late_reg : option string;
  game_variant : string;
  venue : string;
  notes : option string;
  is_satellite : Z;
  target_event : option string;
  is_restart : Z;
  parent_event : option string;
  prize_pool : option double;
  house_fee : option double;
  opt_add_on : option double;
  rake_pct : option double;
  rake_dollars : option double
}.
End Insert.

(** The parameter array for a record of the row pipeline. *)
Definition insertOfRow (tournament : Tournament.t) : Insert.t :=
  Insert.mk
    (orString (Tournament.eventNumber tournament) "")
    (orString (Tournament.eventName tournament) "Unknown Event")
    (Tournament.date tournament)
    (orString (Tournament.time tournament) "12:00PM")
    (Tournament.buyin tournament)
    (doubleOrNull (Tournament.startingChips tournament))
    (stringOrNull (Tournament.levelDuration tournament))
    (textOrNull (Tournament.reentry tournament))
    (textOrNull (Tournament.lateReg tournament))
    (Tournament.gameVariant tournament)
    (orString (Tournament.venue tournament) "Horseshoe / Paris Las Vegas")
    (textOrNull (Tournament.notes tournament))
    (flag (Tournament.isSatellite tournament))
    (textOrNull (Tournament.targetEvent tournament))
    (flag (Tournament.isRestart tournament))
    (textOrNull (Tournament.parentEvent tournament))
    (numOrNull (Tournament.prizePool tournament))
    (numOrNull (Tournament.houseFee tournament))
    (numOrNull (Tournament.optAddOn tournament))
    (doubleOrNull (Tournament.rakePct tournament))
    (doubleOrNull (Tournament.rakeDollars tournament)).

(** The parameter array for a record of the columnar pipeline, which has
    no [notes], [isSatellite], [targetEvent], [isRestart] and [parentEvent]
    (they read as [undefined]). *)
Definition insertOfEvent (tournament : WsopParser.Tournament.t) : Insert.t :=
  Insert.mk
    (orString (WsopParser.Tournament.eventNumber tournament) "")
    (orString (WsopParser.Tournament.eventName tournament) "Unknown Event")
    (WsopParser.Tournament.date tournament)
    (orString (WsopParser.Tournament.time tournament) "12:00PM")
    (WsopParser.Tournament.buyin tournament)
    (numOrNull (WsopParser.Tournament.startingChips tournament))
    (stringOrNull (WsopParser.Tournament.levelDuration tournament))
    (stringOrNull (WsopParser.Tournament.reentry tournament))
    (stringOrNull (WsopParser.Tournament.lateReg tournament))
    (WsopParser.Tournament.gameVariant tournament)
    (orString (WsopParser.Tournament.venue tournament) "Horseshoe / Paris Las Vegas")
    None
    (flag false)
    None
    (flag false)
    None
    (doubleOrNull (WsopParser.Tournament.prizePool tournament))
    (numOrNull (WsopParser.Tournament.houseFee tournament))
    (numOrNull (WsopParser.Tournament.optAddOn tournament))
    (valueOrNull (WsopParser.Tournament.rakePct tournament))
    (numOrNull (WsopParser.Tournament.rakeDollars tournament)).

(** [req.body && req.body.venue ? req.body.venue : null] *)
Definition userVenueOf (bodyVenue : option string) : option string :=
  match bodyVenue with
  | Some v => if truthy v then Some v else None
  | None => None
  end.

(** [db.run] of the INSERT.  The table declares [event_name], [date],
    [time], [buyin], [game_variant] and [venue] NOT NULL.  The five text
    parameters are always strings.  A number that is [NaN] is bound as
    NULL (sql.js binds it as a double, and SQLite stores a NaN as NULL),
    so the statement fails, and [db.run] throws, exactly when the buy-in
    is [NaN]. *)
Definition violatesNotNull (row : Insert.t) : bool :=
  match Insert.buyin row with
  | JNaN => true
  | _ => false
  end.

(** How the handler answers: the success message with the format and the
    number of records, or status 500 from its [catch]. *)
Inductive Response : Type :=
| Uploaded (format : Format) (tournamentsCount : nat)
| ServerError.

(** What an upload does: the INSERTs it runs, in order, and its answer.
    When an INSERT fails it is the last one run, and it stores nothing;
    the rows stored before it stay in the database. *)
Module Outcome.
Record t : Type := mk {
  inserts : list Insert.t;
  response : Response
}.
End Outcome.

(** The loop over the records: the INSERTs run, and whether all of them
    succeeded. *)
Fixpoint runInserts (rows : list Insert.t) : list Insert.t * bool :=
  match rows with
  | [] => ([], true)
  | row :: rows' =>
      if violatesNotNull row then ([row], false)
      else let '(done, ok) := runInserts rows' in (row :: done, ok)
  end.

Definition insertAll (format : Format) (rows : list Insert.t) : Outcome.t :=
  let '(done, ok) := runInserts rows in
  Outcome.mk done (if ok then Uploaded format (List.length rows) else ServerError).

(** The upload of a PDF with text [pdfText], in calendar year
    [currentYear], with form field [bodyVenue].  Reading the file,
    extracting its text and writing the database to disk are left out. *)
Definition uploadSchedule (currentYear : Z) (pdfText : string) (bodyVenue : option string)
    : Outcome.t :=
  let format := detectFormat pdfText in
  let userVenue := userVenueOf bodyVenue in
  match format with
  | wsop =>
      insertAll format (map insertOfEvent (WsopParser.parseWSOP2025Schedule pdfText 2026))
  | generic =>
      match parseGenericSchedule currentYear pdfText (Options.mk userVenue) with
      | Throws => Outcome.mk [] ServerError
      | Returns tournaments => insertAll format (map insertOfRow tournaments)
      end
  end.
End Server.

(* ================================================================== *)
(** ** Vocabulary of the further properties *)

Module NumberVocabulary.
(** The unit roundoff of binary64, 2^-53: the relative error of one
    rounding is at most this. *)
Definition unitRoundoff : Q := 1 # 9007199254740992.
End NumberVocabulary.

Module RakeVocabulary.
Import JS Re WsopParser Statements NumberVocabulary.

(** The number a percentage literal denotes, as a rational. *)
Definition pctValue (pct : Q) : Q :=
  match literal pct with
  | Dbl x => x
  | _ => 0
  end.

Definition isFinite (x : double) : bool :=
  match x with
  | Dbl _ => true
  | _ => false
  end.

(** What the proofs use of the three percentages of a tier, as the
    numbers their literals denote: they are finite; dealer/staff is at
    least a half, the entry fee is above it and the total above the entry
    fee, each by more than six roundings can bridge; the total is at most
    20; and the two sub-fees add up to the total within 10^-14. *)
Definition orderedTier (t : Tier) : bool :=
  let d := pctValue (dealerStaffPct t) in
  let e := pctValue (entryFeePct t) in
  let T := pctValue (totalPct t) in
  let k := (3 * unitRoundoff)%Q in
  isFinite (literal (dealerStaffPct t)) && isFinite (literal (entryFeePct t))
  && isFinite (literal (totalPct t))
  && Qle_bool (1 # 2) (d * (1 - k)) && Qle_bool (d * (1 + k)) (e * (1 - k))
  && Qle_bool (e * (1 + k)) (T * (1 - k)) && Qle_bool (T * (1 + k)) 20
  && Qle_bool (e + d - T) (1 # 100000000000000)
  && Qle_bool (T - e - d) (1 # 100000000000000).

(** The buy-ins the arithmetic facts are stated for: up to 10^15. *)
Definition maxBuyin : Z := 1000000000000000.

(** The event number names a member the override table inherits. *)
Definition inheritedName (eventNumber : option string) : bool :=
  match overrideFor eventNumber with
  | Some Inherited => true
  | _ => false
  end.
End RakeVocabulary.

Module ColumnarVocabulary.
Import JS Re WsopParser Statements.

(** [l1] is [l2] with some elements left out, order kept. *)
Inductive subsequence {A : Type} : list A -> list A -> Prop :=
| subseq_nil : forall l, subsequence [] l
| subseq_keep : forall x l1 l2, subsequence l1 l2 -> subsequence (x :: l1) (x :: l2)
| subseq_skip : forall x l1 l2, subsequence l1 l2 -> subsequence l1 (x :: l2).

(** The buy-in column without its [null] entries. *)
Fixpoint nonNullBuyins (buyins : list (option jsnum)) : list jsnum :=
  match buyins with
  | [] => []
  | None :: bs => nonNullBuyins bs
  | Some b :: bs => b :: nonNullBuyins bs
  end.

(** The record [parsePage] pushes for event [i] priced by row [rowIdx]. *)
Definition recordOf (sections : Sections) (year : Z) (i rowIdx : nat) (buyin : jsnum)
    : Tournament.t :=
  let eventNum := nth i (eventNumbers sections) "" in
  let eventName := orEmpty (nth_error (eventNames sections) i) in
  let rake := getWSOPRake (toDouble buyin) (Some eventNum) in
  Tournament.mk eventNum eventName
    (match nth_error (dates sections) rowIdx with
     | Some d => if truthy d then d ++ ", " ++ toString year else ""
     | None => ""
     end)
    (match nth_error (times sections) rowIdx with
     | Some t => if truthy t then t else "TBD"
     | None => "TBD"
     end)
    buyin (Rake.prizePool rake) (Rake.houseFee rake) (Rake.optAddOn rake)
    (Rake.rakePct rake) (Rake.rakeDollars rake)
    (chipsOrNull (nth_error (chips sections) i))
    (orEmpty (nth_error (durations sections) i))
    (orEmpty (nth_error (reentries sections) i))
    (orEmpty (nth_error (lateRegs sections) i))
    (classifyGameVariant eventName) "WSOP Las Vegas".
End ColumnarVocabulary.

Module RowVocabulary.
Import JS Re GenericParser Statements.

(** [l] without its longest prefix of elements that satisfy [p]. *)
Fixpoint dropWhile {A : Type} (p : A -> bool) (l : list A) : list A :=
  match l with
  | [] => []
  | x :: l' => if p x then dropWhile p l' else l
  end.

Definition startsRow (line : string) : bool := test ROW_START_RE line.

(** A row: a line that starts a row, then lines that do not. *)
Definition wellFormedRow (row : list string) : Prop :=
  exists line rest,
    row = line :: rest /\ startsRow line = true
    /\ Forall (fun l => startsRow l = false) rest.

(** What holds of a line that reaches the rows: it is a trimmed line of a
    page, not blank, no footer and no column header. *)
Definition dataLine (pages : list string) (line : string) : Prop :=
  line <> ""
  /\ test FOOTER_RE line = false
  /\ isColumnHeaderLine line = false
  /\ exists page rawLine,
       In page pages /\ In rawLine (splitChar "010" page) /\ line = trim rawLine.

(** The venue [parseGenericSchedule] gives to [parseRow]. *)
Definition venueOf (text : string) (options : Options.t) : string :=
  let allText := join (String "010" "") (WsopParser.splitPages text) in
  match Options.venue options with
  | Some v => if truthy v then v else detectVenue allText
  | None => detectVenue allText
  end.
End RowVocabulary.

Module LinkerVocabulary.
Import JS Re GenericParser Statements.

(** The test of the inner loop of [linkRestartsToParents]. *)
Definition namesEvent (eventName num : string) : bool :=
  includes eventName ("EVENT " ++ num ++ " ")
  || includes eventName ("EVENT " ++ num ++ String "009" "").

(** [num] is a key of [eventMap]: the base number of a numbered record of
    [tournaments] that is no restart. *)
Definition baseNumberIn (tournaments : list Tournament.t) (num : string) : Prop :=
  exists parent,
    In parent tournaments
    /\ Tournament.eventNumber parent <> ""
    /\ Tournament.isRestart parent = false
    /\ num = replaceFirst flightLetterRe (Tournament.eventNumber parent) "".

(** Two rows: a numbered event, and its restart whose name gives the number
    after a guarantee. *)
Definition restartRows : list (list string) :=
  [ ["12 MON JAN 5 10AM NLH OPENER $100 $90"];
    ["TUES JAN 6 10AM EVENT $5 GUARANTEED 12 DAY 2 RESTART"] ].
End LinkerVocabulary.

Module UploadVocabulary.
Import JS WsopParser.

(** A numeric column is NULL or a number that is not falsy. *)
Definition storedNumber (o : option double) : Prop :=
  forall x, o = Some x -> falsyDouble x = false.

(** A numeric or text column of an INSERT never holds a falsy value. *)
Definition noFalsyColumn (row : Server.Insert.t) : Prop :=
  storedNumber (Server.Insert.starting_chips row)
  /\ storedNumber (Server.Insert.prize_pool row)
  /\ storedNumber (Server.Insert.house_fee row)
  /\ storedNumber (Server.Insert.opt_add_on row)
  /\ storedNumber (Server.Insert.rake_pct row)
  /\ storedNumber (Server.Insert.rake_dollars row)
  /\ Server.Insert.level_duration row <> Some ""
  /\ Server.Insert.notes row <> Some ""
  /\ Server.Insert.target_event row <> Some ""
  /\ Server.Insert.parent_event row <> Some "".

(** The rows the INSERTs of an upload store: all that were run, but the
    last one when the handler answered with an error. *)
Definition storedRows (o : Server.Outcome.t) : list Server.Insert.t :=
  match Server.Outcome.response o with
  | Server.Uploaded _ _ => Server.Outcome.inserts o
  | Server.ServerError => removelast (Server.Outcome.inserts o)
  end.

(** A row whose first amount has no digit: its total entry is [NaN]. *)
Definition blankAmountText : string :=
  "3 FRI MAR 6 6PM PLO $, $90 $0".

(** Two rows whose rake is too small to show in the percentage. *)
Definition thinRakeText : string :=
  "WYNN 2026
MON JAN 5 10AM NLH $10000 $9999".
End UploadVocabulary.

Module MatchVocabulary.
Import JS Re.

(** What a match of a pattern from one position to a later one is, read
    off the pattern alone. *)
Inductive Matches (ci : bool) : regex -> mstate -> mstate -> Prop :=
| M_Eps : forall st, Matches ci Eps st st
| M_Chr : forall c x s' st,
    m_rest st = String x s' -> eqChar ci c x = true ->
    Matches ci (Chr c) st (advance st x s')
| M_Cls : forall p x s' st,
    m_rest st = String x s' -> inClass ci p x = true ->
    Matches ci (Cls p) st (advance st x s')
| M_Seq : forall r1 r2 st st1 st2,
    Matches ci r1 st st1 -> Matches ci r2 st1 st2 -> Matches ci (Seq r1 r2) st st2
| M_AltL : forall r1 r2 st st', Matches ci r1 st st' -> Matches ci (Alt r1 r2) st st'
| M_AltR : forall r1 r2 st st', Matches ci r2 st st' -> Matches ci (Alt r1 r2) st st'
| M_StarNil : forall r st, Matches ci (Star r) st st
| M_StarCons : forall r st st1 st2,
    Matches ci r st st1 -> Matches ci (Star r) st1 st2 -> Matches ci (Star r) st st2
| M_Grp : forall n r st st1,
    Matches ci r st st1 -> Matches ci (Grp n r) st (capture n (m_pos st) st1)
| M_Bol : forall st, m_pos st = 0 -> Matches ci Bol st st
| M_Eol : forall st, m_rest st = "" -> Matches ci Eol st st
| M_WordB : forall st,
    xorb (isWordOpt (m_prev st)) (isWordOpt (nextChar (m_rest st))) = true ->
    Matches ci WordB st st.

(** The position [st] lies in the subject [s]. *)
Definition within (s : string) (st : mstate) : Prop :=
  m_rest st = sliceFrom s (m_pos st).

Fixpoint hasGroup (r : regex) : bool :=
  match r with
  | Seq r1 r2 | Alt r1 r2 => hasGroup r1 || hasGroup r2
  | Star r' => hasGroup r'
  | Grp _ _ => true
  | _ => false
  end.
End MatchVocabulary.

Module ShapeVocabulary.
Import JS Re.
(** One to three digits, then at most one character accepted by
    [flight]. *)
Definition eventNumberShape (flight : ascii -> bool) (e : string) : Prop :=
  exists digits letter,
    e = digits ++ letter
    /\ GenericParser.allDigits digits = true
    /\ 1 <= String.length digits <= 3
    /\ (letter = "" \/ exists c, letter = String c "" /\ flight c = true).

(** A flight letter of the row format: A..G in either case. *)
Definition flightLetter (c : ascii) : bool := inRange "A" "G" (toUpper c).
End ShapeVocabulary.

Module ColumnVocabulary.
Import JS Re WsopParser.

(** What the entries of the columns of [findSections] are, for a page with
    the lines [lines]. *)
Definition dateEntry (lines : list string) (d : string) : Prop :=
  In d lines /\ test dateLineRe d = true.
Definition timeEntry (lines : list string) (t : string) : Prop :=
  exists line,
    In line lines /\ (test timeLineRe line = true \/ line = "TBD")
    /\ t = toUpperCase (replaceAll spacesRe line "").
Definition durationEntry (lines : list string) (d : string) : Prop :=
  d = "" \/ (In d lines /\ test durationLineRe d = true).
Definition lateRegEntry (lines : list string) (x : string) : Prop :=
  In x lines /\ (test levelsLineRe x = true \/ test firstRe x = true).

Definition columnsOf (lines : list string) (r : Sections) : Prop :=
  Forall (dateEntry lines) (dates r)
  /\ Forall (timeEntry lines) (times r)
  /\ Forall (durationEntry lines) (durations r)
  /\ Forall (fun x => In x lines) (reentries r)
  /\ Forall (lateRegEntry lines) (lateRegs r).

(** A buy-in that gives a record: a number that is at least 100. *)
Definition countedBuyin (b : jsnum) : bool :=
  match b with
  | JNum z => negb ((z =? 0)%Z || (z <? 100)%Z)
  | JPosInf => true
  | JNaN | JNegInf => false
  end.
End ColumnVocabulary.

Module CountVocabulary.
Import JS Re GenericParser.
(** The joined text of the row holds a day, a month and a day number. *)
Definition rowHasDate (rowLines : list string) : bool := test dateRe (rowJoined rowLines).
End CountVocabulary.

(* ================================================================== *)
(** ** The matcher never runs out of fuel *)

Section Matcher.
Import JS Re.

Lemma follows_refl st : follows st st.
Proof. split; lia. Qed.

Lemma follows_trans st1 st2 st3 : follows st1 st2 -> follows st2 st3 -> follows st1 st3.
Proof. unfold follows. lia. Qed.

Lemma follows_advance st c s' : m_rest st = String c s' -> follows st (advance st c s').
Proof. unfold follows. intros ->. simpl. lia. Qed.

Lemma starLoop_ext body k1 k2 fuel :
  (forall j1 j2 st, (forall st', follows st st' -> j1 st' = j2 st') -> body j1 st = body j2 st) ->
  forall st, (forall st', follows st st' -> k1 st' = k2 st') ->
  starLoop body k1 fuel st = starLoop body k2 fuel st.
Proof.
  intros Hbody. induction fuel as [|fuel IH]; simpl; intros st Hk.
  - apply Hk, follows_refl.
  - rewrite (Hbody _ (fun st' => if m_pos st' =? m_pos st then None
                                else starLoop body k2 fuel st') st).
    + rewrite (Hk st (follows_refl st)). reflexivity.
    + intros st' Hst'. destruct (m_pos st' =? m_pos st); [reflexivity|].
      apply IH. intros st'' Hst''. apply Hk. eapply follows_trans; eauto.
Qed.

(** The matcher consults its continuation at later positions of the same
    subject only. *)
Lemma rmatch_ext ci r :
  forall k1 k2 st, (forall st', follows st st' -> k1 st' = k2 st') ->
  rmatch ci r k1 st = rmatch ci r k2 st.
Proof.
  induction r as [|c|p|r1 IH1 r2 IH2|r1 IH1 r2 IH2|r IH|n r IH| | |];
    simpl; intros k1 k2 st Hk; try (rewrite (Hk st (follows_refl st)); reflexivity).
  - destruct (m_rest st) as [|x s'] eqn:E; [reflexivity|].
    destruct (eqChar ci c x); [|reflexivity]. apply Hk. now apply follows_advance.
  - destruct (m_rest st) as [|x s'] eqn:E; [reflexivity|].
    destruct (inClass ci p x); [|reflexivity]. apply Hk. now apply follows_advance.
  - apply IH1. intros st' Hst'. apply IH2. intros st'' Hst''.
    apply Hk. eapply follows_trans; eauto.
  - rewrite (IH1 k1 k2 st Hk), (IH2 k1 k2 st Hk). reflexivity.
  - apply (starLoop_ext (rmatch ci r) k1 k2 (S (String.length (m_rest st)))); assumption.
  - apply IH. intros st' Hst'. apply Hk. exact Hst'.
Qed.

(** Fuel beyond the number of characters left changes nothing: the bound
    the matcher passes to [starLoop] is never reached. *)
Lemma starLoop_fuel ci r k :
  forall fuel1 fuel2 st,
    String.length (m_rest st) < fuel1 -> String.length (m_rest st) < fuel2 ->
    starLoop (rmatch ci r) k fuel1 st = starLoop (rmatch ci r) k fuel2 st.
Proof.
  induction fuel1 as [|fuel1 IH]; intros fuel2 st H1 H2; [lia|].
  destruct fuel2 as [|fuel2]; [lia|]. simpl.
  rewrite (rmatch_ext ci r _ (fun st' => if m_pos st' =? m_pos st then None
                                         else starLoop (rmatch ci r) k fuel2 st') st).
  - reflexivity.
  - intros st' [Hle Hsum]. destruct (Nat.eqb_spec (m_pos st') (m_pos st)); [reflexivity|].
    apply IH; lia.
Qed.

Lemma follows_capture n start st : follows st (capture n start st).
Proof. split; simpl; lia. Qed.

Lemma starLoop_result body k fuel :
  (forall j st res, body j st = Some res ->
     exists st', follows st st' /\ j st' = Some res) ->
  forall st res, starLoop body k fuel st = Some res ->
    exists st', follows st st' /\ k st' = Some res.
Proof.
  intros Hbody. induction fuel as [|fuel IH]; simpl; intros st res H.
  - exists st. split; [apply follows_refl | assumption].
  - destruct (body _ st) as [m|] eqn:E.
    + injection H as ->. apply Hbody in E. destruct E as (st1 & Hf1 & E).
      destruct (m_pos st1 =? m_pos st); [discriminate|].
      apply IH in E. destruct E as (st2 & Hf2 & E).
      exists st2. split; [eapply follows_trans; eauto | assumption].
    + exists st. split; [apply follows_refl | assumption].
Qed.

(** A successful match ends by handing a later position of the same
    subject to the continuation. *)
Lemma rmatch_result ci r :
  forall k st res, rmatch ci r k st = Some res ->
    exists st', follows st st' /\ k st' = Some res.
Proof.
  induction r as [|c|p|r1 IH1 r2 IH2|r1 IH1 r2 IH2|r IH|n r IH| | |];
    simpl; intros k st res H.
  - exists st. split; [apply follows_refl | assumption].
  - destruct (m_rest st) as [|x s'] eqn:E; [discriminate|].
    destruct (eqChar ci c x); [|discriminate].
    exists (advance st x s'). split; [now apply follows_advance | assumption].
  - destruct (m_rest st) as [|x s'] eqn:E; [discriminate|].
    destruct (inClass ci p x); [|discriminate].
    exists (advance st x s'). split; [now apply follows_advance | assumption].
  - apply IH1 in H. destruct H as (st1 & Hf1 & H).
    apply IH2 in H. destruct H as (st2 & Hf2 & H).
    exists st2. split; [eapply follows_trans; eauto | assumption].
  - destruct (rmatch ci r1 k st) as [m|] eqn:E.
    + injection H as ->. now apply IH1.
    + now apply IH2.
  - eapply (starLoop_result (rmatch ci r) k (S (String.length (m_rest st)))); eauto.
  - apply IH in H. destruct H as (st1 & Hf1 & H).
    exists (capture n (m_pos st) st1). split; [|assumption].
    eapply follows_trans; [eassumption | apply follows_capture].
  - destruct (m_pos st =? 0); [|discriminate].
    exists st. split; [apply follows_refl | assumption].
  - destruct (m_rest st); [|discriminate].
    exists st. split; [apply follows_refl | assumption].
  - destruct (xorb _ _); [|discriminate].
    exists st. split; [apply follows_refl | assumption].
Qed.

(** Where a match found by [searchFrom] lies. *)
Lemma searchFrom_result re s :
  forall pos prev m, searchFrom re pos prev s = Some m ->
    pos <= index m <= lastIndex m
    /\ m_pos (after m) = lastIndex m
    /\ lastIndex m + String.length (m_rest (after m)) = pos + String.length s.
Proof.
  induction s as [|c s IH]; intros pos prev m; simpl.
  - destruct (rmatch _ _ Some _) as [st|] eqn:E; [|discriminate].
    intros [= <-]. apply rmatch_result in E. destruct E as (st' & [Hle Hsum] & [= ->]).
    simpl in *. lia.
  - destruct (rmatch _ _ Some _) as [st|] eqn:E.
    + intros [= <-]. apply rmatch_result in E. destruct E as (st' & [Hle Hsum] & [= ->]).
      simpl in *. lia.
    + intros H. apply IH in H. lia.
Qed.

(** [matchAll] never uses up its fuel. *)
Lemma allFrom_fuel re :
  forall fuel1 fuel2 st,
    String.length (m_rest st) < fuel1 -> String.length (m_rest st) < fuel2 ->
    allFrom fuel1 re st = allFrom fuel2 re st.
Proof.
  induction fuel1 as [|fuel1 IH]; intros fuel2 st H1 H2; [lia|].
  destruct fuel2 as [|fuel2]; [lia|]. simpl.
  destruct (searchFrom re (m_pos st) (m_prev st) (m_rest st)) as [m|] eqn:E; [|reflexivity].
  apply searchFrom_result in E. destruct E as (Hidx & Hpos & Hsum).
  destruct (Nat.eqb_spec (lastIndex m) (index m)) as [Heq|Hne].
  - destruct (m_rest (after m)) as [|c s'] eqn:Er; [reflexivity|].
    f_equal. apply IH; simpl in *; lia.
  - f_equal. apply IH; simpl; lia.
Qed.

(** [split] never uses up its fuel. *)
Lemma splitFrom_fuel re s :
  forall fuel1 fuel2 p q prev rest,
    2 * String.length rest + (if p =? q then 0 else 1) < fuel1 ->
    2 * String.length rest + (if p =? q then 0 else 1) < fuel2 ->
    splitFrom fuel1 re s p q prev rest = splitFrom fuel2 re s p q prev rest.
Proof.
  induction fuel1 as [|fuel1 IH]; intros fuel2 p q prev rest H1 H2; [lia|].
  destruct fuel2 as [|fuel2]; [lia|]. simpl.
  destruct rest as [|c rest']; [reflexivity|].
  assert (Hstep : splitFrom fuel1 re s p (S q) (Some c) rest'
                  = splitFrom fuel2 re s p (S q) (Some c) rest').
  { apply IH; simpl in *; destruct (p =? q); destruct (p =? S q); lia. }
  destruct (rmatch _ _ Some _) as [st|] eqn:E; [|exact Hstep].
  apply rmatch_result in E. destruct E as (st' & [Hle Hsum] & [= ->]). simpl in *.
  destruct (Nat.eqb_spec (m_pos st) p) as [Hp|Hp]; [exact Hstep|].
  f_equal.
  apply IH; rewrite Nat.eqb_refl; destruct (Nat.eqb_spec p q); lia.
Qed.
End Matcher.

(* ================================================================== *)
(** ** Binary64 arithmetic *)

Section Binary64.
Import JS NumberVocabulary.
Local Open Scope Q_scope.

Lemma pow2_pos e : 0 < pow2 e.
Proof. unfold pow2. apply Qpower_0_lt. reflexivity. Qed.

Lemma pow2_add a b : pow2 (a + b) == pow2 a * pow2 b.
Proof. unfold pow2. apply Qpower_plus. discriminate. Qed.

Lemma pow2_le a b : (a <= b)%Z -> pow2 a <= pow2 b.
Proof. intros H. unfold pow2. apply Qpower_le_compat_l; [assumption | discriminate]. Qed.

Lemma pow2_lt a b : (a < b)%Z -> pow2 a < pow2 b.
Proof. intros H. unfold pow2. apply Qpower_lt_compat_l; [assumption | reflexivity]. Qed.

Lemma pow2_lt_inv a b : pow2 a < pow2 b -> (a < b)%Z.
Proof.
  intros H. destruct (Z.lt_ge_cases a b) as [|Hge]; [assumption|].
  apply pow2_le in Hge. lra.
Qed.

Lemma pow2_Z n : (0 <= n)%Z -> pow2 n == inject_Z (2 ^ n).
Proof. intros H. unfold pow2. symmetry. apply Zpower_Qpower. assumption. Qed.

Lemma pow2_succ e : pow2 (e + 1) == 2 * pow2 e.
Proof. rewrite pow2_add. change (pow2 1) with 2. ring. Qed.

Lemma Q_as_div a : a == inject_Z (Qnum a) / inject_Z (Z.pos (Qden a)).
Proof. destruct a as [n d]. simpl. apply Qmake_Qdiv. Qed.

(** The exponent found by [ilog2]. *)
Lemma ilog2_spec a : 0 < a -> pow2 (ilog2 a) <= a /\ a < pow2 (ilog2 a + 1).
Proof.
  intros Ha.
  assert (Hn : (0 < Qnum a)%Z).
  { destruct a as [n d]. unfold Qlt in Ha. simpl in *. lia. }
  set (n := Qnum a) in *. set (d := Z.pos (Qden a)).
  assert (Hd : (0 < d)%Z) by (unfold d; lia).
  destruct (Z.log2_spec n Hn) as [Hn1 Hn2].
  destruct (Z.log2_spec d Hd) as [Hd1 Hd2].
  pose proof (Z.log2_nonneg n) as Hln. pose proof (Z.log2_nonneg d) as Hld.
  set (ln := Z.log2 n) in *. set (ld := Z.log2 d) in *.
  assert (Ea : a == inject_Z n / inject_Z d) by apply Q_as_div.
  assert (Hdq : 0 < inject_Z d) by (change 0 with (inject_Z 0); now rewrite <- Zlt_Qlt).
  assert (Hnq : 0 < inject_Z n) by (change 0 with (inject_Z 0); now rewrite <- Zlt_Qlt).
  assert (B1 : pow2 ln <= inject_Z n) by (rewrite pow2_Z by lia; now rewrite <- Zle_Qle).
  assert (B2 : inject_Z n < pow2 (ln + 1))
    by (rewrite pow2_Z by lia; now rewrite <- Zlt_Qlt).
  assert (B3 : pow2 ld <= inject_Z d) by (rewrite pow2_Z by lia; now rewrite <- Zle_Qle).
  assert (B4 : inject_Z d < pow2 (ld + 1))
    by (rewrite pow2_Z by lia; now rewrite <- Zlt_Qlt).
  pose proof (pow2_pos ln) as P1. pose proof (pow2_pos ld) as P2.
  pose proof (pow2_pos (ln - ld)) as P3.
  assert (E1 : pow2 ln == pow2 (ln - ld) * pow2 ld)
    by (rewrite <- pow2_add; now replace (ln - ld + ld)%Z with ln by lia).
  rewrite pow2_succ in B2, B4.
  assert (Hup : a < 2 * pow2 (ln - ld)).
  { rewrite Ea. apply Qlt_shift_div_r; [assumption|].
    apply Qlt_le_trans with (2 * pow2 ln); [assumption|].
    rewrite E1. rewrite <- Qmult_assoc. apply Qmult_le_l; [reflexivity|].
    apply Qmult_le_l; assumption. }
  assert (Hlo : pow2 (ln - ld) < 2 * a).
  { assert (H : pow2 (ln - ld) * inject_Z d < 2 * inject_Z n).
    { apply Qlt_le_trans with (pow2 (ln - ld) * (2 * pow2 ld)).
      - apply Qmult_lt_l; assumption.
      - rewrite Qmult_assoc, (Qmult_comm (pow2 (ln - ld)) 2), <- Qmult_assoc, <- E1.
        apply Qmult_le_l; [reflexivity | assumption]. }
    rewrite Ea. unfold Qdiv. rewrite Qmult_assoc.
    apply Qlt_shift_div_l; assumption. }
  unfold ilog2. fold n. fold d. fold ln. fold ld.
  destruct (Qle_bool (pow2 (ln - ld)) a) eqn:E.
  - apply Qle_bool_iff in E. split; [assumption|]. now rewrite pow2_succ.
  - assert (E' : a < pow2 (ln - ld)).
    { apply Qnot_le_lt. intros H. apply Qle_bool_iff in H. congruence. }
    replace (ln - ld - 1 + 1)%Z with (ln - ld)%Z by lia.
    split; [|assumption].
    assert (E2 : pow2 (ln - ld) == 2 * pow2 (ln - ld - 1)).
    { rewrite <- pow2_succ. now replace (ln - ld - 1 + 1)%Z with (ln - ld)%Z by lia. }
    lra.
Qed.

Lemma ilog2_unique a e : pow2 e <= a -> a < pow2 (e + 1) -> ilog2 a = e.
Proof.
  intros H1 H2.
  assert (Ha : 0 < a) by (pose proof (pow2_pos e); lra).
  destruct (ilog2_spec a Ha) as [H3 H4].
  assert ((ilog2 a < e + 1)%Z) by (apply pow2_lt_inv; lra).
  assert ((e < ilog2 a + 1)%Z) by (apply pow2_lt_inv; lra).
  lia.
Qed.

Lemma ilog2_comp a b : 0 < a -> a == b -> ilog2 a = ilog2 b.
Proof.
  intros Ha E. destruct (ilog2_spec a Ha) as [H1 H2].
  symmetry. apply ilog2_unique; rewrite <- E; assumption.
Qed.

(** [roundEven] is within a half of its argument. *)
Lemma roundEven_near x :
  inject_Z (roundEven x) - x <= 1 # 2 /\ x - inject_Z (roundEven x) <= 1 # 2.
Proof.
  unfold roundEven.
  pose proof (Qfloor_le x) as H1. pose proof (Qlt_floor x) as H2.
  set (f := Qfloor x) in *. rewrite inject_Z_plus in H2. change (inject_Z 1) with 1 in H2.
  destruct (Qcompare (x - inject_Z f) (1 # 2)) eqn:E.
  - apply Qeq_alt in E. destruct (Z.even f).
    + lra.
    + rewrite inject_Z_plus. change (inject_Z 1) with 1. lra.
  - apply Qlt_alt in E. lra.
  - apply Qgt_alt in E. rewrite inject_Z_plus. change (inject_Z 1) with 1. lra.
Qed.

Lemma roundEven_Z z : roundEven (inject_Z z) = z.
Proof.
  unfold roundEven. rewrite Qfloor_Z.
  assert (E : Qcompare (inject_Z z - inject_Z z) (1 # 2) = Lt).
  { apply Qlt_alt. setoid_replace (inject_Z z - inject_Z z) with 0 by ring. reflexivity. }
  now rewrite E.
Qed.

Lemma roundEven_comp x y : x == y -> roundEven x = roundEven y.
Proof.
  intros E. unfold roundEven. rewrite (Qfloor_comp x y E).
  assert (E2 : Qcompare (x - inject_Z (Qfloor y)) (1 # 2)
               = Qcompare (y - inject_Z (Qfloor y)) (1 # 2)).
  { apply Qcompare_comp; [now rewrite E | reflexivity]. }
  now rewrite E2.
Qed.

Lemma Qabs_positive q : ~ q == 0 -> 0 < Qabs q.
Proof.
  intros H. destruct (Q_dec q 0) as [[Hq|Hq]|Hq]; [| |contradiction].
  - rewrite Qabs_neg by lra. lra.
  - rewrite Qabs_pos by lra. lra.
Qed.

(** [round64] gives one value to equal rationals. *)
Lemma round64_comp q q' : q == q' -> round64 q = round64 q'.
Proof.
  intros E. unfold round64.
  assert (E0 : Qeq_bool q 0 = Qeq_bool q' 0).
  { destruct (Qeq_bool q 0) eqn:A; destruct (Qeq_bool q' 0) eqn:B; try reflexivity.
    - apply Qeq_bool_iff in A. apply Qeq_bool_neq in B. elim B. now rewrite <- E.
    - apply Qeq_bool_iff in B. apply Qeq_bool_neq in A. elim A. now rewrite E. }
  rewrite <- E0. destruct (Qeq_bool q 0) eqn:Z0; [reflexivity|].
  apply Qeq_bool_neq in Z0.
  assert (Ha : 0 < Qabs q) by now apply Qabs_positive.
  assert (Eabs : Qabs q == Qabs q') by now rewrite E.
  rewrite <- (ilog2_comp (Qabs q) (Qabs q') Ha Eabs).
  set (ulp := pow2 (Z.max (ilog2 (Qabs q)) (-1022) - 52)).
  assert (Em : roundEven (Qabs q / ulp) = roundEven (Qabs q' / ulp)).
  { apply roundEven_comp. now rewrite Eabs. }
  rewrite <- Em.
  assert (Es : Qle_bool 0 q = Qle_bool 0 q').
  { destruct (Qle_bool 0 q) eqn:A; destruct (Qle_bool 0 q') eqn:B; try reflexivity.
    - apply Qle_bool_iff in A. rewrite E in A. apply Qle_bool_iff in A. congruence.
    - apply Qle_bool_iff in B. rewrite <- E in B. apply Qle_bool_iff in B. congruence. }
  now rewrite <- Es.
Qed.

Lemma round64_zero q : q == 0 -> round64 q = Dbl 0.
Proof.
  intros E. unfold round64.
  assert (H : Qeq_bool q 0 = true) by now apply Qeq_bool_iff.
  now rewrite H.
Qed.

Lemma pow2_m53 : pow2 (-53) == unitRoundoff.
Proof. reflexivity. Qed.

(** In the normal range [round64] is finite, keeps the sign and errs by at
    most the unit roundoff, relatively. *)
Lemma round64_near q :
  pow2 (-1022) <= Qabs q -> Qabs q <= pow2 1000 ->
  exists r,
    round64 q = Dbl r
    /\ r - q <= Qabs q * unitRoundoff /\ q - r <= Qabs q * unitRoundoff
    /\ (0 <= q -> 0 <= r) /\ (q <= 0 -> r <= 0).
Proof.
  intros Hlo Hhi. unfold round64.
  pose proof (pow2_pos (-1022)) as Hp.
  assert (Hq0 : ~ q == 0).
  { intros E. rewrite E in Hlo. change (Qabs 0) with 0 in Hlo. lra. }
  assert (Z0 : Qeq_bool q 0 = false).
  { destruct (Qeq_bool q 0) eqn:E; [|reflexivity]. apply Qeq_bool_iff in E. contradiction. }
  rewrite Z0.
  set (a := Qabs q) in *.
  assert (Ha : 0 < a) by lra.
  destruct (ilog2_spec a Ha) as [He1 He2].
  set (e := ilog2 a) in *.
  assert (He : (-1022 <= e)%Z).
  { assert ((-1022 < e + 1)%Z) by (apply pow2_lt_inv; lra). lia. }
  rewrite Z.max_l by assumption.
  set (ulp := pow2 (e - 52)).
  pose proof (pow2_pos (e - 52)) as Hulp. fold ulp in Hulp.
  destruct (roundEven_near (a / ulp)) as [Hm1 Hm2].
  set (m := inject_Z (roundEven (a / ulp))) in *.
  assert (Eu : 2 * (pow2 e * unitRoundoff) == ulp).
  { rewrite <- pow2_m53, <- pow2_add. unfold ulp.
    rewrite <- pow2_succ. now replace (e + -53 + 1)%Z with (e - 52)%Z by lia. }
  assert (Ex : a / ulp * ulp == a) by (field; lra).
  assert (R1 : m * ulp - a <= a * unitRoundoff).
  { assert (H : (m - a / ulp) * ulp <= (1 # 2) * ulp)
      by (apply Qmult_le_compat_r; lra).
    assert (H2 : pow2 e * unitRoundoff <= a * unitRoundoff)
      by (apply Qmult_le_compat_r; [assumption | discriminate]).
    setoid_replace (m * ulp - a) with ((m - a / ulp) * ulp) by (field; lra). lra. }
  assert (R2 : a - m * ulp <= a * unitRoundoff).
  { assert (H : (a / ulp - m) * ulp <= (1 # 2) * ulp)
      by (apply Qmult_le_compat_r; lra).
    assert (H2 : pow2 e * unitRoundoff <= a * unitRoundoff)
      by (apply Qmult_le_compat_r; [assumption | discriminate]).
    setoid_replace (a - m * ulp) with ((a / ulp - m) * ulp) by (field; lra). lra. }
  assert (Rpos : 0 <= m * ulp).
  { assert (H : a * unitRoundoff <= a * (1 # 2))
      by (apply Qmult_le_l; [assumption | discriminate]).
    lra. }
  assert (Hover : Qle_bool (pow2 1024) (m * ulp) = false).
  { destruct (Qle_bool (pow2 1024) (m * ulp)) eqn:E; [|reflexivity].
    apply Qle_bool_iff in E.
    assert (H : a * unitRoundoff <= a * 1)
      by (apply Qmult_le_l; [assumption | discriminate]).
    assert (H1 : pow2 1001 == 2 * pow2 1000) by apply (pow2_succ 1000).
    assert (H2 : pow2 1001 < pow2 1024) by (apply pow2_lt; lia).
    lra. }
  rewrite Hover.
  destruct (Qle_bool 0 q) eqn:Es.
  - apply Qle_bool_iff in Es.
    assert (Eq : a == q) by (unfold a; now apply Qabs_pos).
    exists (Qred (m * ulp)). split; [reflexivity|].
    rewrite Qred_correct. repeat split; intros; lra.
  - assert (Es' : q < 0).
    { apply Qnot_le_lt. intros H. apply Qle_bool_iff in H. congruence. }
    assert (Eq : a == - q) by (unfold a; apply Qabs_neg; lra).
    exists (Qred (- (m * ulp))). split; [reflexivity|].
    rewrite Qred_correct. repeat split; intros; lra.
Qed.

Lemma Qred_inject_Z z : Qred (inject_Z z) = inject_Z z.
Proof.
  unfold inject_Z, Qred.
  pose proof (Z.ggcd_gcd z 1) as Hg. pose proof (Z.ggcd_correct_divisors z 1) as Hd.
  destruct (Z.ggcd z 1) as [g [aa bb]]. simpl in Hg. destruct Hd as [Ha Hb].
  rewrite Z.gcd_1_r in Hg. subst g.
  replace aa with z by lia. replace bb with 1%Z by lia. reflexivity.
Qed.

(** Whole numbers up to 2^53 are binary64 values. *)
Lemma round64_Z z : (Z.abs z <= 2 ^ 53)%Z -> round64 (inject_Z z) = Dbl (inject_Z z).
Proof.
  intros Hz. destruct (Z.eq_dec z 0) as [->|Hz0]; [reflexivity|].
  unfold round64.
  assert (Z0 : Qeq_bool (inject_Z z) 0 = false).
  { destruct (Qeq_bool (inject_Z z) 0) eqn:E; [|reflexivity].
    apply Qeq_bool_iff in E. unfold Qeq in E. simpl in E. lia. }
  rewrite Z0.
  change (Qabs (inject_Z z)) with (inject_Z (Z.abs z)).
  set (n := Z.abs z) in *.
  assert (Hn : (1 <= n)%Z) by (unfold n; lia).
  assert (Ha : 0 < inject_Z n) by (change 0 with (inject_Z 0); rewrite <- Zlt_Qlt; lia).
  destruct (ilog2_spec _ Ha) as [He1 He2].
  set (e := ilog2 (inject_Z n)) in *.
  assert (He0 : (0 <= e)%Z).
  { assert ((0 < e + 1)%Z); [|lia].
    apply pow2_lt_inv. change (pow2 0) with (inject_Z 1).
    apply Qle_lt_trans with (inject_Z n); [rewrite <- Zle_Qle; lia | assumption]. }
  assert (He53 : (e <= 53)%Z).
  { assert ((e < 54)%Z); [|lia].
    apply pow2_lt_inv. apply Qle_lt_trans with (inject_Z n); [assumption|].
    rewrite (pow2_Z 54) by lia. rewrite <- Zlt_Qlt. lia. }
  rewrite Z.max_l by lia.
  set (ulp := pow2 (e - 52)).
  pose proof (pow2_pos (e - 52)) as Hulp. fold ulp in Hulp.
  assert (Hk : exists k, inject_Z n / ulp == inject_Z k).
  { destruct (Z.eq_dec e 53) as [E53|Ne].
    - exists (2 ^ 52)%Z.
      assert (En : n = (2 ^ 53)%Z).
      { apply Z.le_antisymm; [assumption|].
        rewrite Zle_Qle, <- (pow2_Z 53) by lia. now rewrite <- E53. }
      unfold ulp. rewrite E53, En. reflexivity.
    - exists (n * 2 ^ (52 - e))%Z.
      rewrite inject_Z_mult, <- pow2_Z by lia.
      assert (E : pow2 (52 - e) * ulp == 1).
      { unfold ulp. rewrite <- pow2_add. now replace (52 - e + (e - 52))%Z with 0%Z by lia. }
      assert (E2 : pow2 (52 - e) == / ulp).
      { apply Qmult_inj_r with ulp; [lra|]. rewrite E. field. lra. }
      rewrite E2. reflexivity. }
  destruct Hk as [k Hk].
  rewrite (roundEven_comp _ _ Hk), roundEven_Z.
  assert (Er : inject_Z k * ulp == inject_Z n).
  { rewrite <- Hk. field. lra. }
  assert (Hover : Qle_bool (pow2 1024) (inject_Z k * ulp) = false).
  { destruct (Qle_bool (pow2 1024) (inject_Z k * ulp)) eqn:E; [|reflexivity].
    apply Qle_bool_iff in E. rewrite Er in E.
    assert (H1 : pow2 (e + 1) <= pow2 1024) by (apply pow2_le; lia). lra. }
  rewrite Hover. f_equal.
  transitivity (Qred (inject_Z z)); [apply Qred_complete | apply Qred_inject_Z].
  destruct (Qle_bool 0 (inject_Z z)) eqn:Es.
  - apply Qle_bool_iff in Es. change 0 with (inject_Z 0) in Es. rewrite <- Zle_Qle in Es.
    etransitivity; [exact Er|]. unfold n. now rewrite Z.abs_eq.
  - assert (Es' : (z < 0)%Z).
    { destruct (Z.lt_ge_cases z 0) as [|H]; [assumption|].
      assert (Qle_bool 0 (inject_Z z) = true); [|congruence].
      apply Qle_bool_iff. change 0 with (inject_Z 0). rewrite <- Zle_Qle. lia. }
    assert (Er' : - (inject_Z k * ulp) == - inject_Z n) by now rewrite Er.
    etransitivity; [exact Er'|]. unfold n. rewrite Z.abs_neq by lia.
    now rewrite inject_Z_opp, Qopp_involutive.
Qed.

(** The difference of two whole numbers is exact up to 2^53. *)
Lemma Dsub_Z a b :
  (Z.abs (a - b) <= 2 ^ 53)%Z ->
  Dsub (Dbl (inject_Z a)) (Dbl (inject_Z b)) = Dbl (inject_Z (a - b)).
Proof.
  intros H. cbn [Dsub]. rewrite <- (round64_Z (a - b) H). apply round64_comp.
  unfold Z.sub. rewrite inject_Z_plus, inject_Z_opp. reflexivity.
Qed.

(** A quotient by 100 of a product, each rounded once: the result is
    within three unit roundoffs, relatively, of the exact quotient. *)
Lemma scale_near (y : Q) :
  y == 0 \/ (1 # 2 <= Qabs y /\ Qabs y <= 1000000000000000000) ->
  exists x,
    Ddiv (round64 y) (Dbl 100) = Dbl x
    /\ x - y * (1 # 100) <= Qabs y * (3 * unitRoundoff * (1 # 100))
    /\ y * (1 # 100) - x <= Qabs y * (3 * unitRoundoff * (1 # 100))
    /\ (0 <= y -> 0 <= x).
Proof.
  intros [E|[Hlo Hhi]].
  - rewrite (round64_zero y E). exists 0. split; [reflexivity|].
    rewrite E. change (Qabs 0) with 0. repeat split; intros; lra.
  - assert (P1 : pow2 (-1022) <= 1 # 512)
      by (change (1 # 512) with (pow2 (-9)); apply pow2_le; lia).
    assert (P2 : 18446744073709551616 <= pow2 1000).
    { change 18446744073709551616 with (inject_Z (2 ^ 64)).
      rewrite <- pow2_Z by lia. apply pow2_le. lia. }
    destruct (round64_near y) as (x1 & E1 & A1 & A2 & S1 & S2); [lra | lra |].
    rewrite E1. cbn [Ddiv]. change (Qeq_bool 100 0) with false. cbv iota.
    assert (Eh : x1 / 100 == x1 * (1 # 100)) by reflexivity.
    unfold unitRoundoff in *.
    destruct (Qlt_le_dec y 0) as [Hneg|Hpos].
    + assert (Ea : Qabs y == - y) by (apply Qabs_neg; lra).
      rewrite Ea in *.
      assert (Hx1 : x1 <= 0) by (apply S2; lra).
      assert (Eb : Qabs (x1 / 100) == - (x1 * (1 # 100))).
      { rewrite Eh. apply Qabs_neg. lra. }
      destruct (round64_near (x1 / 100)) as (x2 & E2 & B1 & B2 & T1 & T2);
        [rewrite Eb; lra | rewrite Eb; lra |].
      exists x2. split; [exact E2|]. rewrite Eb, Eh in *. unfold unitRoundoff in *.
      repeat split; intros; lra.
    + assert (Ea : Qabs y == y) by (apply Qabs_pos; lra).
      rewrite Ea in *.
      assert (Hx1 : 0 <= x1) by (apply S1; lra).
      assert (Eb : Qabs (x1 / 100) == x1 * (1 # 100)).
      { rewrite Eh. apply Qabs_pos. lra. }
      destruct (round64_near (x1 / 100)) as (x2 & E2 & B1 & B2 & T1 & T2);
        [rewrite Eb; lra | rewrite Eb; lra |].
      exists x2. split; [exact E2|]. rewrite Eb, Eh in *. unfold unitRoundoff in *.
      assert (0 <= x2) by (apply T1; lra).
      repeat split; intros; lra.
Qed.

(** [Math.round] of a finite number is within a half of it. *)
Lemma Qfloor_half x :
  inject_Z (Qfloor (x + (1 # 2))) <= x + (1 # 2)
  /\ x - (1 # 2) < inject_Z (Qfloor (x + (1 # 2))).
Proof.
  pose proof (Qfloor_le (x + (1 # 2))) as H1.
  pose proof (Qlt_floor (x + (1 # 2))) as H2.
  rewrite inject_Z_plus in H2. change (inject_Z 1) with 1 in H2. split; lra.
Qed.

Lemma roundEven_nonneg x : 0 <= x -> (0 <= roundEven x)%Z.
Proof.
  intros H. unfold roundEven.
  assert (Hf : (0 <= Qfloor x)%Z) by (apply (Qfloor_resp_le 0 x); assumption).
  destruct (Qcompare _ _); [destruct (Z.even _)| |]; lia.
Qed.

(** [round64] never gives [NaN], and no negative number for a rational
    that is not negative. *)
Lemma round64_not_NaN q : round64 q <> DNaN.
Proof.
  unfold round64.
  repeat match goal with
         | |- context [if ?b then _ else _] => destruct b
         end; discriminate.
Qed.

Lemma round64_nonneg q : 0 <= q -> isNegative (round64 q) = false.
Proof.
  intros Hq. unfold round64.
  destruct (Qeq_bool q 0); [reflexivity|].
  assert (Hs : Qle_bool 0 q = true) by now apply Qle_bool_iff.
  rewrite Hs.
  destruct (Qle_bool (pow2 1024) _); [reflexivity|].
  cbn [isNegative]. apply negb_false_iff. apply Qle_bool_iff. rewrite Qred_correct.
  apply Qmult_le_0_compat.
  - change 0 with (inject_Z 0). rewrite <- Zle_Qle. apply roundEven_nonneg.
    apply Qle_shift_div_l; [apply pow2_pos|]. rewrite Qmult_0_l. apply Qabs_nonneg.
  - apply Qlt_le_weak, pow2_pos.
Qed.

(** The number of a run of digits is not negative. *)
Lemma numberOfDigits_nonneg z : (0 <= z)%Z -> atLeast 0 (numberOfDigits z).
Proof.
  intros Hz. unfold numberOfDigits.
  assert (Hq : 0 <= inject_Z z) by (change 0 with (inject_Z 0); now rewrite <- Zle_Qle).
  pose proof (round64_nonneg _ Hq) as Hn. pose proof (round64_not_NaN (inject_Z z)) as Hnan.
  destruct (round64 (inject_Z z)) as [q| | |]; simpl in *; try discriminate;
    [|exact I | congruence].
  apply negb_false_iff in Hn. apply Qle_bool_iff in Hn.
  apply (Qfloor_resp_le 0 q). assumption.
Qed.

Lemma digitsValue_nonneg s : forall acc, (0 <= acc)%Z -> (0 <= digitsValue acc s)%Z.
Proof.
  induction s as [|c s IH]; cbn [digitsValue]; intros acc H; [assumption|].
  destruct (isDigit c); [apply IH; lia | assumption].
Qed.

Lemma parseInt_nonneg s : parseInt s = JNaN \/ atLeast 0 (parseInt s).
Proof.
  unfold parseInt. destruct s as [|c s]; [now left|].
  destruct (isDigit c); [right | now left].
  apply numberOfDigits_nonneg, digitsValue_nonneg. lia.
Qed.

(** A thousand times a number [parseInt] returns is not negative. *)
Lemma thousands_nonneg s :
  isNegative (Dmul (toDouble (parseInt s)) (Dbl 1000)) = false.
Proof.
  destruct (parseInt_nonneg s) as [->|H]; [reflexivity|].
  destruct (parseInt s) as [z| | |]; simpl in H; try contradiction; [|reflexivity].
  cbn [toDouble Dmul]. apply round64_nonneg.
  apply Qmult_le_0_compat; [|discriminate].
  change 0 with (inject_Z 0). now rewrite <- Zle_Qle.
Qed.

End Binary64.

(* ================================================================== *)
(** ** Rake engine *)

Section RakeEngine.
Import JS WsopParser Statements NumberVocabulary RakeVocabulary.

Lemma allTiers_ordered : forall t, In t allTiers -> orderedTier t = true.
Proof.
  assert (H : forallb orderedTier allTiers = true) by (vm_compute; reflexivity).
  intros t Ht. rewrite forallb_forall in H. exact (H t Ht).
Qed.

Lemma ownEntry_In tbl ev t :
  ownEntry tbl ev = Some t -> In t (map snd tbl).
Proof.
  induction tbl as [|[k v] tbl IH]; simpl; [discriminate|].
  destruct (String.eqb k ev); [intros [= ->]; now left | auto].
Qed.

Lemma tierOfBuyin_In tbl b t :
  tierOfBuyin tbl b = Some t -> In (b, t) tbl.
Proof.
  induction tbl as [|[k v] tbl IH]; simpl; [discriminate|].
  destruct (Z.eqb_spec k b) as [->|]; [intros [= ->]; now left | auto].
Qed.

Lemma tierOfBuyin_complete tbl key tier :
  NoDup (map fst tbl) -> In (key, tier) tbl -> tierOfBuyin tbl key = Some tier.
Proof.
  induction tbl as [|[k v] tbl IH]; simpl; intros Hnd Hin; [destruct Hin|].
  inversion Hnd as [|? ? Hnotin Hnd']; subst.
  destruct Hin as [[= -> ->]|Hin].
  - now rewrite Z.eqb_refl.
  - destruct (Z.eqb_spec k key) as [->|_]; [|auto].
    exfalso. apply Hnotin. apply (in_map fst) in Hin. exact Hin.
Qed.

Lemma tierKeys_NoDup : NoDup (map fst WSOP_RAKE_BY_BUYIN).
Proof.
  simpl. repeat (constructor; [simpl; intuition discriminate|]). constructor.
Qed.

Lemma insertSorted_In x y l : In y (insertSorted x l) <-> y = x \/ In y l.
Proof.
  induction l as [|a l IH]; simpl.
  - intuition.
  - destruct (x <? a)%Z; simpl; [intuition | rewrite IH; intuition].
Qed.

Lemma sortNumbers_In y l : In y (sortNumbers l) <-> In y l.
Proof.
  induction l as [|a l IH]; simpl; [tauto|].
  rewrite insertSorted_In, IH. intuition.
Qed.

Lemma tierKeys_sorted : StronglySorted Z.lt (sortNumbers (map fst WSOP_RAKE_BY_BUYIN)).
Proof.
  vm_compute sortNumbers.
  repeat (constructor; [|repeat (constructor; [reflexivity|]); constructor]).
  constructor.
Qed.

(** A number that is at least a key is at least every smaller key. *)
Lemma leq_mono k k' buyin : (k' <= k)%Z -> leq k buyin = true -> leq k' buyin = true.
Proof.
  intros Hk. destruct buyin as [q| | |]; simpl; try congruence.
  intros H. apply Qle_bool_iff in H. apply Qle_bool_iff.
  apply Qle_trans with (inject_Z k); [now rewrite <- Zle_Qle | assumption].
Qed.

(** A number is at least the whole number it is. *)
Lemma wholeNumber_leq buyin z k :
  wholeNumber buyin = Some z -> leq k buyin = (k <=? z)%Z.
Proof.
  destruct buyin as [q| | |]; simpl; try discriminate.
  destruct (Qeq_bool (inject_Z (Qfloor q)) q) eqn:E; [|discriminate].
  intros [= <-]. apply Qeq_bool_iff in E.
  destruct (Z.leb_spec k (Qfloor q)) as [H|H].
  - apply Qle_bool_iff. rewrite <- E. now rewrite <- Zle_Qle.
  - destruct (Qle_bool (inject_Z k) q) eqn:E2; [|reflexivity].
    apply Qle_bool_iff in E2. rewrite <- E in E2. rewrite <- Zle_Qle in E2. lia.
Qed.

(** The loop stops at once on a list whose elements all exceed the buy-in. *)
Lemma scanTiers_above tiers buyin acc :
  (forall t, In t tiers -> leq t buyin = false) -> scanTiers tiers buyin acc = acc.
Proof.
  destruct tiers as [|t tiers]; simpl; [reflexivity|].
  intros H. now rewrite (H t (or_introl eq_refl)).
Qed.

(** On an increasing list the loop ends on the greatest element that
    does not exceed the buy-in. *)
Lemma scanTiers_greatest tiers buyin key :
  StronglySorted Z.lt tiers ->
  In key tiers -> leq key buyin = true ->
  (forall k, In k tiers -> leq k buyin = true -> (k <= key)%Z) ->
  forall acc, scanTiers tiers buyin acc = Some key.
Proof.
  induction 1 as [|t tiers Hs IH Hlt]; intros Hin Hle Hmax acc; [destruct Hin|].
  rewrite Forall_forall in Hlt. simpl.
  destruct (leq t buyin) eqn:Ht.
  - destruct Hin as [->|Hin].
    + apply scanTiers_above. intros k Hk.
      destruct (leq k buyin) eqn:Ek; [|reflexivity].
      specialize (Hmax k (or_intror Hk) Ek). specialize (Hlt k Hk). lia.
    + apply IH; auto. intros k Hk. apply Hmax. now right.
  - destruct Hin as [->|Hin]; [congruence|]. specialize (Hlt key Hin).
    rewrite (leq_mono key t buyin) in Ht; [discriminate | lia | assumption].
Qed.

Lemma scanTiers_result tiers buyin acc :
  scanTiers tiers buyin acc = acc
  \/ exists k, In k tiers /\ scanTiers tiers buyin acc = Some k.
Proof.
  revert acc. induction tiers as [|t tiers IH]; simpl; intros acc; [now left|].
  destruct (leq t buyin); [|now left].
  right. destruct (IH (Some t)) as [H | (k & Hk & H)].
  - exists t. auto.
  - exists k. auto.
Qed.

Lemma fallbackTier_greatest buyin key tier :
  In (key, tier) WSOP_RAKE_BY_BUYIN -> leq key buyin = true ->
  (forall key' tier', In (key', tier') WSOP_RAKE_BY_BUYIN ->
                      leq key' buyin = true -> (key' <= key)%Z) ->
  fallbackTier buyin = Some key.
Proof.
  intros Hin Hle Hmax. unfold fallbackTier.
  rewrite (scanTiers_greatest _ buyin key tierKeys_sorted); auto.
  - rewrite sortNumbers_In. apply (in_map fst) in Hin. exact Hin.
  - intros k Hk Hkb. rewrite sortNumbers_In in Hk. apply in_map_iff in Hk.
    destruct Hk as [[k' t'] [<- Hk]]. eapply Hmax; eauto.
Qed.

Lemma fallbackTier_lowest buyin key tier :
  In (key, tier) WSOP_RAKE_BY_BUYIN ->
  (forall key' tier', In (key', tier') WSOP_RAKE_BY_BUYIN ->
                      leq key' buyin = false /\ (key <= key')%Z) ->
  fallbackTier buyin = Some key.
Proof.
  intros Hin Hlow. unfold fallbackTier.
  rewrite scanTiers_above.
  - assert (H300 : (key <= 300)%Z)
      by (apply (Hlow 300%Z (mkTier 12.6 5.4 18.0)); now left).
    vm_compute sortNumbers. cbv iota. f_equal.
    simpl in Hin.
    repeat (destruct Hin as [[= <- <-]|Hin]; [lia|]). destruct Hin.
  - intros t Ht. rewrite sortNumbers_In in Ht. apply in_map_iff in Ht.
    destruct Ht as [[k' t'] [<- Hk]]. eapply Hlow; eauto.
Qed.

Lemma fallbackTier_key buyin :
  exists key, fallbackTier buyin = Some key /\ In key (map fst WSOP_RAKE_BY_BUYIN).
Proof.
  unfold fallbackTier.
  destruct (scanTiers_result (sortNumbers (map fst WSOP_RAKE_BY_BUYIN)) buyin None)
    as [-> | (k & Hk & ->)].
  - exists 300%Z. split; [reflexivity | simpl; tauto].
  - exists k. rewrite sortNumbers_In in Hk. auto.
Qed.

(** The table is not empty, so a tier is always resolved. *)
Lemma resolveTier_total buyin : exists tier, resolveTier buyin = Some tier.
Proof.
  unfold resolveTier.
  destruct (tierOf buyin) as [t|]; [eauto|].
  destruct (fallbackTier_key buyin) as (key & -> & Hkey).
  apply in_map_iff in Hkey. destruct Hkey as ([k t] & <- & Hin).
  exists t. apply tierOfBuyin_complete; [apply tierKeys_NoDup | exact Hin].
Qed.

Lemma tierOf_In buyin t :
  tierOf buyin = Some t ->
  exists key, wholeNumber buyin = Some key /\ In (key, t) WSOP_RAKE_BY_BUYIN.
Proof.
  unfold tierOf. destruct (wholeNumber buyin) as [key|]; [|discriminate].
  intros H. exists key. split; [reflexivity | now apply tierOfBuyin_In].
Qed.

Lemma resolveTier_In buyin t : resolveTier buyin = Some t -> In t allTiers.
Proof.
  unfold resolveTier, allTiers. intros H. apply in_or_app. right.
  destruct (tierOf buyin) eqn:E1.
  - injection H as <-. apply tierOf_In in E1. destruct E1 as (key & _ & E1).
    apply (in_map snd) in E1. exact E1.
  - destruct (fallbackTier buyin); [|discriminate].
    apply tierOfBuyin_In in H. apply (in_map snd) in H. exact H.
Qed.

Lemma overrideFor_In ev t : overrideFor ev = Some (Entry t) -> In t allTiers.
Proof.
  unfold overrideFor, tierOfEvent, allTiers. intros H. apply in_or_app. left.
  destruct ev as [ev|]; [|discriminate]. destruct (truthy ev); [|discriminate].
  destruct (ownEntry WSOP_RAKE_OVERRIDES ev) eqn:E.
  - injection H as <-. eapply ownEntry_In; eauto.
  - destruct (existsb _ _); discriminate.
Qed.

(** What [getWSOPRake] computes from: an inherited member, or a tier of
    the two tables. *)
Lemma getWSOPRake_cases buyin eventNumber :
  (overrideFor eventNumber = Some Inherited
   /\ getWSOPRake buyin eventNumber = rakeOfInherited)
  \/ exists tier,
       In tier allTiers /\ overrideFor eventNumber <> Some Inherited
       /\ getWSOPRake buyin eventNumber = rakeOfTier buyin tier.
Proof.
  unfold getWSOPRake. destruct (overrideFor eventNumber) as [[t|]|] eqn:E.
  - right. exists t. split; [now apply (overrideFor_In eventNumber)|].
    split; [discriminate | reflexivity].
  - left. split; reflexivity.
  - right. destruct (resolveTier_total buyin) as [t Ht]. rewrite Ht.
    exists t. split; [eapply resolveTier_In; eauto|]. split; [discriminate | reflexivity].
Qed.

Lemma getWSOPRake_present buyin eventNumber :
  rakeAllPresent (getWSOPRake buyin eventNumber).
Proof.
  destruct (getWSOPRake_cases buyin eventNumber) as [[_ ->] | (t & _ & _ & ->)];
    repeat split; discriminate.
Qed.

Lemma getWSOPRake_fallback buyin ev key tier :
  overrideFor ev = None -> In (key, tier) WSOP_RAKE_BY_BUYIN ->
  fallbackTier buyin = Some key ->
  (tierOf buyin = None \/ wholeNumber buyin = Some key) ->
  getWSOPRake buyin ev = rakeOfTier buyin tier.
Proof.
  intros Hov Hin Hfb Hex. unfold getWSOPRake, resolveTier. rewrite Hov.
  pose proof (tierOfBuyin_complete _ _ _ tierKeys_NoDup Hin) as Hk.
  destruct Hex as [Hex|Hex].
  - rewrite Hex, Hfb, Hk. reflexivity.
  - unfold tierOf. rewrite Hex, Hk. reflexivity.
Qed.

(** *** The amounts of a tier *)

Local Open Scope Q_scope.

(** What [orderedTier] says, as propositions. *)
Lemma orderedTier_facts t :
  orderedTier t = true ->
  let d := pctValue (dealerStaffPct t) in
  let e := pctValue (entryFeePct t) in
  let T := pctValue (totalPct t) in
  let k := 3 * unitRoundoff in
  literal (dealerStaffPct t) = Dbl d /\ literal (entryFeePct t) = Dbl e
  /\ literal (totalPct t) = Dbl T
  /\ 1 # 2 <= d * (1 - k) /\ d * (1 + k) <= e * (1 - k)
  /\ e * (1 + k) <= T * (1 - k) /\ T * (1 + k) <= 20
  /\ e + d - T <= 1 # 100000000000000 /\ T - e - d <= 1 # 100000000000000.
Proof.
  unfold orderedTier, pctValue. intros H.
  repeat (apply andb_prop in H; destruct H as [H ?]).
  repeat match goal with
         | H : Qle_bool _ _ = true |- _ => apply Qle_bool_iff in H
         end.
  destruct (literal (dealerStaffPct t)); try discriminate.
  destruct (literal (entryFeePct t)); try discriminate.
  destruct (literal (totalPct t)); try discriminate.
  cbv zeta. repeat split; assumption.
Qed.

(** [Math.round(buyin * pct / 100)] for a whole buy-in of magnitude up to
    10^15 and a percentage between a half and 20: a whole number within a
    half of a value [x] that is within three unit roundoffs, relatively,
    of the exact product. *)
Lemma percentOf_near (b : Z) (pct p : Q) :
  (Z.abs b <= maxBuyin)%Z ->
  literal pct = Dbl p -> 1 # 2 <= p -> p <= 20 ->
  exists x,
    percentOf (Dbl (inject_Z b)) pct = JNum (Qfloor (x + (1 # 2)))
    /\ x - inject_Z b * p * (1 # 100)
       <= Qabs (inject_Z b * p) * (3 * unitRoundoff * (1 # 100))
    /\ inject_Z b * p * (1 # 100) - x
       <= Qabs (inject_Z b * p) * (3 * unitRoundoff * (1 # 100))
    /\ ((0 <= b)%Z -> 0 <= x).
Proof.
  intros Hb Hlit Hlo Hhi. unfold percentOf. rewrite Hlit. cbn [Dmul].
  assert (Eabs : Qabs (inject_Z b * p) == inject_Z (Z.abs b) * p).
  { rewrite Qabs_Qmult. rewrite (Qabs_pos p) by lra. reflexivity. }
  assert (Hm : inject_Z (Z.abs b) <= 1000000000000000).
  { change 1000000000000000 with (inject_Z maxBuyin). now rewrite <- Zle_Qle. }
  assert (Hr : inject_Z b * p == 0
               \/ (1 # 2 <= Qabs (inject_Z b * p)
                   /\ Qabs (inject_Z b * p) <= 1000000000000000000)).
  { destruct (Z.eq_dec b 0) as [->|Hb0]; [left; ring | right].
    rewrite Eabs.
    assert (H1 : 1 <= inject_Z (Z.abs b))
      by (change 1 with (inject_Z 1); rewrite <- Zle_Qle; lia).
    assert (H0 : 0 <= inject_Z (Z.abs b)) by lra.
    split.
    - apply Qle_trans with (1 * p); [lra|]. apply Qmult_le_compat_r; lra.
    - apply Qle_trans with (1000000000000000 * p);
        [apply Qmult_le_compat_r; lra | lra]. }
  destruct (scale_near _ Hr) as (x & Ex & X1 & X2 & X3).
  exists x. rewrite Ex. split; [reflexivity|]. split; [exact X1|]. split; [exact X2|].
  intros H0. apply X3. apply Qmult_le_0_compat; [|lra].
  change 0 with (inject_Z 0). now rewrite <- Zle_Qle.
Qed.

(** The amounts [rakeOfTier] computes for a whole buy-in of magnitude up
    to 10^15: whole numbers; the prize pool is the buy-in minus the rake,
    exactly; house fee plus add-on is within one of the rake; for a
    buy-in that is not negative the amounts nest; from a buy-in of 100 on
    none of them is zero. *)
Lemma rakeOfTier_amounts (b : Z) (t : Tier) :
  orderedTier t = true -> (Z.abs b <= maxBuyin)%Z ->
  exists rd hf oa : Z,
    rakeOfTier (Dbl (inject_Z b)) t
    = Rake.mk (Some (Num (literal (totalPct t)))) (Some (JNum rd))
              (Some (Dbl (inject_Z (b - rd)))) (Some (JNum hf)) (Some (JNum oa))
    /\ (-1 <= hf + oa - rd <= 1)%Z
    /\ ((0 <= b)%Z -> (0 <= oa <= hf)%Z /\ (hf <= rd <= b)%Z)
    /\ ((100 <= b)%Z -> (0 < oa)%Z /\ (rd < b)%Z).
Proof.
  intros Ho Hb. apply orderedTier_facts in Ho. cbv zeta in Ho.
  destruct Ho as (Ld & Le & LT & G1 & G2 & G3 & G4 & S1 & S2).
  set (d := pctValue (dealerStaffPct t)) in *.
  set (e := pctValue (entryFeePct t)) in *.
  set (T := pctValue (totalPct t)) in *.
  unfold unitRoundoff in G1, G2, G3, G4.
  destruct (percentOf_near b _ d Hb Ld) as (xd & Ed & D1 & D2 & D3); [lra | lra |].
  destruct (percentOf_near b _ e Hb Le) as (xe & Ee & E1 & E2 & E3); [lra | lra |].
  destruct (percentOf_near b _ T Hb LT) as (xT & ET & T1 & T2 & T3); [lra | lra |].
  destruct (Qfloor_half xd) as [Fd1 Fd2]. destruct (Qfloor_half xe) as [Fe1 Fe2].
  destruct (Qfloor_half xT) as [FT1 FT2].
  set (oa := Qfloor (xd + (1 # 2))) in *. set (hf := Qfloor (xe + (1 # 2))) in *.
  set (rd := Qfloor (xT + (1 # 2))) in *.
  set (B := inject_Z b) in *.
  assert (HB : -1000000000000000 <= B /\ B <= 1000000000000000).
  { unfold B. change (-1000000000000000) with (inject_Z (- maxBuyin)).
    change 1000000000000000 with (inject_Z maxBuyin).
    rewrite <- !Zle_Qle. lia. }
  unfold unitRoundoff in *.
  (* the three products, and the bounds of their magnitudes *)
  assert (M : forall p, 0 <= p -> p <= 20 ->
                Qabs (B * p) <= 1000000000000000 * p
                /\ (B * p <= Qabs (B * p) /\ - (B * p) <= Qabs (B * p))
                /\ (0 <= B -> Qabs (B * p) == B * p)).
  { intros p Hp0 Hp.
    split; [|split; [split; [apply Qle_Qabs | rewrite <- Qabs_opp; apply Qle_Qabs]|]].
    - rewrite Qabs_Qmult, (Qabs_pos p) by assumption.
      assert (HA : Qabs B <= 1000000000000000) by (apply Qabs_Qle_condition; lra).
      apply Qmult_le_compat_r; assumption.
    - intros HB0. apply Qabs_pos. now apply Qmult_le_0_compat. }
  destruct (M d) as (Md1 & [Md2 Md2'] & Md3); [lra | lra |].
  destruct (M e) as (Me1 & [Me2 Me2'] & Me3); [lra | lra |].
  destruct (M T) as (MT1 & [MT2 MT2'] & MT3); [lra | lra |].
  set (ad := Qabs (B * d)) in *. set (ae := Qabs (B * e)) in *.
  set (aT := Qabs (B * T)) in *.
  (* the split of the total *)
  assert (Hsplit : B * e + B * d - B * T <= 10 /\ B * T - B * e - B * d <= 10).
  { assert (H1 : (B + 1000000000000000) * ((1 # 100000000000000) - (e + d - T)) >= 0)
      by (apply Qmult_le_0_compat; lra).
    assert (H2 : (1000000000000000 - B) * ((1 # 100000000000000) - (e + d - T)) >= 0)
      by (apply Qmult_le_0_compat; lra).
    assert (H3 : (B + 1000000000000000) * ((1 # 100000000000000) - (T - e - d)) >= 0)
      by (apply Qmult_le_0_compat; lra).
    assert (H4 : (1000000000000000 - B) * ((1 # 100000000000000) - (T - e - d)) >= 0)
      by (apply Qmult_le_0_compat; lra).
    split; lra. }
  (* the prize pool *)
  assert (Hrd : (Z.abs (b - rd) <= 2 ^ 53)%Z).
  { assert (H1 : inject_Z rd <= inject_Z 300000000000001)
      by (change (inject_Z 300000000000001) with 300000000000001; lra).
    assert (H2 : inject_Z (-300000000000001) <= inject_Z rd)
      by (change (inject_Z (-300000000000001)) with (-300000000000001); lra).
    rewrite <- Zle_Qle in H1, H2. unfold maxBuyin in Hb. lia. }
  exists rd, hf, oa. split.
  { unfold rakeOfTier. rewrite ET, Ee, Ed. cbn [toDouble]. unfold B.
    rewrite (Dsub_Z b rd Hrd). reflexivity. }
  split.
  { assert (H1 : inject_Z (hf + oa - rd) < 2).
    { unfold Z.sub. rewrite !inject_Z_plus, inject_Z_opp. lra. }
    assert (H2 : inject_Z (-2) < inject_Z (hf + oa - rd)).
    { unfold Z.sub. rewrite !inject_Z_plus, inject_Z_opp.
      change (inject_Z (-2)) with (-2). lra. }
    change 2 with (inject_Z 2) in H1. rewrite <- Zlt_Qlt in H1, H2. lia. }
  split.
  - intros Hb0.
    assert (HB0 : 0 <= B) by (unfold B; change 0 with (inject_Z 0); now rewrite <- Zle_Qle).
    specialize (Md3 HB0). specialize (Me3 HB0). specialize (MT3 HB0).
    specialize (D3 Hb0). specialize (E3 Hb0). specialize (T3 Hb0).
    rewrite Md3 in *. rewrite Me3 in *. rewrite MT3 in *.
    assert (Gd : B * (e * (1 - 3 * (1 # 9007199254740992))
                      - d * (1 + 3 * (1 # 9007199254740992))) >= 0)
      by (apply Qmult_le_0_compat; lra).
    assert (Ge : B * (T * (1 - 3 * (1 # 9007199254740992))
                      - e * (1 + 3 * (1 # 9007199254740992))) >= 0)
      by (apply Qmult_le_0_compat; lra).
    assert (GT : B * (20 - T * (1 + 3 * (1 # 9007199254740992))) >= 0)
      by (apply Qmult_le_0_compat; lra).
    assert (O0 : (0 <= oa)%Z).
    { unfold oa. apply (Qfloor_resp_le 0 (xd + (1 # 2))). lra. }
    assert (O1 : (oa <= hf)%Z) by (unfold oa, hf; apply Qfloor_resp_le; lra).
    assert (O2 : (hf <= rd)%Z) by (unfold hf, rd; apply Qfloor_resp_le; lra).
    assert (O3 : (rd <= b)%Z).
    { destruct (Z.eq_dec b 0) as [Eb|Nb].
      - assert (EB : B == 0) by (unfold B; now rewrite Eb).
        assert (ExT : xT == 0) by (rewrite EB in *; lra).
        unfold rd. rewrite (Qfloor_comp _ (1 # 2)) by (rewrite ExT; reflexivity).
        rewrite Eb. discriminate.
      - assert (H1 : 1 <= B)
          by (unfold B; change 1 with (inject_Z 1); rewrite <- Zle_Qle; lia).
        assert (H2 : inject_Z rd <= B) by lra.
        unfold B in H2. now rewrite <- Zle_Qle in H2. }
    lia.
  - intros Hb100.
    assert (HB100 : 100 <= B)
      by (unfold B; change 100 with (inject_Z 100); now rewrite <- Zle_Qle).
    assert (HB0 : 0 <= B) by lra.
    specialize (Md3 HB0). specialize (MT3 HB0).
    rewrite Md3 in *. rewrite MT3 in *.
    assert (Gd : (B - 100) * (d * (1 - 3 * (1 # 9007199254740992))) >= 0)
      by (apply Qmult_le_0_compat; lra).
    assert (GT : B * (20 - T * (1 + 3 * (1 # 9007199254740992))) >= 0)
      by (apply Qmult_le_0_compat; lra).
    split.
    + assert (H : (1 <= oa)%Z); [|lia].
      unfold oa. apply (Qfloor_resp_le 1 (xd + (1 # 2))). lra.
    + assert (H : inject_Z rd < B) by lra.
      unfold B in H. now rewrite <- Zlt_Qlt in H.
Qed.

Local Close Scope Q_scope.

(** The invariant does not hold of every buy-in.  The amounts are
    binary64 numbers: at the buy-in 18014398509481932 the prize pool and
    the rake add up to one less than the buy-in, and at 902469822740161024
    they add up to 20 more, while house fee and add-on fall short of the
    rake by 2.  And an event number that names a member the override table
    inherits, such as "constructor", takes the override branch and gives
    [NaN] amounts. *)
Lemma getWSOPRake_invariant_fails :
  (let rake := getWSOPRake (Dbl 18014398509481932) None in
   Rake.rakeDollars rake = Some (JNum 360287970189639)
   /\ Rake.prizePool rake = Some (Dbl 17654110539292292)
   /\ (17654110539292292 + 360287970189639 = 18014398509481932 - 1)%Z)
  /\ (let rake := getWSOPRake (Dbl 902469822740161024) None in
      Rake.rakeDollars rake = Some (JNum 18049396454803220)
      /\ Rake.prizePool rake = Some (Dbl 884420426285357824)
      /\ Rake.houseFee rake = Some (JNum 12634577518362252)
      /\ Rake.optAddOn rake = Some (JNum 5414818936440966)
      /\ (884420426285357824 + 18049396454803220 = 902469822740161024 + 20)%Z
      /\ (12634577518362252 + 5414818936440966 - 18049396454803220 = -2)%Z)
  /\ (let rake := getWSOPRake (Dbl 500) (Some "constructor") in
      Rake.rakePct rake = Some Undefined
      /\ Rake.rakeDollars rake = Some JNaN
      /\ Rake.prizePool rake = Some DNaN
      /\ Rake.houseFee rake = Some JNaN
      /\ Rake.optAddOn rake = Some JNaN).
Proof.
  cbv zeta. repeat split; vm_compute; reflexivity.
Qed.

(** C1, amended.  For a whole buy-in of magnitude up to 10^15 and an
    event number that names no inherited member of the override table,
    [getWSOPRake] returns whole amounts: the prize pool and the rake add
    up to the buy-in exactly, and the house fee plus the optional add-on
    is within one of the rake. *)
Theorem getWSOPRake_invariant :
  forall (buyin : Z) (eventNumber : option string),
    (Z.abs buyin <= maxBuyin)%Z ->
    inheritedName eventNumber = false ->
    exists rakeDollars prizePool houseFee optAddOn : Z,
      Rake.rakeDollars (getWSOPRake (Dbl (inject_Z buyin)) eventNumber)
      = Some (JNum rakeDollars)
      /\ Rake.prizePool (getWSOPRake (Dbl (inject_Z buyin)) eventNumber)
         = Some (Dbl (inject_Z prizePool))
      /\ Rake.houseFee (getWSOPRake (Dbl (inject_Z buyin)) eventNumber)
         = Some (JNum houseFee)
      /\ Rake.optAddOn (getWSOPRake (Dbl (inject_Z buyin)) eventNumber)
         = Some (JNum optAddOn)
      /\ (prizePool + rakeDollars = buyin
          /\ -1 <= houseFee + optAddOn - rakeDollars <= 1)%Z.
Proof.
  intros buyin ev Hb Hev.
  destruct (getWSOPRake_cases (Dbl (inject_Z buyin)) ev) as [[Hi _] | (t & Ht & _ & ->)].
  - unfold inheritedName in Hev. rewrite Hi in Hev. discriminate.
  - destruct (rakeOfTier_amounts buyin t (allTiers_ordered t Ht) Hb)
      as (rd & hf & oa & -> & H1 & _).
    exists rd, (buyin - rd)%Z, hf, oa. cbn [Rake.rakeDollars Rake.prizePool
      Rake.houseFee Rake.optAddOn].
    repeat split; try reflexivity; lia.
Qed.

(** Buy-in 500 without override: 415 + 85 = 500 and 60 + 26 = 85 + 1. *)
Lemma getWSOPRake_invariant_witness :
  exists rakeDollars prizePool houseFee optAddOn : Z,
    Rake.rakeDollars (getWSOPRake (Dbl (inject_Z 500)) None) = Some (JNum rakeDollars)
    /\ Rake.prizePool (getWSOPRake (Dbl (inject_Z 500)) None)
       = Some (Dbl (inject_Z prizePool))
    /\ Rake.houseFee (getWSOPRake (Dbl (inject_Z 500)) None) = Some (JNum houseFee)
    /\ Rake.optAddOn (getWSOPRake (Dbl (inject_Z 500)) None) = Some (JNum optAddOn)
    /\ (prizePool + rakeDollars = 500
        /\ -1 <= houseFee + optAddOn - rakeDollars <= 1)%Z.
Proof.
  apply (getWSOPRake_invariant 500 None); [unfold maxBuyin; lia | reflexivity].
Defined.

(** C4.  The tier is looked up in this order: the override of the event
    number; else the tier whose key is the buy-in; else the tier of the
    greatest key that does not exceed the buy-in; else, for a buy-in that
    no key is at or below, the tier of the lowest key.  Buy-in 500 of event
    "59" gives rake 50 and prize pool 450; buy-in 500 without override
    gives 85 and 415; buy-in 275 is computed with the percentages of the
    tier 300. *)
Theorem getWSOPRake_lookup_order :
  (forall buyin eventNumber override,
      overrideFor eventNumber = Some override ->
      getWSOPRake buyin eventNumber = rakeOfProperty buyin override)
  /\ (forall buyin eventNumber tier,
      overrideFor eventNumber = None ->
      tierOf buyin = Some tier ->
      getWSOPRake buyin eventNumber = rakeOfTier buyin tier)
  /\ (forall buyin eventNumber key tier,
      overrideFor eventNumber = None ->
      In (key, tier) WSOP_RAKE_BY_BUYIN -> leq key buyin = true ->
      (forall key' tier', In (key', tier') WSOP_RAKE_BY_BUYIN ->
                          leq key' buyin = true -> (key' <= key)%Z) ->
      getWSOPRake buyin eventNumber = rakeOfTier buyin tier)
  /\ (forall buyin eventNumber key tier,
      overrideFor eventNumber = None ->
      In (key, tier) WSOP_RAKE_BY_BUYIN ->
      (forall key' tier', In (key', tier') WSOP_RAKE_BY_BUYIN ->
                          leq key' buyin = false /\ (key <= key')%Z) ->
      getWSOPRake buyin eventNumber = rakeOfTier buyin tier)
  /\ (overrideFor (Some "59") = Some (Entry (mkTier 7.0 3.0 10.0))
      /\ Rake.rakeDollars (getWSOPRake (Dbl 500) (Some "59")) = Some (JNum 50)
      /\ Rake.prizePool (getWSOPRake (Dbl 500) (Some "59")) = Some (Dbl 450))
  /\ (overrideFor None = None
      /\ Rake.rakeDollars (getWSOPRake (Dbl 500) None) = Some (JNum 85)
      /\ Rake.prizePool (getWSOPRake (Dbl 500) None) = Some (Dbl 415))
  /\ (tierOf (Dbl 300) = Some (mkTier 12.6 5.4 18.0)
      /\ tierOf (Dbl 275) = None
      /\ getWSOPRake (Dbl 275) None = rakeOfTier (Dbl 275) (mkTier 12.6 5.4 18.0)).
Proof.
  split; [|split; [|split; [|split]]].
  - intros buyin ev t H. unfold getWSOPRake. now rewrite H.
  - intros buyin ev t Hov H. unfold getWSOPRake, resolveTier. now rewrite Hov, H.
  - intros buyin ev key tier Hov Hin Hle Hmax.
    eapply getWSOPRake_fallback; eauto.
    + eapply fallbackTier_greatest; eauto.
    + destruct (tierOf buyin) as [t|] eqn:E; [right | now left].
      apply tierOf_In in E. destruct E as (z & Hz & E).
      pose proof (wholeNumber_leq buyin z z Hz) as Hzz. rewrite Z.leb_refl in Hzz.
      pose proof (Hmax z t E Hzz) as H1.
      rewrite (wholeNumber_leq buyin z key Hz) in Hle. apply Z.leb_le in Hle.
      rewrite Hz. f_equal. lia.
  - intros buyin ev key tier Hov Hin Hlow.
    eapply getWSOPRake_fallback; eauto.
    + eapply fallbackTier_lowest; eauto.
    + left. destruct (tierOf buyin) as [t|] eqn:E; [|reflexivity].
      apply tierOf_In in E. destruct E as (z & Hz & E).
      pose proof (wholeNumber_leq buyin z z Hz) as Hzz. rewrite Z.leb_refl in Hzz.
      destruct (Hlow z t E) as [Hf _]. congruence.
  - split; [|split].
    + split; [vm_compute; reflexivity|]. split; vm_compute; reflexivity.
    + split; [reflexivity|]. split; vm_compute; reflexivity.
    + split; [vm_compute; reflexivity|]. split; vm_compute; reflexivity.
Qed.

(** Event "59" takes its override; buy-in 700 takes the tier 600, the
    greatest key below it; buy-in 275 takes the lowest tier. *)
Lemma getWSOPRake_lookup_order_witness :
  getWSOPRake (Dbl 500) (Some "59") = rakeOfTier (Dbl 500) (mkTier 7.0 3.0 10.0)
  /\ getWSOPRake (Dbl 700) (Some "12") = rakeOfTier (Dbl 700) (mkTier 11.2 4.8 16.0)
  /\ getWSOPRake (Dbl 275) None = rakeOfTier (Dbl 275) (mkTier 12.6 5.4 18.0).
Proof.
  destruct getWSOPRake_lookup_order as (Hov & _ & Hfb & Hlow & _).
  split; [|split].
  - apply (Hov (Dbl 500) (Some "59") (Entry (mkTier 7.0 3.0 10.0))). reflexivity.
  - apply (Hfb (Dbl 700) (Some "12") 600%Z).
    + reflexivity.
    + simpl. tauto.
    + reflexivity.
    + intros key' tier' Hin Hle. simpl in Hin.
      repeat (destruct Hin as [[= <- <-]|Hin];
              [first [lia | vm_compute in Hle; discriminate Hle]|]).
      destruct Hin.
  - apply (Hlow (Dbl 275) None 300%Z).
    + reflexivity.
    + simpl. tauto.
    + intros key' tier' Hin. simpl in Hin.
      repeat (destruct Hin as [[= <- <-]|Hin]; [split; [reflexivity | lia]|]).
      destruct Hin.
Defined.

End RakeEngine.

(* ================================================================== *)
(** ** Game variant classifier *)

Section Classifier.
Import JS WsopParser.

(** Every value of the classifier is one of the labels. *)
Lemma classifyGameVariant_label eventName :
  In (classifyGameVariant eventName) variantLabels.
Proof.
  unfold classifyGameVariant.
  repeat match goal with
         | |- context [if ?b then _ else _] => destruct b; [simpl; tauto|]
         end.
  simpl; tauto.
Qed.

(** The label "7-Card Stud" is returned for names that hold
    "seven card stud"; the label itself does not, and falls through to the
    default. *)
Lemma classifyGameVariant_not_idempotent :
  In "7-Card Stud" variantLabels
  /\ classifyGameVariant "7-Card Stud" = "NLHE"
  /\ ~ (forall label, In label variantLabels -> classifyGameVariant label = label).
Proof.
  split; [simpl; tauto|]. split; [vm_compute; reflexivity|].
  intros H. specialize (H "7-Card Stud").
  assert (Hin : In "7-Card Stud" variantLabels) by (simpl; tauto).
  specialize (H Hin). vm_compute in H. discriminate H.
Qed.

(** C3, amended.  The classifier maps each of its labels to itself, except
    "7-Card Stud". *)
Theorem classifyGameVariant_idempotent_except_stud :
  forall label, In label variantLabels -> label <> "7-Card Stud" ->
    classifyGameVariant label = label.
Proof.
  intros label Hin Hne. simpl in Hin.
  repeat (destruct Hin as [<-|Hin];
          [first [vm_compute; reflexivity | exfalso; apply Hne; reflexivity]|]).
  destruct Hin.
Qed.

Lemma classifyGameVariant_idempotent_except_stud_witness :
  classifyGameVariant "T.O.R.S.E." = "T.O.R.S.E.".
Proof.
  apply classifyGameVariant_idempotent_except_stud.
  - simpl. tauto.
  - discriminate.
Defined.

Lemma indexOf_take s c n :
  indexOf s c = Some n -> indexOf (take n s) c = None.
Proof.
  revert n. induction s as [|x s IH]; simpl; intros n H; [discriminate|].
  destruct (Ascii.eqb x c) eqn:E.
  - injection H as <-. reflexivity.
  - destruct (indexOf s c) as [m|] eqn:Em; [|discriminate].
    injection H as <-. simpl. rewrite E. now rewrite (IH m eq_refl).
Qed.

Lemma mainName_before_semicolon name semi :
  indexOf name ";" = Some semi -> 0 < semi ->
  mainName name = take semi name /\ mainName (take semi name) = take semi name.
Proof.
  intros H Hpos. unfold mainName. rewrite H, (indexOf_take _ _ _ H).
  destruct (Nat.ltb_spec 0 semi); [auto | lia].
Qed.

(** A name that starts with a semicolon is classified on its whole text:
    ";plo" is "PLO", the empty text before its semicolon is "NLHE". *)
Lemma classifyGameVariant_leading_semicolon :
  indexOf ";plo" ";" = Some 0
  /\ classifyGameVariant ";plo" = "PLO"
  /\ classifyGameVariant (take 0 ";plo") = "NLHE"
  /\ ~ (forall name semi, indexOf name ";" = Some semi ->
          classifyGameVariant name = classifyGameVariant (take semi name)).
Proof.
  split; [reflexivity|].
  split; [vm_compute; reflexivity|].
  split; [vm_compute; reflexivity|].
  intros H. specialize (H ";plo" 0 eq_refl). vm_compute in H. discriminate H.
Qed.

(** C8, amended.  For a name whose first semicolon is not its first
    character, the label is that of the text before the first semicolon. *)
Theorem classifyGameVariant_before_semicolon :
  forall name semi,
    indexOf name ";" = Some semi -> 0 < semi ->
    classifyGameVariant name = classifyGameVariant (take semi name).
Proof.
  intros name semi H Hpos.
  destruct (mainName_before_semicolon name semi H Hpos) as [H1 H2].
  unfold classifyGameVariant. rewrite H1, H2. reflexivity.
Qed.

Lemma classifyGameVariant_before_semicolon_witness :
  classifyGameVariant "Mixed: Big O; Razz; PLO" = classifyGameVariant "Mixed: Big O".
Proof.
  apply (classifyGameVariant_before_semicolon "Mixed: Big O; Razz; PLO" 12).
  - reflexivity.
  - lia.
Defined.

End Classifier.

(* ================================================================== *)
(** ** Columnar pipeline *)

Section Columnar.
Import JS Re WsopParser Statements RakeVocabulary ColumnarVocabulary.

Lemma pushed_length {A B} (f : A -> option B) l :
  List.length (pushed f l) <= List.length l.
Proof.
  induction l as [|x l IH]; simpl; [lia|].
  destruct (f x); simpl; lia.
Qed.

Lemma pushed_In {A B} (f : A -> option B) l y :
  In y (pushed f l) -> exists x, In x l /\ f x = Some y.
Proof.
  induction l as [|x l IH]; simpl; [tauto|].
  destruct (f x) as [y'|] eqn:E.
  - intros [<-|H]; [exists x; auto|].
    destruct (IH H) as (x' & ? & ?). exists x'. auto.
  - intros H. destruct (IH H) as (x' & ? & ?). exists x'. auto.
Qed.

Lemma flushName_eventNumbers buf r :
  eventNumbers (flushName buf r) = eventNumbers r.
Proof. destruct buf; reflexivity. Qed.

Lemma collect_eventNumbers sec r line :
  eventNumbers (snd (collect sec r line)) = eventNumbers r.
Proof.
  destruct sec; simpl;
    repeat match goal with
           | |- context [if ?b then _ else _] => destruct b
           | |- context [match ?o with Some _ => _ | None => _ end] => destruct o
           end; reflexivity.
Qed.

(** A line of the loop leaves the event numbers alone or appends the
    line, and appends it only when it matches the event-number pattern. *)
Lemma scanLine_eventNumbers st line :
  eventNumbers (result (scanLine st line)) = eventNumbers (result st)
  \/ (eventNumbers (result (scanLine st line)) = push (eventNumbers (result st)) line
      /\ test eventNumberRe line = true).
Proof.
  unfold scanLine.
  repeat match goal with
         | |- context [if ?b then _ else _] =>
             destruct b; [left; simpl; rewrite ?flushName_eventNumbers; reflexivity|]
         end.
  pose proof (collect_eventNumbers (section st) (result st) line) as Hc.
  destruct (collect (section st) (result st) line) as [sec r]. simpl in Hc.
  destruct sec; try (left; exact Hc).
  - left. destruct (isNewEventName line (eventNameBuffer st)); simpl;
      rewrite ?flushName_eventNumbers; exact Hc.
  - simpl. destruct (test eventNumberRe line) eqn:E; [right | left; exact Hc].
    split; [|reflexivity]. simpl. now rewrite Hc.
Qed.

Lemma scan_eventNumbers all lines st :
  incl lines all ->
  Forall (eventNumberToken all) (eventNumbers (result st)) ->
  Forall (eventNumberToken all) (eventNumbers (result (fold_left scanLine lines st))).
Proof.
  revert st. induction lines as [|line lines IH]; simpl; intros st Hincl Hst; [assumption|].
  apply IH.
  - intros x Hx. apply Hincl. now right.
  - destruct (scanLine_eventNumbers st line) as [-> | [-> Hm]]; [assumption|].
    unfold push. apply Forall_app. split; [assumption|].
    constructor; [|constructor]. split; [assumption|]. apply Hincl. now left.
Qed.

Lemma findSections_eventNumbers lines :
  Forall (eventNumberToken lines) (eventNumbers (findSections lines)).
Proof.
  unfold findSections. simpl. rewrite flushName_eventNumbers.
  apply scan_eventNumbers; [apply incl_refl | constructor].
Qed.

(** A pushed record holds the event number of its position. *)
Lemma parseEvent_fields sections valid year i t :
  parseEvent sections valid year i = Some t ->
  Tournament.eventNumber t = nth i (eventNumbers sections) "".
Proof.
  unfold parseEvent.
  repeat match goal with
         | |- context [if ?b then _ else _] => destruct b; try discriminate
         | |- context [match ?o with Some _ => _ | None => _ end] =>
             destruct o; try discriminate
         | |- context [match ?j with JNum _ => _ | JNaN => _ end] =>
             destruct j; try discriminate
         end.
  all: intros [= <-]; reflexivity.
Qed.

Lemma parseWSOP2025Schedule_In text year t :
  In t (parseWSOP2025Schedule text year) ->
  exists page, In page (splitPages text) /\ In t (parsePage page year).
Proof.
  unfold parseWSOP2025Schedule. intros H. apply in_flat_map in H.
  destruct H as (page & Hpage & Ht). exists page. split; [assumption|].
  destruct (isInfoPage page); [destruct Ht | assumption].
Qed.

Lemma parsePage_In pageText year t :
  In t (parsePage pageText year) ->
  exists sections valid i, parseEvent sections valid year i = Some t.
Proof.
  unfold parsePage. destruct (eventNumbers _); [intros []|].
  intros H. apply pushed_In in H. destruct H as (i & _ & H). eauto.
Qed.

Lemma parseEvent_record sections valid year i t :
  parseEvent sections valid year i = Some t ->
  exists rowIdx buyin,
    nth_error valid i = Some rowIdx
    /\ nth_error (allBuyins sections) rowIdx = Some (Some buyin)
    /\ atLeast 100 buyin
    /\ test mainEventDayRe (orEmpty (nth_error (eventNames sections) i)) = false
    /\ t = recordOf sections year i rowIdx buyin.
Proof.
  unfold parseEvent.
  destruct (test mainEventDayRe _) eqn:Hday; [discriminate|].
  destruct (nth_error valid i) as [rowIdx|]; [|discriminate].
  destruct (nth_error (allBuyins sections) rowIdx) as [[buyin|]|] eqn:Hb; try discriminate.
  destruct (falsyNumber buyin || lessThan buyin 100) eqn:Hlow; [discriminate|].
  intros [= <-]. exists rowIdx, buyin.
  apply orb_false_elim in Hlow. destruct Hlow as [Hfalsy Hlow].
  repeat split; auto.
  destruct buyin as [z| | |]; simpl in *; try discriminate; [|exact I].
  now apply Z.ltb_ge in Hlow.
Qed.

Lemma parsePage_record pageText year t :
  In t (parsePage pageText year) ->
  exists i rowIdx buyin,
    let sections := findSections (pageLines pageText) in
    i < List.length (eventNumbers sections)
    /\ nth_error (nonNullIndices 0 (allBuyins sections)) i = Some rowIdx
    /\ nth_error (allBuyins sections) rowIdx = Some (Some buyin)
    /\ atLeast 100 buyin
    /\ test mainEventDayRe (orEmpty (nth_error (eventNames sections) i)) = false
    /\ t = recordOf sections year i rowIdx buyin.
Proof.
  unfold parsePage. destruct (eventNumbers _) eqn:E; [intros []|]. rewrite <- E.
  intros H. apply pushed_In in H. destruct H as (i & Hi & H).
  apply in_seq in Hi. apply parseEvent_record in H.
  destruct H as (rowIdx & buyin & H1 & H2 & H3 & H4 & H5).
  exists i, rowIdx, buyin. cbv zeta. repeat split; auto; lia.
Qed.

(** No event number of a page names an inherited member of the override
    table: it starts with a digit. *)
Lemma eventNumber_not_inherited n :
  test eventNumberRe n = true -> inheritedName (Some n) = false.
Proof.
  intros Hn. unfold inheritedName, overrideFor, tierOfEvent.
  destruct (truthy n); [|reflexivity].
  destruct (ownEntry _ n); [reflexivity|].
  destruct (existsb (String.eqb n) objectPrototypeNames) eqn:E; [|reflexivity].
  exfalso. apply existsb_exists in E. destruct E as (x & Hx & E).
  apply String.eqb_eq in E. subst x. simpl in Hx.
  repeat (destruct Hx as [<-|Hx]; [vm_compute in Hn; discriminate Hn|]). destruct Hx.
Qed.

Lemma columnar_record_rake text year t :
  In t (parseWSOP2025Schedule text year) ->
  atLeast 100 (Tournament.buyin t)
  /\ Tournament.time t <> ""
  /\ Tournament.venue t = "WSOP Las Vegas"
  /\ In (Tournament.gameVariant t) variantLabels
  /\ exists tier,
       In tier allTiers
       /\ (let rake := rakeOfTier (toDouble (Tournament.buyin t)) tier in
           Tournament.prizePool t = Rake.prizePool rake
           /\ Tournament.houseFee t = Rake.houseFee rake
           /\ Tournament.optAddOn t = Rake.optAddOn rake
           /\ Tournament.rakePct t = Rake.rakePct rake
           /\ Tournament.rakeDollars t = Rake.rakeDollars rake).
Proof.
  intros Hin.
  destruct (parseWSOP2025Schedule_In _ _ _ Hin) as (page & _ & Hpage).
  destruct (parsePage_record _ _ _ Hpage) as (i & rowIdx & buyin & H).
  cbv zeta in H. destruct H as (Hi & _ & _ & Hb & _ & ->).
  set (sections := findSections (pageLines page)) in *.
  assert (Hnum : test eventNumberRe (nth i (eventNumbers sections) "")
                 = true).
  { pose proof (findSections_eventNumbers (pageLines page)) as Htok.
    fold sections in Htok. rewrite Forall_forall in Htok.
    exact (proj1 (Htok _ (nth_In _ _ Hi))). }
  unfold recordOf.
  cbn [Tournament.rakeDollars Tournament.prizePool
       Tournament.houseFee Tournament.optAddOn
       Tournament.rakePct Tournament.buyin
       Tournament.time Tournament.venue
       Tournament.gameVariant].
  split; [assumption|]. split.
  { destruct (nth_error (times sections) rowIdx) as [tm|]; [|discriminate].
    destruct tm; simpl; discriminate. }
  split; [reflexivity|]. split; [apply classifyGameVariant_label|].
  destruct (getWSOPRake_cases (toDouble buyin)
              (Some (nth i (eventNumbers sections) "")))
    as [[Hinh _] | (tier & Htier & _ & ->)].
  - apply eventNumber_not_inherited in Hnum. unfold inheritedName in Hnum.
    rewrite Hinh in Hnum. discriminate.
  - exists tier. split; [assumption|]. cbv zeta. repeat split; reflexivity.
Qed.

(** C7.  A page never yields more records than it has event-number tokens
    (the lines of the EV# section that match the event-number pattern),
    and the event number of every record is one of these tokens, hence a
    non-empty string. *)
Theorem parsePage_bounded_by_event_numbers :
  forall (pageText : string) (year : Z),
    let tokens := eventNumbers (findSections (pageLines pageText)) in
    Forall (eventNumberToken (pageLines pageText)) tokens
    /\ List.length (parsePage pageText year) <= List.length tokens
    /\ (forall t, In t (parsePage pageText year) ->
          Tournament.eventNumber t <> "" /\ In (Tournament.eventNumber t) tokens).
Proof.
  intros pageText year tokens.
  pose proof (findSections_eventNumbers (pageLines pageText)) as Htok.
  fold tokens in Htok. split; [assumption|].
  unfold parsePage. fold tokens.
  destruct tokens as [|n0 tokens'] eqn:E.
  - split; [simpl; lia | intros t []].
  - rewrite <- E in *. split.
    + etransitivity; [apply pushed_length|]. now rewrite length_seq.
    + intros t Ht. apply pushed_In in Ht. destruct Ht as (i & Hi & Hp).
      apply in_seq in Hi. apply parseEvent_fields in Hp.
      fold tokens in Hp. rewrite E in Hp. rewrite <- E in Hp.
      assert (Hin : In (Tournament.eventNumber t) tokens).
      { rewrite Hp. apply nth_In. lia. }
      split; [|assumption].
      rewrite Forall_forall in Htok. destruct (Htok _ Hin) as [Hm _].
      intros Hempty. rewrite Hempty in Hm. vm_compute in Hm. discriminate Hm.
Qed.

(** The sample page has two event numbers and yields two records. *)
Lemma parsePage_bounded_by_event_numbers_witness :
  List.length (parsePage samplePage 2026) <= 2
  /\ Forall (fun t => Tournament.eventNumber t <> "") (parsePage samplePage 2026).
Proof.
  destruct (parsePage_bounded_by_event_numbers samplePage 2026) as (_ & Hlen & Hnum).
  split.
  - exact Hlen.
  - apply Forall_forall. intros t Ht. exact (proj1 (Hnum t Ht)).
Defined.

End Columnar.

(* ================================================================== *)
(** ** Row pipeline *)

Section RowPipeline.
Import JS Re GenericParser Statements.
Import WsopParser (push, splitPages).

Lemma groupLines_nonempty lines rows currentRow :
  Forall (fun row => row <> []) rows ->
  (forall row, currentRow = Some row -> row <> []) ->
  Forall (fun row => row <> []) (groupLines lines rows currentRow).
Proof.
  revert rows currentRow.
  induction lines as [|line lines IH]; simpl; intros rows cur Hrows Hcur.
  - destruct cur as [row|]; [|assumption].
    unfold push. apply Forall_app. split; [assumption|].
    constructor; [eauto | constructor].
  - destruct (test ROW_START_RE line).
    + apply IH; [|intros row [= <-]; discriminate].
      destruct cur as [row|]; [|assumption].
      unfold push. apply Forall_app. split; [assumption|].
      constructor; [eauto | constructor].
    + destruct cur as [row|]; apply IH; auto; try discriminate.
      intros row' [= <-]. unfold push. destruct row; discriminate.
Qed.

(** Every row starts with the line that opened it. *)
Lemma groupIntoRows_nonempty lines :
  Forall (fun row => row <> []) (groupIntoRows lines).
Proof.
  apply groupLines_nonempty; [constructor | discriminate].
Qed.

Lemma parseRow_returns rowLines year venue :
  rowLines <> [] -> exists parsed, parseRow rowLines year venue = Returns parsed.
Proof.
  intros Hne. unfold parseRow. destruct rowLines as [|line0 rest]; [congruence|].
  destruct (exec dateRe (rowJoined (line0 :: rest))); eauto.
Qed.

Lemma parseRows_returns rows year venue :
  Forall (fun row => row <> []) rows ->
  exists ts, parseRows rows year venue = Returns ts.
Proof.
  induction 1 as [|row rows Hrow _ IH]; simpl; [eauto|].
  destruct (parseRow_returns row year venue Hrow) as [parsed ->].
  destruct IH as [ts ->]. eauto.
Qed.

Lemma parseRows_In rows year venue ts t :
  parseRows rows year venue = Returns ts -> In t ts ->
  exists row, In row rows /\ parseRow row year venue = Returns (Some t).
Proof.
  revert ts. induction rows as [|row rows IH]; simpl; intros ts H Hin.
  - injection H as <-. destruct Hin.
  - destruct (parseRow row year venue) as [parsed|] eqn:E; [|discriminate].
    destruct (parseRows rows year venue) as [ts'|]; [|discriminate].
    injection H as <-.
    destruct parsed as [t0|].
    + destruct Hin as [<-|Hin]; [exists row; auto|].
      destruct (IH ts' eq_refl Hin) as (r & ? & ?). exists r. auto.
    + destruct (IH ts' eq_refl Hin) as (r & ? & ?). exists r. auto.
Qed.

Lemma linkRestart_same entries t0 : sameButParent (linkRestart entries t0) t0.
Proof.
  unfold linkRestart.
  destruct (Tournament.isRestart t0 && falsy (Tournament.parentEvent t0)); [|now left].
  destruct (find _ entries) as [num|]; [right; eauto | now left].
Qed.

Lemma linkRestartsToParents_In ts t :
  In t (linkRestartsToParents ts) -> exists t0, In t0 ts /\ sameButParent t t0.
Proof.
  unfold linkRestartsToParents. intros H. apply in_map_iff in H.
  destruct H as (t0 & <- & Hin). exists t0. split; [assumption | apply linkRestart_same].
Qed.

Lemma parseGenericSchedule_In currentYear text options ts t :
  parseGenericSchedule currentYear text options = Returns ts -> In t ts ->
  exists rowLines, parsedFrom rowLines t.
Proof.
  unfold parseGenericSchedule. intros H Hin.
  match type of H with
  | match parseRows ?rows ?y ?v with _ => _ end = _ =>
      destruct (parseRows rows y v) as [ts0|] eqn:E; [|discriminate]
  end.
  injection H as <-.
  destruct (linkRestartsToParents_In _ _ Hin) as (t0 & Hin0 & Hsame).
  destruct (parseRows_In _ _ _ _ _ E Hin0) as (row & _ & Hrow).
  exists row. unfold parsedFrom. eauto.
Qed.

Lemma detectYear_stated y1 y2 allText :
  test yearRe (slice allText 0 500) = true ->
  detectYear y1 allText = detectYear y2 allText.
Proof.
  unfold detectYear, test.
  destruct (exec yearRe (slice allText 0 500)); [reflexivity | discriminate].
Qed.

(** The same text read in 2026 and in 2027 gives records dated 2026 and
    2027. *)
Lemma parseGenericSchedule_depends_on_date :
  test yearRe (headerOf "MON JAN 5 10AM NLH $100 $90") = false
  /\ parseGenericSchedule 2026 "MON JAN 5 10AM NLH $100 $90" noOptions
     <> parseGenericSchedule 2027 "MON JAN 5 10AM NLH $100 $90" noOptions.
Proof. split; [vm_compute; reflexivity | vm_compute; discriminate]. Qed.

(** C2, amended.  Two runs of [parseGenericSchedule] on the same text and
    options give the same result whatever the current dates are, provided
    the first 500 characters of the text state a year 2020..2039. *)
Theorem parseGenericSchedule_deterministic_given_year :
  forall (year1 year2 : Z) (text : string) (options : Options.t),
    test yearRe (headerOf text) = true ->
    parseGenericSchedule year1 text options = parseGenericSchedule year2 text options.
Proof.
  intros y1 y2 text options H. unfold parseGenericSchedule.
  rewrite (detectYear_stated y1 y2 _ H). reflexivity.
Qed.

Lemma parseGenericSchedule_deterministic_given_year_witness :
  parseGenericSchedule 2030 "2026 WINTER OPEN
MON JAN 5 10AM NLH $100 $90" noOptions
  = parseGenericSchedule 2031 "2026 WINTER OPEN
MON JAN 5 10AM NLH $100 $90" noOptions.
Proof.
  apply parseGenericSchedule_deterministic_given_year. vm_compute. reflexivity.
Defined.







Lemma buyinOf_zero totalEntry isRestart isFreeroll :
  buyinOf totalEntry isRestart isFreeroll = JNum 0 ->
  isRestart = true \/ isFreeroll = true \/ totalEntry = JNum 0.
Proof.
  unfold buyinOf. destruct isFreeroll; [auto|]. destruct isRestart; auto.
Qed.

Lemma totalEntryOf_zero ds :
  totalEntryOf ds = JNum 0 ->
  ds = [] \/ exists d ds', ds = d :: ds' /\ value d = JNum 0.
Proof.
  destruct ds as [|d ds']; [now left|]. simpl. intros H. right. eauto.
Qed.

(** How [parseRow] fills [buyin], [isRestart] and [parentEvent]. *)
Lemma parseRow_flags rowLines year venue t :
  parseRow rowLines year venue = Returns (Some t) ->
  Tournament.buyin t
  = buyinOf (rowTotalEntry rowLines) (Tournament.isRestart t) (rowIsFreeroll rowLines)
  /\ Tournament.isRestart t = isRestartOf (rowEventName rowLines)
  /\ Tournament.parentEvent t
     = parentEventOf (rowEventName rowLines) (Tournament.isRestart t).
Proof.
  unfold parseRow. destruct rowLines as [|line0 rest]; [discriminate|].
  destruct (exec dateRe (rowJoined (line0 :: rest))); [|discriminate].
  intros [= <-]. simpl. auto.
Qed.

(** A row without any dollar amount: buy-in 0, no restart, no freeroll. *)
Lemma row_buyin_zero_without_flag :
  exists t,
    parseGenericSchedule 2026 "WED JAN 14 10AM NLH TOURNAMENT" noOptions = Returns [t]
    /\ parseRow ["WED JAN 14 10AM NLH TOURNAMENT"] 2026 "Unknown Venue" = Returns (Some t)
    /\ Tournament.buyin t = JNum 0
    /\ Tournament.isRestart t = false
    /\ rowIsFreeroll ["WED JAN 14 10AM NLH TOURNAMENT"] = false
    /\ ~ (forall rowLines year venue t',
            parseRow rowLines year venue = Returns (Some t') ->
            Tournament.buyin t' = JNum 0 ->
            Tournament.isRestart t' = true \/ rowIsFreeroll rowLines = true).
Proof.
  eexists. split; [vm_compute; reflexivity|].
  split; [vm_compute; reflexivity|].
  do 2 (split; [reflexivity|]).
  split; [vm_compute; reflexivity|].
  intros H.
  specialize (H ["WED JAN 14 10AM NLH TOURNAMENT"] 2026%Z "Unknown Venue").
  vm_compute in H.
  specialize (H _ eq_refl eq_refl). destruct H; discriminate.
Qed.

(** C6, amended.  A record of the row pipeline with buy-in 0 is a restart,
    or its row carries a freeroll flag, or its row has no column amount,
    or the first column amount of its row reads 0. *)
Theorem row_buyin_zero_cases :
  forall currentYear text options ts t,
    parseGenericSchedule currentYear text options = Returns ts ->
    In t ts ->
    Tournament.buyin t = JNum 0 ->
    exists rowLines,
      parsedFrom rowLines t
      /\ (Tournament.isRestart t = true
          \/ rowIsFreeroll rowLines = true
          \/ rowColumnDollars rowLines = []
          \/ exists d ds, rowColumnDollars rowLines = d :: ds /\ value d = JNum 0).
Proof.
  intros y text options ts t Hparse Hin Hzero.
  destruct (parseGenericSchedule_In _ _ _ _ _ Hparse Hin) as (rowLines & Hfrom).
  exists rowLines. split; [assumption|].
  destruct Hfrom as (year & venue & t0 & Hrow & Hsame).
  destruct (parseRow_flags _ _ _ _ Hrow) as (Hb & _ & _).
  assert (Hb' : Tournament.buyin t = Tournament.buyin t0
                /\ Tournament.isRestart t = Tournament.isRestart t0)
    by (destruct Hsame as [-> | [p ->]]; auto).
  destruct Hb' as [Hb1 Hb2]. rewrite Hb1, Hb in Hzero. rewrite Hb2.
  destruct (buyinOf_zero _ _ _ Hzero) as [H | [H | H]]; auto.
  unfold rowTotalEntry in H. destruct (totalEntryOf_zero _ H); auto.
Qed.

Lemma row_buyin_zero_cases_witness :
  exists t,
    parseGenericSchedule 2026 "SAT JAN 17 9AM DEALER APPRECIATION FREEROLL $50 20K 20"
                         noOptions = Returns [t]
    /\ exists rowLines,
         parsedFrom rowLines t
         /\ (Tournament.isRestart t = true
             \/ rowIsFreeroll rowLines = true
             \/ rowColumnDollars rowLines = []
             \/ exists d ds, rowColumnDollars rowLines = d :: ds /\ value d = JNum 0).
Proof.
  eexists. split; [vm_compute; reflexivity|].
  eapply (row_buyin_zero_cases 2026%Z
            "SAT JAN 17 9AM DEALER APPRECIATION FREEROLL $50 20K 20" noOptions);
    [vm_compute; reflexivity | left; reflexivity | reflexivity].
Defined.

(** C9.  A row whose event name is "NLH MAIN EVENT DAY 2 RESTART" gives a
    restart with buy-in 0, whatever its total-entry column holds, and
    parent "MAIN EVENT". *)
Theorem parseRow_main_event_restart :
  forall rowLines year venue t,
    parseRow rowLines year venue = Returns (Some t) ->
    rowEventName rowLines = "NLH MAIN EVENT DAY 2 RESTART" ->
    Tournament.isRestart t = true
    /\ Tournament.buyin t = JNum 0
    /\ Tournament.parentEvent t = Some "MAIN EVENT".
Proof.
  intros rowLines year venue t Hrow Hname.
  destruct (parseRow_flags _ _ _ _ Hrow) as (Hb & Hr & Hp).
  rewrite Hname in Hr, Hp.
  assert (Hrestart : Tournament.isRestart t = true)
    by (rewrite Hr; vm_compute; reflexivity).
  rewrite Hrestart in Hb, Hp. split; [assumption|]. split.
  - rewrite Hb. unfold buyinOf. destruct (rowIsFreeroll rowLines); reflexivity.
  - rewrite Hp. vm_compute. reflexivity.
Qed.

(** The row carries a total entry of 1100. *)
Lemma parseRow_main_event_restart_witness :
  rowTotalEntry mainEventRestartRow = JNum 1100
  /\ exists t,
       parseRow mainEventRestartRow 2026 "MGM National Harbor" = Returns (Some t)
       /\ Tournament.isRestart t = true
       /\ Tournament.buyin t = JNum 0
       /\ Tournament.parentEvent t = Some "MAIN EVENT".
Proof.
  split; [vm_compute; reflexivity|].
  eexists. split; [vm_compute; reflexivity|].
  eapply (parseRow_main_event_restart mainEventRestartRow 2026%Z "MGM National Harbor");
    vm_compute; reflexivity.
Defined.

(** C10.  [parseGenericSchedule] returns a list and never throws;
    [parseWSOP2025Schedule], which has no statement that throws, returns
    the empty list when no page has an event number; a page without event
    numbers yields no record; a row without a date is dropped. *)
Theorem parsers_never_throw :
  (forall currentYear text options,
      exists ts, parseGenericSchedule currentYear text options = Returns ts)
  /\ (forall text year,
      (forall page, In page (splitPages text) ->
         WsopParser.eventNumbers (WsopParser.findSections (WsopParser.pageLines page)) = []) ->
      WsopParser.parseWSOP2025Schedule text year = [])
  /\ (forall pageText year,
      WsopParser.eventNumbers (WsopParser.findSections (WsopParser.pageLines pageText)) = [] ->
      WsopParser.parsePage pageText year = [])
  /\ (forall rowLines year venue,
      rowLines <> [] ->
      exec dateRe (rowJoined rowLines) = None ->
      parseRow rowLines year venue = Returns None).
Proof.
  assert (Hpage : forall pageText year,
      WsopParser.eventNumbers (WsopParser.findSections (WsopParser.pageLines pageText)) = [] ->
      WsopParser.parsePage pageText year = []).
  { intros pageText year H. unfold WsopParser.parsePage. now rewrite H. }
  split; [|split; [|split]].
  - intros y text options. unfold parseGenericSchedule.
    match goal with
    | |- context [parseRows (groupIntoRows ?ls) ?yr ?v] =>
        destruct (parseRows_returns (groupIntoRows ls) yr v (groupIntoRows_nonempty ls))
          as [ts ->]
    end.
    eauto.
  - intros text year H. unfold WsopParser.parseWSOP2025Schedule.
    induction (splitPages text) as [|page pages IH]; [reflexivity|].
    simpl. rewrite IH by (intros p Hp; apply H; now right).
    destruct (WsopParser.isInfoPage page); [reflexivity|].
    rewrite Hpage by (apply H; now left). reflexivity.
  - exact Hpage.
  - intros rowLines year venue Hne Hdate. unfold parseRow.
    destruct rowLines as [|line0 rest]; [congruence|]. now rewrite Hdate.
Qed.

Lemma parsers_never_throw_witness :
  WsopParser.parseWSOP2025Schedule pageWithoutEvents 2026 = []
  /\ WsopParser.parsePage pageWithoutEvents 2026 = []
  /\ parseRow ["EVENT SCHEDULE"; "subject to change"] 2026 "Wynn Las Vegas" = Returns None
  /\ exists ts, parseGenericSchedule 2026 "EVENT SCHEDULE
subject to change" noOptions = Returns ts.
Proof.
  destruct parsers_never_throw as (Hgen & Hwsop & Hpage & Hrow).
  split; [|split; [|split]].
  - apply Hwsop. intros page Hin.
    assert (Hpages : splitPages pageWithoutEvents = [pageWithoutEvents])
      by (vm_compute; reflexivity).
    rewrite Hpages in Hin. destruct Hin as [<-|[]]. vm_compute. reflexivity.
  - apply Hpage. vm_compute. reflexivity.
  - apply Hrow; [discriminate | vm_compute; reflexivity].
  - apply Hgen.
Defined.

End RowPipeline.

(* ================================================================== *)
(** ** Rake engine: bounds *)

Section RakeBounds.
Import JS WsopParser Statements RakeVocabulary.

(** X1.  For a whole buy-in from 0 to 10^15 and an event number that names
    no inherited member of the override table, the fees nest: 0 <=
    optAddOn <= houseFee <= rakeDollars <= buyin, and the prize pool lies
    between 0 and the buy-in. *)
Theorem getWSOPRake_bounds :
  forall (buyin : Z) (eventNumber : option string),
    (0 <= buyin <= maxBuyin)%Z ->
    inheritedName eventNumber = false ->
    exists rakeDollars prizePool houseFee optAddOn : Z,
      Rake.rakeDollars (getWSOPRake (Dbl (inject_Z buyin)) eventNumber)
      = Some (JNum rakeDollars)
      /\ Rake.prizePool (getWSOPRake (Dbl (inject_Z buyin)) eventNumber)
         = Some (Dbl (inject_Z prizePool))
      /\ Rake.houseFee (getWSOPRake (Dbl (inject_Z buyin)) eventNumber)
         = Some (JNum houseFee)
      /\ Rake.optAddOn (getWSOPRake (Dbl (inject_Z buyin)) eventNumber)
         = Some (JNum optAddOn)
      /\ (0 <= optAddOn <= houseFee)%Z /\ (houseFee <= rakeDollars)%Z
      /\ (rakeDollars <= buyin)%Z /\ (0 <= prizePool <= buyin)%Z.
Proof.
  intros buyin ev Hb Hev.
  destruct (getWSOPRake_cases (Dbl (inject_Z buyin)) ev) as [[Hi _] | (t & Ht & _ & ->)].
  - unfold inheritedName in Hev. rewrite Hi in Hev. discriminate.
  - destruct (rakeOfTier_amounts buyin t (allTiers_ordered t Ht))
      as (rd & hf & oa & -> & _ & H & _); [lia|].
    destruct H as [H1 H2]; [lia|].
    exists rd, (buyin - rd)%Z, hf, oa. cbn [Rake.rakeDollars Rake.prizePool
      Rake.houseFee Rake.optAddOn].
    repeat split; try reflexivity; lia.
Qed.

(** Buy-in 500 without override: 0 <= 26 <= 60 <= 85 <= 500, prize pool
    415. *)
Lemma getWSOPRake_bounds_witness :
  Rake.rakeDollars (getWSOPRake (Dbl (inject_Z 500)) None) = Some (JNum 85)
  /\ exists rakeDollars prizePool houseFee optAddOn : Z,
       Rake.rakeDollars (getWSOPRake (Dbl (inject_Z 500)) None) = Some (JNum rakeDollars)
       /\ Rake.prizePool (getWSOPRake (Dbl (inject_Z 500)) None)
          = Some (Dbl (inject_Z prizePool))
       /\ Rake.houseFee (getWSOPRake (Dbl (inject_Z 500)) None) = Some (JNum houseFee)
       /\ Rake.optAddOn (getWSOPRake (Dbl (inject_Z 500)) None) = Some (JNum optAddOn)
       /\ (0 <= optAddOn <= houseFee)%Z /\ (houseFee <= rakeDollars)%Z
       /\ (rakeDollars <= 500)%Z /\ (0 <= prizePool <= 500)%Z.
Proof.
  split; [vm_compute; reflexivity|].
  apply (getWSOPRake_bounds 500 None); [unfold maxBuyin; lia | reflexivity].
Defined.

(** X2.  [getWSOPRake] never reaches its final return of nulls, whatever
    number the buy-in is: it computes from a tier of its tables, and the
    percentage it returns is that tier's total; or, when the event number
    names a member the override table inherits, it computes from that
    member, and returns an undefined percentage and [NaN] amounts. *)
Theorem getWSOPRake_never_unknown :
  forall (buyin : double) (eventNumber : option string),
    rakeAllPresent (getWSOPRake buyin eventNumber)
    /\ ((inheritedName eventNumber = true
         /\ getWSOPRake buyin eventNumber = rakeOfInherited)
        \/ (inheritedName eventNumber = false
            /\ exists tier,
                 In tier allTiers
                 /\ getWSOPRake buyin eventNumber = rakeOfTier buyin tier
                 /\ Rake.rakePct (getWSOPRake buyin eventNumber)
                    = Some (Num (literal (totalPct tier))))).
Proof.
  intros buyin ev. split; [apply getWSOPRake_present|].
  unfold inheritedName.
  destruct (getWSOPRake_cases buyin ev) as [[Hi ->] | (t & Ht & Hn & ->)].
  - left. rewrite Hi. split; reflexivity.
  - right. split.
    + destruct (overrideFor ev) as [[|]|]; try reflexivity. now elim Hn.
    + exists t. repeat split; assumption || reflexivity.
Qed.
End RakeBounds.

(* ================================================================== *)
(** ** Classifier: letter case *)

Section ClassifierCase.
Import JS WsopParser.

Lemma toLower_semicolon c : Ascii.eqb (toLower c) ";" = Ascii.eqb c ";".
Proof.
  destruct c as [[] [] [] [] [] [] [] []]; vm_compute; reflexivity.
Qed.

Lemma indexOf_toLowerCase s : indexOf (toLowerCase s) ";" = indexOf s ";".
Proof.
  induction s as [|c s IH]; simpl; [reflexivity|].
  rewrite toLower_semicolon, IH. reflexivity.
Qed.

Lemma take_toLowerCase n s : toLowerCase (take n s) = take n (toLowerCase s).
Proof.
  revert s. induction n as [|n IH]; intros [|c s]; simpl; try reflexivity.
  now rewrite IH.
Qed.

Lemma mainName_toLowerCase s : toLowerCase (mainName s) = mainName (toLowerCase s).
Proof.
  unfold mainName. rewrite indexOf_toLowerCase.
  destruct (indexOf s ";") as [semi|]; [|reflexivity].
  destruct (0 <? semi); [apply take_toLowerCase | reflexivity].
Qed.

(** X3.  The classifier does not look at the case of letters: two names
    that agree once lower-cased get the same label. *)
Theorem classifyGameVariant_ignores_case :
  forall a b : string,
    toLowerCase a = toLowerCase b -> classifyGameVariant a = classifyGameVariant b.
Proof.
  intros a b H. unfold classifyGameVariant.
  rewrite !mainName_toLowerCase, H. reflexivity.
Qed.

Lemma classifyGameVariant_ignores_case_witness :
  classifyGameVariant "POT-LIMIT OMAHA Hi-Lo" = classifyGameVariant "pot-limit omaha HI-LO".
Proof. apply classifyGameVariant_ignores_case. reflexivity. Defined.
End ClassifierCase.

(* ================================================================== *)
(** ** Columnar pipeline: the records of a page *)

Section ColumnarRecords.
Import JS Re WsopParser Statements ColumnarVocabulary.

(** X4.  Every record of the columnar pipeline has a buy-in of at least
    100, carries exactly the rake [getWSOPRake] gives for its buy-in and
    event number, is no MAIN EVENT continuation day, and never has an
    empty time or a chip count of 0 (or [NaN]). *)
Theorem columnar_record_facts :
  forall (text : string) (year : Z) (t : Tournament.t),
    In t (parseWSOP2025Schedule text year) ->
    atLeast 100 (Tournament.buyin t)
    /\ (let rake := getWSOPRake (toDouble (Tournament.buyin t))
                                (Some (Tournament.eventNumber t)) in
        Tournament.prizePool t = Rake.prizePool rake
        /\ Tournament.houseFee t = Rake.houseFee rake
        /\ Tournament.optAddOn t = Rake.optAddOn rake
        /\ Tournament.rakePct t = Rake.rakePct rake
        /\ Tournament.rakeDollars t = Rake.rakeDollars rake)
    /\ test mainEventDayRe (Tournament.eventName t) = false
    /\ Tournament.time t <> ""
    /\ Tournament.startingChips t <> Some (JNum 0)
    /\ Tournament.startingChips t <> Some JNaN
    /\ Tournament.gameVariant t = classifyGameVariant (Tournament.eventName t)
    /\ Tournament.venue t = "WSOP Las Vegas".
Proof.
  intros text year t Hin.
  destruct (parseWSOP2025Schedule_In _ _ _ Hin) as (page & _ & Hpage).
  destruct (parsePage_record _ _ _ Hpage) as (i & rowIdx & buyin & H).
  cbv zeta in H. destruct H as (_ & _ & _ & Hb & Hday & ->).
  set (sections := findSections (pageLines page)).
  unfold recordOf. cbn [Tournament.buyin Tournament.eventNumber Tournament.prizePool
    Tournament.houseFee Tournament.optAddOn Tournament.rakePct Tournament.rakeDollars
    Tournament.eventName Tournament.time Tournament.startingChips Tournament.gameVariant
    Tournament.venue].
  split; [assumption|]. split; [repeat split|]. split; [assumption|].
  split; [|split; [|split; [|split; reflexivity]]].
  - destruct (nth_error (times sections) rowIdx) as [tm|]; [|discriminate].
    destruct tm; simpl; discriminate.
  - unfold chipsOrNull.
    destruct (nth_error (chips sections) i) as [[[z| | |]|]|]; try discriminate.
    simpl. destruct (Z.eqb_spec z 0); [discriminate|]. congruence.
  - unfold chipsOrNull.
    destruct (nth_error (chips sections) i) as [[[z| | |]|]|]; try discriminate.
    simpl. destruct (z =? 0)%Z; discriminate.
Qed.

Lemma columnar_record_facts_witness :
  exists t,
    nth_error (parseWSOP2025Schedule samplePage 2026) 0 = Some t
    /\ atLeast 100 (Tournament.buyin t)
    /\ Tournament.time t <> "".
Proof.
  eexists. split; [vm_compute; reflexivity|].
  match goal with
  | |- atLeast 100 (Tournament.buyin ?t) /\ _ =>
      destruct (columnar_record_facts samplePage 2026%Z t) as (H1 & _ & _ & H2 & _);
      [vm_compute; left; reflexivity | split; assumption]
  end.
Defined.

Lemma collect_section sec r line :
  fst (collect sec r line) = sec \/ fst (collect sec r line) = EventNames.
Proof.
  destruct sec; simpl; auto.
  destruct (test levelsLineRe line || test firstRe line); simpl; auto.
Qed.

(** Only the line "EV#" opens the event-number section, and event numbers
    are collected in that section only. *)
Lemma scanLine_marker st line :
  line <> "EV#" -> section st <> EventNumbers ->
  section (scanLine st line) <> EventNumbers
  /\ eventNumbers (result (scanLine st line)) = eventNumbers (result st).
Proof.
  intros Hline Hsec. unfold scanLine.
  destruct (String.eqb_spec line "EV#") as [->|_]; [congruence|].
  repeat match goal with
         | |- context [if ?b then _ else _] =>
             destruct b; [split; [first [assumption | discriminate] | reflexivity]|]
         end.
  pose proof (collect_eventNumbers (section st) (result st) line) as Hc.
  pose proof (collect_section (section st) (result st) line) as Hs.
  destruct (collect (section st) (result st) line) as [sec r]. simpl in Hc, Hs.
  destruct sec; try (split; [discriminate | exact Hc]).
  - destruct (isNewEventName line (eventNameBuffer st)); simpl;
      rewrite ?flushName_eventNumbers; (split; [discriminate | exact Hc]).
  - destruct Hs as [Hs|Hs]; [congruence | discriminate].
Qed.

Lemma scan_marker lines st :
  ~ In "EV#" lines -> section st <> EventNumbers ->
  eventNumbers (result (fold_left scanLine lines st)) = eventNumbers (result st).
Proof.
  revert st. induction lines as [|line lines IH]; simpl; intros st Hnot Hsec; [reflexivity|].
  destruct (scanLine_marker st line) as [Hs He]; auto.
  rewrite IH; auto.
Qed.

(** X5.  A page yields records only if one of its lines, trimmed, is
    exactly "EV#": without that header no event number is collected. *)
Theorem parsePage_needs_marker :
  forall (pageText : string) (year : Z),
    ~ In "EV#" (pageLines pageText) ->
    eventNumbers (findSections (pageLines pageText)) = []
    /\ parsePage pageText year = [].
Proof.
  intros pageText year Hnot.
  assert (He : eventNumbers (findSections (pageLines pageText)) = []).
  { unfold findSections. simpl. rewrite flushName_eventNumbers.
    rewrite scan_marker; [reflexivity | assumption | discriminate]. }
  split; [assumption|]. unfold parsePage. now rewrite He.
Qed.

Lemma parsePage_needs_marker_witness :
  parsePage "BUY-IN
$1,000
EV #
12" 2026 = [].
Proof.
  apply parsePage_needs_marker. vm_compute. intuition discriminate.
Defined.

Lemma subsequence_refl {A} (l : list A) : subsequence l l.
Proof. induction l; constructor; auto. Qed.

Lemma pushed_subsequence {A B} (f : nat -> option A) (g : A -> B) (d : B) (l : list B) :
  (forall i y, f i = Some y -> g y = nth i l d) ->
  forall m k, k + m <= List.length l ->
    subsequence (map g (pushed f (seq k m))) (firstn m (skipn k l)).
Proof.
  intros Hf. induction m as [|m IH]; intros k Hk; simpl; [constructor|].
  assert (Hskip : skipn k l = nth k l d :: skipn (S k) l).
  { assert (Hlt : k < List.length l) by lia. clear -Hlt. revert k Hlt.
    induction l as [|x l IHl]; intros k Hlt; simpl in *; [lia|].
    destruct k; [reflexivity|]. apply IHl. lia. }
  rewrite Hskip. simpl.
  destruct (f k) as [y|] eqn:E; simpl.
  - rewrite (Hf k y E). constructor. apply IH. lia.
  - constructor. apply IH. lia.
Qed.

(** X6.  The records of a page come in the order of its event numbers,
    at most one for each: their event numbers are the event-number column
    with some entries left out. *)
Theorem parsePage_keeps_order :
  forall (pageText : string) (year : Z),
    subsequence (map Tournament.eventNumber (parsePage pageText year))
                (eventNumbers (findSections (pageLines pageText))).
Proof.
  intros pageText year. unfold parsePage.
  set (sections := findSections (pageLines pageText)).
  destruct (eventNumbers sections) eqn:E; [constructor|]. rewrite <- E.
  pose proof (pushed_subsequence
                (parseEvent sections (nonNullIndices 0 (allBuyins sections)) year)
                Tournament.eventNumber "" (eventNumbers sections)) as H.
  specialize (H (fun i y Hy => parseEvent_fields _ _ _ _ _ Hy)
                (List.length (eventNumbers sections)) 0 (Nat.le_refl _)).
  simpl skipn in H. rewrite firstn_all in H. exact H.
Qed.

Lemma nonNullIndices_spec buyins :
  forall k i idx,
    nth_error (nonNullIndices k buyins) i = Some idx ->
    k <= idx
    /\ exists b, nth_error buyins (idx - k) = Some (Some b)
                 /\ nth_error (nonNullBuyins buyins) i = Some b.
Proof.
  induction buyins as [|[b|] bs IH]; intros k i idx; simpl.
  - destruct i; discriminate.
  - destruct i as [|i]; simpl.
    + intros [= <-]. split; [lia|]. exists b. rewrite Nat.sub_diag. auto.
    + intros H. apply IH in H. destruct H as (Hle & b' & H1 & H2).
      split; [lia|]. exists b'. split; [|assumption].
      replace (idx - k) with (S (idx - S k)) by lia. exact H1.
  - intros H. apply IH in H. destruct H as (Hle & b' & H1 & H2).
    split; [lia|]. exists b'. split; [|assumption].
    replace (idx - k) with (S (idx - S k)) by lia. exact H1.
Qed.

(** X7.  Event [i] of a page (by position in the event-number column)
    takes its name from position [i] of the names and its buy-in from the
    [i]-th buy-in that is not "-", which stands in row [rowIdx] of the
    buy-in column; its date is the entry of the date column at that row,
    followed by the year, or empty when the date column is too short or
    the entry is empty. *)
Theorem parsePage_alignment :
  forall (pageText : string) (year : Z) (t : Tournament.t),
    In t (parsePage pageText year) ->
    let sections := findSections (pageLines pageText) in
    exists i rowIdx,
      nth_error (eventNumbers sections) i = Some (Tournament.eventNumber t)
      /\ Tournament.eventName t = orEmpty (nth_error (eventNames sections) i)
      /\ nth_error (nonNullIndices 0 (allBuyins sections)) i = Some rowIdx
      /\ nth_error (nonNullBuyins (allBuyins sections)) i = Some (Tournament.buyin t)
      /\ nth_error (allBuyins sections) rowIdx = Some (Some (Tournament.buyin t))
      /\ match nth_error (dates sections) rowIdx with
         | Some (String c d) =>
             Tournament.date t = String c d ++ ", " ++ toString year
         | _ => Tournament.date t = ""
         end.
Proof.
  intros pageText year t Hin sections.
  destruct (parsePage_record _ _ _ Hin) as (i & rowIdx & buyin & H).
  cbv zeta in H. fold sections in H.
  destruct H as (Hi & Hidx & Hb & _ & _ & ->).
  exists i, rowIdx. unfold recordOf.
  cbn [Tournament.eventNumber Tournament.eventName Tournament.buyin Tournament.date].
  split; [apply nth_error_nth'; assumption|]. split; [reflexivity|].
  split; [assumption|].
  apply nonNullIndices_spec in Hidx. destruct Hidx as (_ & b & Hb1 & Hb2).
  rewrite Nat.sub_0_r in Hb1. rewrite Hb in Hb1. injection Hb1 as <-.
  split; [assumption|]. split; [assumption|].
  destruct (nth_error (dates sections) rowIdx) as [[|c d]|]; reflexivity.
Qed.

Lemma parsePage_alignment_witness :
  exists t,
    nth_error (parsePage samplePage 2026) 1 = Some t
    /\ exists i rowIdx,
         nth_error ["1"; "59"] i = Some (Tournament.eventNumber t)
         /\ nth_error [0; 2] i = Some rowIdx
         /\ nth_error [JNum 1000; JNum 500] i = Some (Tournament.buyin t)
         /\ nth_error [Some (JNum 1000); None; Some (JNum 500)] rowIdx
            = Some (Some (Tournament.buyin t)).
Proof.
  eexists. split; [vm_compute; reflexivity|].
  match goal with
  | |- exists i rowIdx, _ = Some (Tournament.eventNumber ?t) /\ _ =>
      destruct (parsePage_alignment samplePage 2026%Z t)
        as (i & rowIdx & H1 & _ & H0 & H2 & H3 & _);
      [vm_compute; right; left; reflexivity
      | exists i, rowIdx;
        split; [exact H1 | split; [exact H0 | split; [exact H2 | exact H3]]]]
  end.
Defined.
End ColumnarRecords.

(* ================================================================== *)
(** ** Row pipeline: data lines and rows *)

Section RowGrouping.
Import JS Re GenericParser Statements RowVocabulary.
Import WsopParser (push, splitPages).

Lemma groupLines_wellFormed lines rows cur :
  Forall wellFormedRow rows ->
  (forall row, cur = Some row -> wellFormedRow row) ->
  Forall wellFormedRow (groupLines lines rows cur).
Proof.
  revert rows cur. induction lines as [|line lines IH]; simpl; intros rows cur Hrows Hcur.
  - destruct cur as [row|]; [|assumption].
    unfold push. apply Forall_app. split; [assumption|]. constructor; [eauto|constructor].
  - destruct (test ROW_START_RE line) eqn:E.
    + apply IH.
      * destruct cur as [row|]; [|assumption].
        unfold push. apply Forall_app. split; [assumption|]. constructor; [eauto|constructor].
      * intros row [= <-]. exists line, []. repeat split; auto.
    + destruct cur as [row|]; apply IH; auto; try discriminate.
      intros row' [= <-]. destruct (Hcur row eq_refl) as (l0 & rest & -> & Hl0 & Hrest).
      exists l0, (rest ++ [line])%list. unfold push. repeat split; auto.
      apply Forall_app. split; [assumption|]. constructor; [exact E|constructor].
Qed.

Lemma groupLines_concat lines rows cur :
  List.concat (groupLines lines rows cur)
  = (List.concat rows
     ++ match cur with
        | Some row => row ++ lines
        | None => dropWhile (fun l => negb (startsRow l)) lines
        end)%list.
Proof.
  revert rows cur. induction lines as [|line lines IH]; simpl; intros rows cur.
  - destruct cur as [row|]; unfold push.
    + rewrite concat_app. simpl. now rewrite !app_nil_r.
    + now rewrite app_nil_r.
  - unfold startsRow. destruct (test ROW_START_RE line) eqn:E; simpl.
    + rewrite IH. destruct cur as [row|]; unfold push; simpl.
      * rewrite concat_app. simpl. rewrite app_nil_r, <- app_assoc. reflexivity.
      * reflexivity.
    + destruct cur as [row|]; rewrite IH; unfold push; simpl.
      * rewrite <- app_assoc. reflexivity.
      * reflexivity.
Qed.

Lemma groupLines_length lines rows cur :
  List.length (groupLines lines rows cur)
  = List.length rows + (match cur with Some _ => 1 | None => 0 end)
    + List.length (filter startsRow lines).
Proof.
  revert rows cur. induction lines as [|line lines IH]; simpl; intros rows cur.
  - destruct cur; unfold push; rewrite ?length_app; simpl; lia.
  - unfold startsRow at 1. destruct (test ROW_START_RE line) eqn:E; simpl.
    + rewrite IH. destruct cur; unfold push; rewrite ?length_app; simpl; lia.
    + destruct cur; rewrite IH; simpl; lia.
Qed.

(** X8.  [groupIntoRows] cuts the lines, from the first line that starts
    a row on, into consecutive rows: each row is one row-start line followed
    by lines that start no row, nothing is dropped or reordered after the
    first row start, and there are as many rows as row-start lines. *)
Theorem groupIntoRows_partition :
  forall lines : list string,
    Forall wellFormedRow (groupIntoRows lines)
    /\ List.concat (groupIntoRows lines) = dropWhile (fun l => negb (startsRow l)) lines
    /\ List.length (groupIntoRows lines) = List.length (filter startsRow lines).
Proof.
  intros lines. unfold groupIntoRows. split; [|split].
  - apply groupLines_wellFormed; [constructor | discriminate].
  - apply groupLines_concat.
  - rewrite groupLines_length. reflexivity.
Qed.

Lemma dropWhile_incl {A} (p : A -> bool) l : incl (dropWhile p l) l.
Proof.
  induction l as [|x l IH]; simpl; [apply incl_refl|].
  destruct (p x); [apply incl_tl; exact IH | apply incl_refl].
Qed.

Lemma scanDataLine_dataLines pages page year st rawLine :
  In page pages -> In rawLine (splitChar "010" page) ->
  Forall (dataLine pages) (snd st) ->
  Forall (dataLine pages) (snd (scanDataLine year st rawLine)).
Proof.
  intros Hpage Hraw Hst. destruct st as [done dataLines]. unfold scanDataLine.
  destruct (truthy (trim rawLine)) eqn:Ht; simpl; [|assumption].
  destruct (test FOOTER_RE (trim rawLine)) eqn:Hf; [assumption|].
  destruct (isColumnHeaderLine (trim rawLine)) eqn:Hh; [assumption|].
  assert (Hnew : Forall (dataLine pages) (push dataLines (trim rawLine))).
  { unfold push. apply Forall_app. split; [assumption|]. constructor; [|constructor].
    repeat split; auto.
    - intros E. rewrite E in Ht. discriminate.
    - exists page, rawLine. auto. }
  destruct done; simpl; [assumption|].
  destruct (isMetadataLine (trim rawLine) year); [assumption|].
  destruct (test ROW_START_RE (trim rawLine)); assumption.
Qed.

Lemma collectDataLines_dataLines year pages :
  Forall (dataLine pages) (collectDataLines year pages).
Proof.
  unfold collectDataLines.
  assert (H : forall ps acc, incl ps pages -> Forall (dataLine pages) acc ->
    Forall (dataLine pages)
      (fold_left (fun dataLines page =>
         snd (fold_left (scanDataLine year) (splitChar "010" page) (false, dataLines)))
       ps acc)).
  { induction ps as [|page ps IH]; simpl; intros acc Hincl Hacc; [assumption|].
    apply IH; [intros x Hx; apply Hincl; now right|].
    assert (Hp : In page pages) by (apply Hincl; now left).
    assert (G : forall raws st, incl raws (splitChar "010" page) ->
              Forall (dataLine pages) (snd st) ->
              Forall (dataLine pages) (snd (fold_left (scanDataLine year) raws st))).
    { induction raws as [|raw raws IHr]; simpl; intros st Hr Hst; [assumption|].
      apply IHr; [intros x Hx; apply Hr; now right|].
      eapply scanDataLine_dataLines; eauto. apply Hr. now left. }
    apply G; [apply incl_refl | assumption]. }
  apply H; [apply incl_refl | constructor].
Qed.

(** X9.  No blank line, footer or disclaimer line or column-header line
    ever becomes part of a row: every line of every row is a trimmed line
    of a page that passed those three filters. *)
Theorem rows_hold_data_lines_only :
  forall (year : Z) (pages : list string) (row : list string) (line : string),
    In row (groupIntoRows (collectDataLines year pages)) ->
    In line row ->
    dataLine pages line.
Proof.
  intros year pages row line Hrow Hline.
  pose proof (collectDataLines_dataLines year pages) as Hall.
  rewrite Forall_forall in Hall. apply Hall.
  destruct (groupIntoRows_partition (collectDataLines year pages)) as (_ & Hcat & _).
  apply (dropWhile_incl (fun l => negb (startsRow l))). rewrite <- Hcat.
  apply in_concat. exists row. auto.
Qed.

Lemma rows_hold_data_lines_only_witness :
  dataLine ["WINTER OPEN
MON JAN 5 10AM NLH $100 $90
MUST BE 21+"] "MON JAN 5 10AM NLH $100 $90".
Proof.
  apply (rows_hold_data_lines_only 2026%Z
           ["WINTER OPEN
MON JAN 5 10AM NLH $100 $90
MUST BE 21+"] ["MON JAN 5 10AM NLH $100 $90"] "MON JAN 5 10AM NLH $100 $90");
    vm_compute; left; reflexivity.
Defined.
End RowGrouping.

(* ================================================================== *)
(** ** Row pipeline: restarts and their parents *)

Section Linker.
Import JS Re GenericParser Statements LinkerVocabulary.
Import WsopParser (push, sortNumbers).

Lemma isDigit_cases c :
  isDigit c = true ->
  In c ["0"; "1"; "2"; "3"; "4"; "5"; "6"; "7"; "8"; "9"]%char.
Proof.
  destruct c as [[] [] [] [] [] [] [] []]; vm_compute; intros H;
    try discriminate H; tauto.
Qed.

Ltac digit_step :=
  simpl NilEmpty.string_of_uint; cbn [digitsValue];
  change (isDigit _) with true; cbv iota.

Lemma digitsValue_of_uint_acc d acc :
  digitsValue (Z.pos acc) (NilEmpty.string_of_uint d) = Z.pos (Pos.of_uint_acc d acc).
Proof.
  revert acc. induction d; intros acc; [reflexivity | ..];
    digit_step; cbn [Pos.of_uint_acc]; rewrite <- IHd; f_equal;
    match goal with
    | |- context [Z.of_nat ?n] =>
        let k := eval vm_compute in n in change n with k
    end; lia.
Qed.

Lemma digitsValue_of_uint d :
  digitsValue 0 (NilEmpty.string_of_uint d) = Z.of_uint d.
Proof.
  unfold Z.of_uint.
  induction d; [reflexivity | digit_step; exact IHd | ..];
    digit_step; cbn [Pos.of_uint Z.of_N]; rewrite <- digitsValue_of_uint_acc;
    reflexivity.
Qed.

Lemma allDigits_uint k :
  allDigits k = true -> exists d, NilEmpty.string_of_uint d = k.
Proof.
  induction k as [|c k IH]; simpl; intros H.
  - exists Nil. reflexivity.
  - apply andb_prop in H. destruct H as [Hc Hk].
    destruct (IH Hk) as [d <-].
    apply isDigit_cases in Hc. simpl in Hc.
    repeat (destruct Hc as [<-|Hc];
            [first [ now exists (D0 d) | now exists (D1 d) | now exists (D2 d)
                   | now exists (D3 d) | now exists (D4 d) | now exists (D5 d)
                   | now exists (D6 d) | now exists (D7 d) | now exists (D8 d)
                   | now exists (D9 d) ]|]).
    destruct Hc.
Qed.

(** An array-index key is the decimal text of its own value. *)
Lemma toString_digitsValue k :
  isArrayIndex k = true -> toString (digitsValue 0 k) = k.
Proof.
  unfold isArrayIndex. destruct k as [|c rest] eqn:Ek; [discriminate|].
  rewrite <- Ek. intros H.
  apply andb_prop in H. destruct H as [H _].
  apply andb_prop in H. destruct H as [Hd Hlead].
  destruct (allDigits_uint k Hd) as [d Hdk].
  rewrite <- Hdk at 1. rewrite digitsValue_of_uint.
  unfold toString. change (Z.of_uint d) with (Z.of_int (Pos d)).
  rewrite DecimalZ.to_of. simpl norm. simpl NilEmpty.string_of_int.
  assert (Hn : unorm d = d).
  { rewrite Ek in Hdk.
    destruct d; simpl in Hdk; try discriminate Hdk; try reflexivity.
    injection Hdk as Hc Hrest. subst c. simpl in Hlead.
    destruct rest; [|discriminate Hlead].
    destruct d; simpl in Hrest; try discriminate Hrest. reflexivity. }
  rewrite Hn. exact Hdk.
Qed.

Lemma entriesOrder_In num keys : In num (entriesOrder keys) -> In num keys.
Proof.
  unfold entriesOrder. intros H. apply in_app_or in H. destruct H as [H|H].
  - apply in_map_iff in H. destruct H as (z & <- & Hz).
    rewrite sortNumbers_In in Hz.
    apply in_map_iff in Hz. destruct Hz as (k & <- & Hk).
    apply filter_In in Hk. destruct Hk as [Hk Hidx].
    rewrite (toString_digitsValue k Hidx). exact Hk.
  - apply filter_In in H. tauto.
Qed.

Lemma eventMapKeys_In ts num :
  In num (eventMapKeys ts) -> baseNumberIn ts num.
Proof.
  unfold eventMapKeys.
  assert (G : forall rest done keys,
             (forall k, In k keys -> baseNumberIn done k) ->
             forall k,
               In k (fold_left
                       (fun keys t =>
                          if truthy (Tournament.eventNumber t)
                             && negb (Tournament.isRestart t) then
                            let base := replaceFirst flightLetterRe
                                          (Tournament.eventNumber t) "" in
                            if existsb (String.eqb base) keys then keys
                            else push keys base
                          else keys) rest keys) ->
               baseNumberIn (done ++ rest) k).
  { induction rest as [|t rest IH]; simpl; intros done keys Hkeys k Hk.
    - rewrite app_nil_r. auto.
    - replace (done ++ t :: rest)%list with ((done ++ [t]) ++ rest)%list
        by (rewrite <- app_assoc; reflexivity).
      refine (IH (done ++ [t])%list _ _ k Hk).
      intros k' Hk'.
      assert (Hold : forall k0, In k0 keys -> baseNumberIn (done ++ [t]) k0).
      { intros k0 H0. destruct (Hkeys k0 H0) as (p & Hp & Hrest).
        exists p. split; [apply in_or_app; now left | exact Hrest]. }
      destruct (truthy (Tournament.eventNumber t) && negb (Tournament.isRestart t))
        eqn:E; [|auto].
      simpl in Hk'.
      destruct (existsb _ keys); [auto|].
      unfold push in Hk'. apply in_app_or in Hk'. destruct Hk' as [Hk'|[<-|[]]]; [auto|].
      apply andb_prop in E. destruct E as [Hnum Hrest].
      exists t. split; [apply in_or_app; right; now left|].
      split; [intros E0; rewrite E0 in Hnum; discriminate|].
      split; [now destruct (Tournament.isRestart t) | reflexivity]. }
  intros H. exact (G ts [] [] (fun k (F : In k []) => match F with end) num H).
Qed.

Lemma linkRestart_fields entries t :
  Tournament.eventNumber (linkRestart entries t) = Tournament.eventNumber t
  /\ Tournament.isRestart (linkRestart entries t) = Tournament.isRestart t
  /\ Tournament.eventName (linkRestart entries t) = Tournament.eventName t.
Proof.
  unfold linkRestart.
  destruct (Tournament.isRestart t && falsy (Tournament.parentEvent t)); [|auto].
  destruct (find _ entries); simpl; auto.
Qed.

Lemma eventMapKeys_map f ts :
  (forall t, Tournament.eventNumber (f t) = Tournament.eventNumber t
             /\ Tournament.isRestart (f t) = Tournament.isRestart t) ->
  eventMapKeys (map f ts) = eventMapKeys ts.
Proof.
  intros Hf. unfold eventMapKeys. generalize (@nil string) as keys.
  induction ts as [|t ts IH]; simpl; intros keys; [reflexivity|].
  destruct (Hf t) as [-> ->]. apply IH.
Qed.

Lemma linkRestart_again entries t :
  linkRestart entries (linkRestart entries t) = linkRestart entries t.
Proof.
  unfold linkRestart at 2 3.
  destruct (Tournament.isRestart t && falsy (Tournament.parentEvent t)) eqn:E.
  - destruct (find _ entries) as [num|] eqn:F.
    + unfold linkRestart. cbn [setParentEvent Tournament.isRestart
                               Tournament.parentEvent Tournament.eventName].
      destruct (Tournament.isRestart t && falsy (Some num)); [|reflexivity].
      rewrite F. reflexivity.
    + unfold linkRestart. rewrite E, F. reflexivity.
  - unfold linkRestart. rewrite E. reflexivity.
Qed.

(** X10.  A parent that [linkRestartsToParents] fills in is the base
    number of a numbered record of the list that is no restart, and the
    restart's name holds "EVENT", that number and a space or tab; only
    restarts that had no parent are touched, and nothing but [parentEvent]
    changes. *)
Theorem linkRestartsToParents_links_known_events :
  forall (tournaments : list Tournament.t) (t : Tournament.t),
    In t (linkRestartsToParents tournaments) ->
    exists t0,
      In t0 tournaments
      /\ sameButParent t t0
      /\ (t = t0
          \/ (Tournament.isRestart t0 = true
              /\ falsy (Tournament.parentEvent t0) = true
              /\ exists num,
                   Tournament.parentEvent t = Some num
                   /\ baseNumberIn tournaments num
                   /\ namesEvent (Tournament.eventName t0) num = true)).
Proof.
  intros ts t Hin. unfold linkRestartsToParents in Hin.
  apply in_map_iff in Hin. destruct Hin as (t0 & <- & Hin).
  exists t0. split; [assumption|]. split; [apply linkRestart_same|].
  unfold linkRestart.
  destruct (Tournament.isRestart t0 && falsy (Tournament.parentEvent t0)) eqn:E;
    [|now left].
  destruct (find _ (entriesOrder (eventMapKeys ts))) as [num|] eqn:F; [|now left].
  right. apply andb_prop in E. destruct E as [Hr Hp].
  split; [assumption|]. split; [assumption|].
  exists num. apply find_some in F. destruct F as [Hnum Hname].
  split; [reflexivity|]. split; [|exact Hname].
  apply eventMapKeys_In, entriesOrder_In, Hnum.
Qed.

Lemma linkRestartsToParents_links_known_events_witness :
  exists ts t1 t,
    parseRows restartRows 2026 "Unknown Venue" = Returns ts
    /\ linkRestartsToParents ts = [t1; t]
    /\ Tournament.parentEvent t = Some "12"
    /\ exists t0,
         In t0 ts
         /\ sameButParent t t0
         /\ (t = t0
             \/ (Tournament.isRestart t0 = true
                 /\ falsy (Tournament.parentEvent t0) = true
                 /\ exists num,
                      Tournament.parentEvent t = Some num
                      /\ baseNumberIn ts num
                      /\ namesEvent (Tournament.eventName t0) num = true)).
Proof.
  do 3 eexists.
  split; [vm_compute; reflexivity|].
  split; [vm_compute; reflexivity|].
  split; [reflexivity|].
  match goal with
  | |- exists t0, In t0 ?ts /\ sameButParent ?t t0 /\ _ =>
      apply (linkRestartsToParents_links_known_events ts t)
  end.
  vm_compute. right. left. reflexivity.
Defined.

(** X11.  [linkRestartsToParents] keeps the number and the order of the
    records, and a second pass changes nothing: the map of event numbers is
    built from fields the first pass leaves alone. *)
Theorem linkRestartsToParents_idempotent :
  forall tournaments : list Tournament.t,
    List.length (linkRestartsToParents tournaments) = List.length tournaments
    /\ Forall2 sameButParent (linkRestartsToParents tournaments) tournaments
    /\ linkRestartsToParents (linkRestartsToParents tournaments)
       = linkRestartsToParents tournaments.
Proof.
  intros ts. unfold linkRestartsToParents. split; [apply length_map|]. split.
  - generalize (entriesOrder (eventMapKeys ts)) as entries. intros entries.
    induction ts as [|t ts IH]; simpl; constructor;
      [apply linkRestart_same | exact IH].
  - rewrite eventMapKeys_map by (intros t; destruct (linkRestart_fields
                                   (entriesOrder (eventMapKeys ts)) t); tauto).
    rewrite map_map. apply map_ext. intros t. apply linkRestart_again.
Qed.
End Linker.

(* ================================================================== *)
(** ** Row pipeline: the records *)

Section RowRecords.
Import JS Re GenericParser Statements RowVocabulary LinkerVocabulary.
Import WsopParser (splitPages, classifyGameVariant, variantLabels).

(** Where a record of the output comes from: a row of the data lines,
    parsed with the year and venue of the document, then linked. *)
Lemma parseGenericSchedule_origin currentYear text options ts t :
  parseGenericSchedule currentYear text options = Returns ts -> In t ts ->
  exists row t0 entries,
    In row (groupIntoRows
              (collectDataLines
                 (detectYear currentYear (join (String "010" "") (splitPages text)))
                 (splitPages text)))
    /\ parseRow row (detectYear currentYear (join (String "010" "") (splitPages text)))
         (venueOf text options) = Returns (Some t0)
    /\ t = linkRestart entries t0.
Proof.
  unfold parseGenericSchedule. intros H Hin.
  match type of H with
  | match parseRows ?rows ?y ?v with _ => _ end = _ =>
      destruct (parseRows rows y v) as [ts0|] eqn:E; [|discriminate]
  end.
  injection H as <-. unfold linkRestartsToParents in Hin.
  apply in_map_iff in Hin. destruct Hin as (t0 & <- & Hin0).
  destruct (parseRows_In _ _ _ _ _ E Hin0) as (row & Hrow & Hparse).
  exists row, t0. eexists. split; [exact Hrow|]. split; [exact Hparse | reflexivity].
Qed.

Lemma parseRow_venue rowLines year venue t :
  parseRow rowLines year venue = Returns (Some t) -> Tournament.venue t = venue.
Proof.
  unfold parseRow. destruct rowLines as [|line0 rest]; [discriminate|].
  destruct (exec dateRe (rowJoined (line0 :: rest))); [|discriminate].
  intros [= <-]. reflexivity.
Qed.

Lemma linkRestart_venue entries t :
  Tournament.venue (linkRestart entries t) = Tournament.venue t.
Proof.
  destruct (linkRestart_same entries t) as [->|[p ->]]; reflexivity.
Qed.

Lemma detectVenue_range text :
  detectVenue text = "Unknown Venue" \/ In (detectVenue text) (map snd VENUE_DISPLAY).
Proof.
  unfold detectVenue.
  destruct (find _ KNOWN_VENUES) as [v|] eqn:F; [right | now left].
  apply find_some in F. destruct F as [Hv _].
  unfold KNOWN_VENUES in Hv. simpl in Hv.
  repeat (destruct Hv as [<-|Hv]; [vm_compute; tauto|]). destruct Hv.
Qed.

(** X12.  Every record of a document carries the same venue: the caller's
    [options.venue] when it is a non-empty string, and otherwise the display
    name of the first known venue the text mentions, or "Unknown Venue". *)
Theorem row_records_venue :
  forall (currentYear : Z) (text : string) (options : Options.t)
         (ts : list Tournament.t) (t : Tournament.t),
    parseGenericSchedule currentYear text options = Returns ts ->
    In t ts ->
    Tournament.venue t = venueOf text options
    /\ (forall v, Options.venue options = Some v -> v <> "" -> Tournament.venue t = v)
    /\ (falsy (Options.venue options) = true ->
        Tournament.venue t = "Unknown Venue"
        \/ In (Tournament.venue t) (map snd VENUE_DISPLAY)).
Proof.
  intros y text options ts t H Hin.
  destruct (parseGenericSchedule_origin _ _ _ _ _ H Hin) as (row & t0 & e & _ & Hrow & ->).
  rewrite linkRestart_venue, (parseRow_venue _ _ _ _ Hrow).
  split; [reflexivity|]. unfold venueOf. split.
  - intros v -> Hv. destruct v; [congruence | reflexivity].
  - destruct (Options.venue options) as [v|]; simpl; [|intros _; apply detectVenue_range].
    destruct (truthy v); [discriminate | intros _; apply detectVenue_range].
Qed.

Lemma row_records_venue_witness :
  exists t,
    parseGenericSchedule 2026 "WYNN SIGNATURE SERIES
MON JAN 5 10AM NLH $100 $90" (Options.mk (Some "My Card Room")) = Returns [t]
    /\ Tournament.venue t = "My Card Room".
Proof.
  eexists. split; [vm_compute; reflexivity|].
  refine (proj1 (proj2 (row_records_venue 2026%Z "WYNN SIGNATURE SERIES
MON JAN 5 10AM NLH $100 $90" (Options.mk (Some "My Card Room")) _ _ _ _))
            "My Card Room" eq_refl _);
    [vm_compute; reflexivity | left; reflexivity | discriminate].
Defined.

Lemma join_nonempty sep x l : x <> "" -> join sep (x :: l) <> "".
Proof.
  intros Hx. destruct x as [|c x]; [congruence|]. destruct l; simpl; discriminate.
Qed.

Lemma append_nonempty_r a b : b <> "" -> a ++ b <> "".
Proof. destruct a; simpl; [auto | discriminate]. Qed.

Lemma string_app_assoc a b c : (a ++ b) ++ c = a ++ (b ++ c).
Proof. induction a as [|x a IH]; simpl; [reflexivity | now rewrite IH]. Qed.

Lemma notesOf_nonempty joined eventName :
  Forall (fun s => s <> "") (notesOf joined eventName).
Proof.
  unfold notesOf. apply Forall_concat.
  repeat constructor;
    repeat match goal with
           | |- Forall _ (match ?x with _ => _ end) => destruct x
           | |- Forall _ (if ?x then _ else _) => destruct x
           end;
    repeat constructor; try discriminate.
  apply append_nonempty_r. discriminate.
Qed.

(** The fields of a row record that [parseRow] fixes or derives from its
    flags. *)
Lemma parseRow_shape rowLines year venue t :
  parseRow rowLines year venue = Returns (Some t) ->
  Tournament.reentry t = None
  /\ Tournament.lateReg t = None
  /\ (Tournament.isSatellite t = false -> Tournament.targetEvent t = None)
  /\ In (Tournament.gameVariant t) variantLabels
  /\ (forall chips, Tournament.startingChips t = Some chips -> isNegative chips = false)
  /\ Tournament.notes t <> Some ""
  /\ exists monthDay, Tournament.date t = monthDay ++ ", " ++ toString year.
Proof.
  unfold parseRow. destruct rowLines as [|line0 rest]; [discriminate|].
  destruct (exec dateRe (rowJoined (line0 :: rest))) as [dateMatch|]; [|discriminate].
  intros [= <-]. cbn [Tournament.reentry Tournament.lateReg Tournament.isSatellite
                      Tournament.targetEvent Tournament.gameVariant
                      Tournament.startingChips Tournament.notes Tournament.date].
  split; [reflexivity|]. split; [reflexivity|].
  split; [intros ->; reflexivity|].
  split; [apply classifyGameVariant_label|].
  split.
  { intros chips. destruct (exec chipsRe _) as [m|]; [|discriminate].
    intros [= <-]. apply thousands_nonneg. }
  split.
  { pose proof (notesOf_nonempty (rowJoined (line0 :: rest))
                  (rowEventName (line0 :: rest))) as Hn.
    destruct (notesOf _ _) as [|n ns]; [discriminate|].
    inversion Hn as [|n' ns' Hhead Htail]; subst. intros [= E].
    exact (join_nonempty ", " n ns Hhead E). }
  exists (lookupOr MONTH_FULL (toUpperCase (group (rowJoined (line0 :: rest)) dateMatch 2))
          ++ " " ++ toString (digitsValue 0 (group (rowJoined (line0 :: rest)) dateMatch 3))).
  rewrite string_app_assoc. reflexivity.
Qed.

(** X13.  In every record of the row pipeline: a restart has buy-in 0; a
    parent event is only ever given to a restart and a target event only to
    a satellite; the re-entry and late-registration fields are never
    filled; the game variant is one of the classifier's labels; the
    starting chips, when present, are not negative; the notes are never an
    empty string; and the date ends with the year of the document. *)
Theorem row_record_facts :
  forall (currentYear : Z) (text : string) (options : Options.t)
         (ts : list Tournament.t) (t : Tournament.t),
    parseGenericSchedule currentYear text options = Returns ts ->
    In t ts ->
    (Tournament.isRestart t = true -> Tournament.buyin t = JNum 0)
    /\ (Tournament.parentEvent t <> None -> Tournament.isRestart t = true)
    /\ (Tournament.targetEvent t <> None -> Tournament.isSatellite t = true)
    /\ Tournament.reentry t = None
    /\ Tournament.lateReg t = None
    /\ In (Tournament.gameVariant t) variantLabels
    /\ (forall chips, Tournament.startingChips t = Some chips -> isNegative chips = false)
    /\ Tournament.notes t <> Some ""
    /\ exists monthDay,
         Tournament.date t
         = monthDay ++ ", "
           ++ toString (detectYear currentYear (join (String "010" "") (splitPages text))).
Proof.
  intros y text options ts t H Hin.
  destruct (parseGenericSchedule_origin _ _ _ _ _ H Hin) as (row & t0 & e & _ & Hrow & ->).
  destruct (parseRow_flags _ _ _ _ Hrow) as (Hbuyin & Hrestart & Hparent).
  destruct (parseRow_shape _ _ _ _ Hrow)
    as (Hre & Hlate & Htarget & Hvariant & Hchips & Hnotes & Hdate).
  assert (Hlink : linkRestart e t0 = t0
                  \/ (Tournament.isRestart t0 = true
                      /\ exists p, linkRestart e t0 = setParentEvent t0 p)).
  { unfold linkRestart.
    destruct (Tournament.isRestart t0) eqn:Hr; [|now left].
    destruct (falsy (Tournament.parentEvent t0)); [|now left].
    destruct (find _ e); [right; split; [reflexivity | eexists; reflexivity] | now left]. }
  assert (Hp0 : Tournament.parentEvent t0 <> None -> Tournament.isRestart t0 = true).
  { rewrite Hparent. unfold parentEventOf.
    destruct (Tournament.isRestart t0); [reflexivity | congruence]. }
  assert (Hb0 : Tournament.isRestart t0 = true -> Tournament.buyin t0 = JNum 0).
  { intros Hr. rewrite Hbuyin, Hr. unfold buyinOf. now destruct (rowIsFreeroll row). }
  assert (Ht0 : Tournament.targetEvent t0 <> None -> Tournament.isSatellite t0 = true).
  { destruct (Tournament.isSatellite t0); [reflexivity|].
    intros Hn. elim Hn. now apply Htarget. }
  destruct Hlink as [->|[Hr [p ->]]].
  - repeat (split; [assumption|]). assumption.
  - cbn [setParentEvent Tournament.isRestart Tournament.buyin Tournament.parentEvent
         Tournament.targetEvent Tournament.isSatellite Tournament.reentry
         Tournament.lateReg Tournament.gameVariant Tournament.startingChips
         Tournament.notes Tournament.date].
    split; [assumption|]. split; [intros _; assumption|].
    repeat (split; [assumption|]). assumption.
Qed.

Lemma row_record_facts_witness :
  exists t,
    parseGenericSchedule 2026 "7 SUN JAN 18 12PM NLH MAIN EVENT DAY 2 RESTART $1,100 $960 $100 $40 30K 40"
      noOptions = Returns [t]
    /\ Tournament.isRestart t = true
    /\ Tournament.buyin t = JNum 0.
Proof.
  eexists. split; [vm_compute; reflexivity|].
  match goal with
  | |- Tournament.isRestart ?t = true /\ _ =>
      destruct (row_record_facts 2026%Z
        "7 SUN JAN 18 12PM NLH MAIN EVENT DAY 2 RESTART $1,100 $960 $100 $40 30K 40"
        noOptions [t] t) as [Hbuyin _];
      [vm_compute; reflexivity | left; reflexivity
      | split; [reflexivity | apply Hbuyin; reflexivity]]
  end.
Defined.
End RowRecords.

(* ================================================================== *)
(** ** Row pipeline: rake of a row *)

Section RowRake.
Import JS Re GenericParser Statements NumberVocabulary RowVocabulary LinkerVocabulary.
Import WsopParser (splitPages, classifyGameVariant, variantLabels).

Lemma parseRow_rake rowLines year venue t :
  parseRow rowLines year venue = Returns (Some t) ->
  Tournament.rakeDollars t
  = option_map fst (rakeOf (rowTotalEntry rowLines) (Tournament.prizePool t))
  /\ Tournament.rakePct t
     = option_map snd (rakeOf (rowTotalEntry rowLines) (Tournament.prizePool t)).
Proof.
  unfold parseRow. destruct rowLines as [|line0 rest]; [discriminate|].
  destruct (exec dateRe (rowJoined (line0 :: rest))); [|discriminate].
  intros [= <-]. split; reflexivity.
Qed.

(** The percentage of a rake that is not negative, for whole amounts up
    to 2^53: a finite number from 0 to 100. *)
Lemma rakePercent_bounds (te pp : Z) :
  (0 < pp)%Z -> (pp <= te)%Z -> (te <= 2 ^ 53)%Z ->
  exists pct : Q,
    Ddiv (toDouble (Math_round
                      (Dmul (Ddiv (Dbl (inject_Z (te - pp))) (Dbl (inject_Z te)))
                            (Dbl 1000))))
         (Dbl 10) = Dbl pct
    /\ (0 <= pct)%Q /\ (pct <= 100)%Q.
Proof.
  intros Hpp Hle Hte. set (rd := (te - pp)%Z).
  assert (Hrd : (0 <= rd < te)%Z) by (unfold rd; lia).
  assert (Hq : (0 < inject_Z te)%Q) by (rewrite <- (Zlt_Qlt 0); lia).
  assert (Hz : Qeq_bool (inject_Z te) 0 = false).
  { destruct (Qeq_bool (inject_Z te) 0) eqn:E; [|reflexivity].
    apply Qeq_bool_iff in E. lra. }
  cbn [Ddiv]. rewrite Hz.
  destruct (Z.eq_dec rd 0) as [E0|N0].
  { rewrite E0. rewrite (round64_zero (inject_Z 0 / inject_Z te))
      by (unfold Qdiv; apply Qmult_0_l).
    exists 0%Q. split; [vm_compute; reflexivity | split; discriminate]. }
  set (r := (inject_Z rd / inject_Z te)%Q).
  pose proof pow2_m53 as U. unfold unitRoundoff in U.
  assert (P0 : (pow2 (-1022) <= pow2 (-53))%Q) by (apply pow2_le; lia).
  assert (P1 : (18446744073709551616 <= pow2 1000)%Q).
  { change 18446744073709551616%Q with (inject_Z (2 ^ 64)).
    rewrite <- pow2_Z by lia. apply pow2_le. lia. }
  assert (R1 : (pow2 (-53) <= r)%Q).
  { unfold r. apply Qle_shift_div_l; [assumption|].
    apply Qle_trans with 1%Q.
    - rewrite U. setoid_replace 1%Q with ((1 # 9007199254740992) * 9007199254740992)%Q
        by reflexivity.
      apply Qmult_le_l; [reflexivity|].
      change 9007199254740992%Q with (inject_Z (2 ^ 53)). now rewrite <- Zle_Qle.
    - change 1%Q with (inject_Z 1). rewrite <- Zle_Qle. lia. }
  assert (R2 : (r < 1)%Q).
  { unfold r. apply Qlt_shift_div_r; [assumption|]. rewrite Qmult_1_l.
    rewrite <- Zlt_Qlt. lia. }
  assert (R0 : (0 <= r)%Q) by (pose proof (pow2_pos (-53)); lra).
  destruct (round64_near r) as (x1 & E1 & A1 & A2 & S1 & _);
    [rewrite Qabs_pos by assumption; lra | rewrite Qabs_pos by assumption; lra |].
  rewrite (Qabs_pos r R0) in A1, A2. specialize (S1 R0).
  unfold unitRoundoff in A1, A2.
  fold r. rewrite E1. cbn [Dmul].
  assert (X1 : (0 <= x1 * 1000)%Q) by lra.
  destruct (round64_near (x1 * 1000)) as (x2 & E2 & B1 & B2 & T1 & _);
    [rewrite Qabs_pos by assumption; lra | rewrite Qabs_pos by assumption; lra |].
  rewrite (Qabs_pos _ X1) in B1, B2. specialize (T1 X1).
  unfold unitRoundoff in B1, B2.
  rewrite E2. cbn [Math_round toDouble Ddiv]. change (Qeq_bool 10 0) with false. cbv iota.
  destruct (Qfloor_half x2) as [F1 F2].
  set (m := Qfloor (x2 + (1 # 2))) in *.
  assert (M0 : (0 <= m)%Z) by (unfold m; apply (Qfloor_resp_le 0); lra).
  assert (M1 : (m <= 1000)%Z).
  { assert (H : (inject_Z m < inject_Z 1001)%Q)
      by (change (inject_Z 1001) with 1001%Q; lra).
    rewrite <- Zlt_Qlt in H. lia. }
  destruct (Z.eq_dec m 0) as [Em|Nm].
  { rewrite Em. exists 0%Q. split; [vm_compute; reflexivity | split; discriminate]. }
  destruct (Z.eq_dec m 1000) as [Em|Nm'].
  { rewrite Em. exists 100%Q. split; [vm_compute; reflexivity | split; discriminate]. }
  assert (Hm : (1 <= inject_Z m /\ inject_Z m <= 999)%Q).
  { change 1%Q with (inject_Z 1). change 999%Q with (inject_Z 999).
    rewrite <- !Zle_Qle. lia. }
  assert (Eh : (inject_Z m / 10 == inject_Z m * (1 # 10))%Q) by reflexivity.
  assert (X3 : (0 <= inject_Z m / 10)%Q) by (rewrite Eh; lra).
  destruct (round64_near (inject_Z m / 10)) as (x3 & E3 & C1 & C2 & V1 & _);
    [rewrite Qabs_pos by assumption; rewrite Eh;
     assert (pow2 (-53) <= 1 # 10)%Q by (rewrite U; discriminate); lra
    | rewrite Qabs_pos by assumption; rewrite Eh; lra |].
  rewrite (Qabs_pos _ X3), Eh in C1, C2. specialize (V1 X3).
  unfold unitRoundoff in C1, C2.
  exists x3. split; [exact E3|]. split; lra.
Qed.

(** X14.  When a record of the row pipeline has a rake, the row's first
    two column amounts (total entry and prize pool) are both positive
    numbers, the rake in dollars is their difference in binary64
    arithmetic, the buy-in is the total entry or 0, and the rake
    percentage is [Math.round(rakeDollars / totalEntry * 1000) / 10] in the
    same arithmetic.  For whole amounts up to 2^53 with the prize pool at
    most the total entry, the rake is their exact difference, is not
    negative and is below the total entry, and the percentage is a number
    from 0 to 100.  Nothing bounds the rake from below: a prize pool above
    the total entry gives a negative rake.  The percentage is rounded in
    binary: total entry 400 and prize pool 199 give the number nearest to
    50.2, where 201/400 is 50.25%. *)
Theorem row_rake_arithmetic :
  (forall (currentYear : Z) (text : string) (options : Options.t)
          (ts : list Tournament.t) (t : Tournament.t) (rakeDollars : double),
     parseGenericSchedule currentYear text options = Returns ts ->
     In t ts ->
     Tournament.rakeDollars t = Some rakeDollars ->
     exists (totalEntry prizePool : jsnum) (rakePercent : double),
       Tournament.prizePool t = Some prizePool
       /\ Tournament.rakePct t = Some rakePercent
       /\ (Tournament.buyin t = totalEntry \/ Tournament.buyin t = JNum 0)
       /\ isPositive totalEntry = true /\ isPositive prizePool = true
       /\ rakeDollars = Dsub (toDouble totalEntry) (toDouble prizePool)
       /\ rakePercent
          = Ddiv (toDouble (Math_round
                              (Dmul (Ddiv rakeDollars (toDouble totalEntry)) (Dbl 1000))))
                 (Dbl 10)
       /\ (forall te pp : Z,
             totalEntry = JNum te -> prizePool = JNum pp ->
             (pp <= te <= 2 ^ 53)%Z ->
             rakeDollars = Dbl (inject_Z (te - pp))
             /\ (0 <= te - pp < te)%Z
             /\ exists pct : Q,
                  rakePercent = Dbl pct /\ (0 <= pct)%Q /\ (pct <= 100)%Q))
  /\ (exists t,
        parseGenericSchedule 2026 "MON JAN 5 10AM NLH $100 $150" noOptions = Returns [t]
        /\ Tournament.rakeDollars t = Some (Dbl (-50))
        /\ Tournament.rakePct t = Some (Dbl (-50)))
  /\ (exists t,
        parseGenericSchedule 2026 "MON JAN 5 10AM NLH $400 $199" noOptions = Returns [t]
        /\ Tournament.rakeDollars t = Some (Dbl 201)
        /\ Tournament.rakePct t = Some (literal 50.2)
        /\ literal 50.2 <> literal 50.3).
Proof.
  split;
    [|split; eexists; (split; [vm_compute; reflexivity|]);
      repeat split; try (vm_compute; reflexivity); vm_compute; discriminate].
  intros y text options ts t rd H Hin Hrd.
  destruct (parseGenericSchedule_origin _ _ _ _ _ H Hin) as (row & t0 & e & _ & Hrow & ->).
  destruct (parseRow_rake _ _ _ _ Hrow) as [Hd Hp].
  destruct (parseRow_flags _ _ _ _ Hrow) as (Hbuyin & _ & _).
  assert (Hsame : Tournament.rakeDollars (linkRestart e t0) = Tournament.rakeDollars t0
                  /\ Tournament.rakePct (linkRestart e t0) = Tournament.rakePct t0
                  /\ Tournament.prizePool (linkRestart e t0) = Tournament.prizePool t0
                  /\ Tournament.buyin (linkRestart e t0) = Tournament.buyin t0).
  { destruct (linkRestart_same e t0) as [->|[p ->]]; repeat split; reflexivity. }
  destruct Hsame as (E1 & E2 & E3 & E4). rewrite E1 in Hrd. rewrite E2, E3, E4.
  clear E1 E2 E3 E4.
  rewrite Hd in Hrd. rewrite Hp. unfold rakeOf in *.
  destruct (Tournament.prizePool t0) as [pp|]; [|discriminate].
  destruct (isPositive (rowTotalEntry row)) eqn:Hte; [|discriminate].
  destruct (isPositive pp) eqn:Hpp; [|discriminate].
  simpl in Hrd. injection Hrd as <-.
  exists (rowTotalEntry row), pp. eexists.
  split; [reflexivity|]. split; [reflexivity|].
  split.
  { rewrite Hbuyin. unfold buyinOf.
    destruct (rowIsFreeroll row); [now right|].
    destruct (Tournament.isRestart t0); [now right | now left]. }
  split; [assumption|]. split; [assumption|]. split; [reflexivity|].
  split; [reflexivity|].
  intros te ppz Ete -> Hb. rewrite Ete in *. simpl in Hte, Hpp.
  apply Z.ltb_lt in Hte. apply Z.ltb_lt in Hpp. cbn [toDouble].
  assert (Hsub : Dsub (Dbl (inject_Z te)) (Dbl (inject_Z ppz)) = Dbl (inject_Z (te - ppz)))
    by (apply Dsub_Z; lia).
  rewrite Hsub. split; [reflexivity|]. split; [lia|].
  apply rakePercent_bounds; lia.
Qed.

Lemma row_rake_arithmetic_witness :
  exists t,
    parseGenericSchedule 2026 "MON JAN 5 10AM NLH $100 $90" noOptions = Returns [t]
    /\ Tournament.rakeDollars t = Some (Dbl 10)
    /\ exists (totalEntry prizePool : jsnum) (rakePercent : double),
         Tournament.prizePool t = Some prizePool
         /\ Tournament.rakePct t = Some rakePercent
         /\ (Tournament.buyin t = totalEntry \/ Tournament.buyin t = JNum 0)
         /\ isPositive totalEntry = true /\ isPositive prizePool = true
         /\ Dbl 10 = Dsub (toDouble totalEntry) (toDouble prizePool).
Proof.
  eexists. split; [vm_compute; reflexivity|]. split; [reflexivity|].
  match goal with
  | |- exists te pp pct, Tournament.prizePool ?t = _ /\ _ =>
      destruct (proj1 row_rake_arithmetic 2026%Z "MON JAN 5 10AM NLH $100 $90"
                  noOptions [t] t (Dbl 10))
        as (te & pp & pct & H1 & H2 & H3 & H4 & H5 & H6 & _);
      [vm_compute; reflexivity | left; reflexivity | reflexivity
      | exists te, pp, pct; repeat (split; [assumption|]); assumption]
  end.
Defined.

Lemma eventNameOf_no_time joined filteredColumnDollars :
  eventNameOf joined None filteredColumnDollars = "".
Proof. vm_compute. reflexivity. Qed.

(** X15.  A row without a time token still gives a record: its time is
    "TBD", its event name is empty (the name is the text between the time
    and the first amount), and so its variant is the default "NLHE", it is
    neither a restart nor a satellite, and its buy-in is the row's first
    column amount unless the row says "INVITE ONLY". *)
Theorem parseRow_without_time :
  forall (rowLines : list string) (year : Z) (venue : string) (t : Tournament.t),
    timeMatchOf (rowJoined rowLines) = None ->
    parseRow rowLines year venue = Returns (Some t) ->
    Tournament.time t = "TBD"
    /\ Tournament.eventName t = ""
    /\ Tournament.gameVariant t = "NLHE"
    /\ Tournament.isRestart t = false
    /\ Tournament.isSatellite t = false
    /\ Tournament.parentEvent t = None
    /\ Tournament.targetEvent t = None
    /\ (test inviteOnlyRe (rowJoined rowLines) = false ->
        Tournament.buyin t = rowTotalEntry rowLines).
Proof.
  intros rowLines year venue t Htime.
  assert (Hname : rowEventName rowLines = "").
  { unfold rowEventName. rewrite Htime. apply eventNameOf_no_time. }
  unfold parseRow. destruct rowLines as [|line0 rest]; [discriminate|].
  destruct (exec dateRe (rowJoined (line0 :: rest))); [|discriminate].
  intros [= <-].
  cbn [Tournament.time Tournament.eventName Tournament.gameVariant
       Tournament.isRestart Tournament.isSatellite Tournament.parentEvent
       Tournament.targetEvent Tournament.buyin].
  unfold rowIsFreeroll. rewrite Hname, Htime.
  split; [reflexivity|].
  split; [vm_compute; reflexivity|].
  split; [vm_compute; reflexivity|].
  split; [vm_compute; reflexivity|].
  split; [vm_compute; reflexivity|].
  split; [vm_compute; reflexivity|].
  split; [vm_compute; reflexivity|].
  intros Hinv. unfold isFreerollOf. rewrite Hinv.
  change (isRestartOf "") with false. change (test freerollRe "") with false.
  reflexivity.
Qed.

Lemma parseRow_without_time_witness :
  exists t,
    parseRow ["WED JAN 14 NLH TOURNAMENT $100"] 2026 "Unknown Venue" = Returns (Some t)
    /\ Tournament.time t = "TBD"
    /\ Tournament.eventName t = ""
    /\ Tournament.buyin t = JNum 100.
Proof.
  eexists. split; [vm_compute; reflexivity|].
  match goal with
  | |- Tournament.time ?t = _ /\ _ =>
      destruct (parseRow_without_time ["WED JAN 14 NLH TOURNAMENT $100"] 2026%Z
                  "Unknown Venue" t)
        as (Htime & Hname & _ & _ & _ & _ & _ & Hbuyin);
      [vm_compute; reflexivity | vm_compute; reflexivity
      | split; [exact Htime | split; [exact Hname | reflexivity]]]
  end.
Defined.
End RowRake.

(* ================================================================== *)
(** ** Upload handler *)

Section Upload.
Import JS Re Statements NumberVocabulary RakeVocabulary ColumnarVocabulary RowVocabulary.
Import UploadVocabulary Server.
Import WsopParser (Tier, entryFeePct, dealerStaffPct, totalPct, Rake.rakePct,
  Rake.rakeDollars, Rake.prizePool, Rake.houseFee, Rake.optAddOn, rakeOfTier,
  getWSOPRake, resolveTier, parseWSOP2025Schedule, variantLabels).
Import GenericParser.

(** *** The INSERTs *)

Lemma runInserts_all rows :
  (forall row, In row rows -> violatesNotNull row = false) ->
  runInserts rows = (rows, true).
Proof.
  induction rows as [|row rows IH]; intros H; [reflexivity|].
  simpl. rewrite (H row (or_introl eq_refl)).
  rewrite IH by (intros r Hr; apply H; now right). reflexivity.
Qed.

(** All the INSERTs succeed, or there is a first one that fails, and it
    is the last one run. *)
Lemma runInserts_spec rows :
  ((forall row, In row rows -> violatesNotNull row = false)
   /\ runInserts rows = (rows, true))
  \/ exists before failing after,
       rows = (before ++ failing :: after)%list
       /\ (forall row, In row before -> violatesNotNull row = false)
       /\ violatesNotNull failing = true
       /\ runInserts rows = ((before ++ [failing])%list, false).
Proof.
  induction rows as [|row rows IH].
  - left. split; [intros row []|reflexivity].
  - simpl. destruct (violatesNotNull row) eqn:E.
    + right. exists [], row, rows. repeat split; auto. intros r [].
    + destruct IH as [[Hall ->] | (before & failing & after & -> & Hb & Hf & ->)].
      * left. split; [|reflexivity]. intros r [<-|Hr]; auto.
      * right. exists (row :: before), failing, after. repeat split; auto.
        intros r [<-|Hr]; auto.
Qed.

Lemma runInserts_incl rows row : In row (fst (runInserts rows)) -> In row rows.
Proof.
  destruct (runInserts_spec rows) as [[_ ->] | (before & failing & after & -> & _ & _ & ->)];
    simpl; [auto|].
  intros H. apply in_app_or in H. apply in_or_app.
  destruct H as [H|[<-|[]]]; [now left | right; now left].
Qed.

Lemma insertAll_inserts format rows :
  Outcome.inserts (insertAll format rows) = fst (runInserts rows).
Proof. unfold insertAll. now destruct (runInserts rows). Qed.

Lemma violatesNotNull_NaN row : violatesNotNull row = false <-> Insert.buyin row <> JNaN.
Proof.
  unfold violatesNotNull. destruct (Insert.buyin row); split; congruence.
Qed.

Lemma violatesNotNull_true row : violatesNotNull row = true <-> Insert.buyin row = JNaN.
Proof.
  unfold violatesNotNull. destruct (Insert.buyin row); split; congruence.
Qed.

(** *** Columns that hold no falsy value *)

Lemma doubleOrNull_stored o : storedNumber (doubleOrNull o).
Proof.
  unfold storedNumber, doubleOrNull. intros x. destruct o as [y|]; [|discriminate].
  destruct (falsyDouble y) eqn:E; [discriminate|]. now intros [= <-].
Qed.

Lemma numOrNull_stored o : storedNumber (numOrNull o).
Proof. apply doubleOrNull_stored. Qed.

Lemma valueOrNull_stored o : storedNumber (valueOrNull o).
Proof.
  destruct o as [[x|]|]; [apply (doubleOrNull_stored (Some x)) | |]; intros x; discriminate.
Qed.

Lemma numOrNull_positive z :
  (0 < z)%Z -> numOrNull (Some (JNum z)) = Some (Dbl (inject_Z z)).
Proof.
  intros H. unfold numOrNull, doubleOrNull. cbn [option_map toDouble falsyDouble].
  destruct (Qeq_bool (inject_Z z) 0) eqn:E; [|reflexivity].
  apply Qeq_bool_iff in E. unfold Qeq in E. simpl in E. lia.
Qed.

Lemma doubleOrNull_positive z :
  (0 < z)%Z -> doubleOrNull (Some (Dbl (inject_Z z))) = Some (Dbl (inject_Z z)).
Proof. apply numOrNull_positive. Qed.

Lemma orString_nonempty s d : d <> "" -> orString s d <> "".
Proof. unfold orString. destruct s; simpl; [auto | discriminate]. Qed.

Lemma orString_truthy s d : s <> "" -> orString s d = s.
Proof. unfold orString. destruct s; simpl; [congruence | reflexivity]. Qed.

Lemma stringOrNull_nonempty s : stringOrNull s <> Some "".
Proof. destruct s; simpl; discriminate. Qed.

Lemma textOrNull_nonempty o : textOrNull o <> Some "".
Proof. destruct o as [s|]; [apply stringOrNull_nonempty | discriminate]. Qed.

(** *** Columnar format *)

(** The percentage of a tier of the tables is stored, never turned into
    NULL. *)
Lemma tier_percentage_stored tier :
  In tier allTiers ->
  exists pct : Q,
    valueOrNull (Some (Num (literal (totalPct tier)))) = Some (Dbl pct) /\ (1 # 2 <= pct)%Q.
Proof.
  intros Ht. pose proof (orderedTier_facts tier (allTiers_ordered tier Ht)) as H.
  cbv zeta in H. destruct H as (_ & _ & LT & G1 & G2 & G3 & _).
  unfold unitRoundoff in *.
  set (d := pctValue (dealerStaffPct tier)) in *.
  set (e := pctValue (entryFeePct tier)) in *.
  set (T := pctValue (totalPct tier)) in *.
  assert (HT : (1 # 2 <= T)%Q) by lra.
  exists T. split; [|assumption].
  rewrite LT. cbn [valueOrNull doubleOrNull falsyDouble].
  destruct (Qeq_bool T 0) eqn:E; [|reflexivity].
  apply Qeq_bool_iff in E. lra.
Qed.

(** X16.  An upload in the columnar format runs one INSERT per record of
    [parseWSOP2025Schedule] read with year 2026, whatever the calendar year
    and the venue field of the form are; none of them fails, and the
    handler answers with the number of records.  Every row has the venue
    "WSOP Las Vegas", a non-empty time, a buy-in of at least 100 and a
    rake percentage of at least a half, and is neither a satellite nor a
    restart.  When the buy-in is at most 10^15, the four rake amounts are
    stored as whole numbers (none is turned into NULL): the add-on is
    positive, the house fee is at least the add-on, the rake at least the
    house fee and below the buy-in, and the prize pool is the buy-in minus
    the rake. *)
Theorem upload_columnar_rows :
  forall (currentYear : Z) (pdfText : string) (bodyVenue : option string),
    detectFormat pdfText = wsop ->
    let rows := map insertOfEvent (parseWSOP2025Schedule pdfText 2026) in
    Outcome.inserts (uploadSchedule currentYear pdfText bodyVenue) = rows
    /\ Outcome.response (uploadSchedule currentYear pdfText bodyVenue)
       = Uploaded wsop (List.length (parseWSOP2025Schedule pdfText 2026))
    /\ (forall currentYear' bodyVenue',
          uploadSchedule currentYear' pdfText bodyVenue'
          = uploadSchedule currentYear pdfText bodyVenue)
    /\ forall row, In row rows ->
         Insert.venue row = "WSOP Las Vegas"
         /\ Insert.time row <> ""
         /\ In (Insert.game_variant row) variantLabels
         /\ Insert.is_satellite row = 0%Z /\ Insert.is_restart row = 0%Z
         /\ Insert.notes row = None
         /\ Insert.target_event row = None /\ Insert.parent_event row = None
         /\ atLeast 100 (Insert.buyin row)
         /\ (exists rakePct : Q,
               Insert.rake_pct row = Some (Dbl rakePct) /\ (1 # 2 <= rakePct)%Q)
         /\ forall buyin : Z,
              Insert.buyin row = JNum buyin -> (buyin <= maxBuyin)%Z ->
              exists prizePool houseFee optAddOn rakeDollars : Z,
                Insert.prize_pool row = Some (Dbl (inject_Z prizePool))
                /\ Insert.house_fee row = Some (Dbl (inject_Z houseFee))
                /\ Insert.opt_add_on row = Some (Dbl (inject_Z optAddOn))
                /\ Insert.rake_dollars row = Some (Dbl (inject_Z rakeDollars))
                /\ (0 < optAddOn <= houseFee)%Z
                /\ (houseFee <= rakeDollars < buyin)%Z
                /\ prizePool = (buyin - rakeDollars)%Z.
Proof.
  intros cy pdfText bodyVenue Hfmt rows.
  assert (Hrows : forall row, In row rows ->
            exists t, In t (parseWSOP2025Schedule pdfText 2026) /\ row = insertOfEvent t).
  { intros row Hrow. apply in_map_iff in Hrow. destruct Hrow as (t & <- & Ht). eauto. }
  assert (Hok : forall row, In row rows -> violatesNotNull row = false).
  { intros row Hrow. destruct (Hrows row Hrow) as (t & Ht & ->).
    destruct (columnar_record_rake _ _ _ Ht) as (Hb & _).
    apply violatesNotNull_NaN. cbn [insertOfEvent Insert.buyin].
    destruct (WsopParser.Tournament.buyin t); simpl in Hb; congruence. }
  assert (Hup : forall cy' bv',
            uploadSchedule cy' pdfText bv'
            = Outcome.mk rows
                (Uploaded wsop (List.length (parseWSOP2025Schedule pdfText 2026)))).
  { intros cy' bv'. unfold uploadSchedule, insertAll. rewrite Hfmt. fold rows.
    rewrite (runInserts_all rows Hok). unfold rows. now rewrite length_map. }
  split; [now rewrite Hup|]. split; [now rewrite Hup|].
  split; [intros; now rewrite !Hup|].
  intros row Hrow. destruct (Hrows row Hrow) as (t & Ht & ->).
  destruct (columnar_record_rake _ _ _ Ht)
    as (Hb & Htime & Hvenue & Hvariant & tier & Htier & H).
  cbv zeta in H. destruct H as (Epp & Ehf & Eoa & Epct & Erd).
  unfold insertOfEvent.
  cbn [Insert.venue Insert.time Insert.game_variant Insert.is_satellite
       Insert.is_restart Insert.notes Insert.target_event Insert.parent_event
       Insert.buyin Insert.prize_pool Insert.house_fee Insert.opt_add_on
       Insert.rake_dollars Insert.rake_pct].
  split; [rewrite Hvenue; reflexivity|].
  split; [apply orString_nonempty; discriminate|].
  split; [assumption|].
  do 5 (split; [reflexivity|]).
  split; [assumption|].
  split.
  { rewrite Epct. cbn [Rake.rakePct rakeOfTier]. now apply tier_percentage_stored. }
  intros buyin Ebuyin Hmax. rewrite Ebuyin in *. simpl in Hb.
  destruct (rakeOfTier_amounts buyin tier (allTiers_ordered tier Htier))
    as (rd & hf & oa & Erake & _ & Hnest & Hpos); [unfold maxBuyin in *; lia|].
  cbn [toDouble] in Epp, Ehf, Eoa, Erd. rewrite Erake in Epp, Ehf, Eoa, Erd.
  cbn [Rake.prizePool Rake.houseFee Rake.optAddOn Rake.rakeDollars] in Epp, Ehf, Eoa, Erd.
  destruct Hnest as [H1 H2]; [lia|]. destruct Hpos as [H3 H4]; [lia|].
  exists (buyin - rd)%Z, hf, oa, rd. rewrite Epp, Ehf, Eoa, Erd.
  split; [apply doubleOrNull_positive; lia|].
  split; [apply numOrNull_positive; lia|].
  split; [apply numOrNull_positive; lia|].
  split; [apply numOrNull_positive; lia|].
  repeat split; lia.
Qed.

Lemma upload_columnar_rows_witness :
  Outcome.response (uploadSchedule 2030 samplePage (Some "My Card Room")) = Uploaded wsop 2
  /\ forall row,
       In row (Outcome.inserts (uploadSchedule 2030 samplePage (Some "My Card Room"))) ->
       Insert.venue row = "WSOP Las Vegas".
Proof.
  destruct (upload_columnar_rows 2030%Z samplePage (Some "My Card Room"))
    as (Hins & Hresp & _ & Hrows); [vm_compute; reflexivity|].
  split.
  - rewrite Hresp. vm_compute. reflexivity.
  - intros row Hrow. rewrite Hins in Hrow. exact (proj1 (Hrows row Hrow)).
Defined.

(** *** Row format *)

Lemma parseGenericSchedule_returns currentYear text options :
  exists ts, parseGenericSchedule currentYear text options = Returns ts.
Proof.
  unfold parseGenericSchedule.
  match goal with
  | |- context [parseRows ?rows ?y ?v] =>
      destruct (parseRows_returns rows y v (groupIntoRows_nonempty _)) as [ts ->]
  end.
  eauto.
Qed.

Lemma venueOf_nonempty text options : venueOf text options <> "".
Proof.
  assert (Hd : forall allText, GenericParser.detectVenue allText <> "").
  { intros allText. destruct (detectVenue_range allText) as [->|H]; [discriminate|].
    simpl in H.
    repeat (destruct H as [<-|H]; [discriminate|]). destruct H. }
  unfold venueOf. destruct (GenericParser.Options.venue options) as [v|]; [|apply Hd].
  destruct v; simpl; [apply Hd | discriminate].
Qed.

(** X17.  An upload in the row format never ends in the handler's catch
    because of the parser, which always returns its records.  It runs one
    INSERT per record and answers with their number, unless a record has a
    buy-in that is [NaN] (a total entry "$," without a digit): the INSERT
    of the first such record fails on the NOT NULL buy-in column, no later
    record is inserted, and the handler answers with an error.  No
    parameter array has a blank event name, time or venue; the venue is
    the form's venue when that is not empty, and otherwise the detected
    one; and no optional column holds a falsy number or an empty string. *)
Theorem upload_row_rows :
  (forall (currentYear : Z) (pdfText : string) (bodyVenue : option string),
     detectFormat pdfText = generic ->
     exists tournaments,
       GenericParser.parseGenericSchedule currentYear pdfText
         (GenericParser.Options.mk (userVenueOf bodyVenue)) = Returns tournaments
       /\ (let rows := map insertOfRow tournaments in
           let outcome := uploadSchedule currentYear pdfText bodyVenue in
           ((forall row, In row rows -> Insert.buyin row <> JNaN)
            /\ Outcome.inserts outcome = rows
            /\ Outcome.response outcome = Uploaded generic (List.length tournaments))
           \/ (exists before failing after,
                 rows = (before ++ failing :: after)%list
                 /\ (forall row, In row before -> Insert.buyin row <> JNaN)
                 /\ Insert.buyin failing = JNaN
                 /\ Outcome.inserts outcome = (before ++ [failing])%list
                 /\ Outcome.response outcome = ServerError))
       /\ forall row, In row (map insertOfRow tournaments) ->
            Insert.event_name row <> ""
            /\ Insert.time row <> ""
            /\ Insert.venue row <> ""
            /\ Insert.venue row
               = venueOf pdfText (GenericParser.Options.mk (userVenueOf bodyVenue))
            /\ (forall v, bodyVenue = Some v -> v <> "" -> Insert.venue row = v)
            /\ noFalsyColumn row)
  /\ (exists row,
        Outcome.inserts (uploadSchedule 2026 blankAmountText None) = [row]
        /\ Insert.buyin row = JNaN
        /\ Outcome.response (uploadSchedule 2026 blankAmountText None) = ServerError
        /\ storedRows (uploadSchedule 2026 blankAmountText None) = []).
Proof.
  split; [|eexists; split; [vm_compute; reflexivity | repeat split]].
  intros cy pdfText bodyVenue Hfmt.
  destruct (parseGenericSchedule_returns cy pdfText
              (GenericParser.Options.mk (userVenueOf bodyVenue))) as [ts Hts].
  exists ts. split; [exact Hts|]. split.
  { cbv zeta. unfold uploadSchedule, insertAll. rewrite Hfmt, Hts.
    destruct (runInserts_spec (map insertOfRow ts))
      as [[Hall ->] | (before & failing & after & E & Hb & Hf & ->)].
    - left. split; [|split; [reflexivity | now rewrite length_map]].
      intros row Hrow. apply violatesNotNull_NaN. now apply Hall.
    - right. exists before, failing, after. split; [assumption|].
      split; [intros row Hrow; apply violatesNotNull_NaN; now apply Hb|].
      split; [now apply violatesNotNull_true|]. split; reflexivity. }
  intros row Hrow. apply in_map_iff in Hrow. destruct Hrow as (t & <- & Ht).
  destruct (parseGenericSchedule_origin _ _ _ _ _ Hts Ht)
    as (r & t0 & e & _ & Hparse & ->).
  assert (Hvenue : GenericParser.Tournament.venue (GenericParser.linkRestart e t0)
                   = venueOf pdfText (GenericParser.Options.mk (userVenueOf bodyVenue))).
  { rewrite linkRestart_venue. exact (parseRow_venue _ _ _ _ Hparse). }
  unfold insertOfRow.
  cbn [Insert.event_name Insert.time Insert.venue].
  split; [apply orString_nonempty; discriminate|].
  split; [apply orString_nonempty; discriminate|].
  rewrite Hvenue, (orString_truthy _ _ (venueOf_nonempty _ _)).
  split; [apply venueOf_nonempty|]. split; [reflexivity|]. split.
  - intros v -> Hv. unfold venueOf, userVenueOf. simpl.
    destruct v; [congruence | reflexivity].
  - unfold noFalsyColumn.
    cbn [Insert.starting_chips Insert.prize_pool Insert.house_fee Insert.opt_add_on
         Insert.rake_pct Insert.rake_dollars Insert.level_duration Insert.notes
         Insert.target_event Insert.parent_event].
    repeat split;
      first [ apply doubleOrNull_stored | apply numOrNull_stored
            | apply stringOrNull_nonempty | apply textOrNull_nonempty ].
Qed.

Lemma upload_row_rows_witness :
  exists tournaments,
    GenericParser.parseGenericSchedule 2026 "TUES JAN 6 NLH $100 $100"
      (GenericParser.Options.mk (userVenueOf (Some "My Card Room"))) = Returns tournaments
    /\ Outcome.response (uploadSchedule 2026 "TUES JAN 6 NLH $100 $100"
                           (Some "My Card Room")) = Uploaded generic 1
    /\ forall row, In row (map insertOfRow tournaments) ->
         Insert.event_name row <> "" /\ Insert.venue row = "My Card Room".
Proof.
  destruct (proj1 upload_row_rows 2026%Z "TUES JAN 6 NLH $100 $100" (Some "My Card Room"))
    as (ts & Hts & _ & Hrows); [vm_compute; reflexivity|].
  exists ts. split; [exact Hts|]. split; [vm_compute; reflexivity|].
  intros row Hrow. destruct (Hrows row Hrow) as (Hname & _ & _ & _ & Hv & _).
  split; [exact Hname | apply (Hv "My Card Room" eq_refl); discriminate].
Defined.

(** A rake of zero dollars, or one that is [NaN], gives a percentage that
    is falsy too; and a rake is only computed from a prize pool that is a
    positive number. *)
Lemma rakeOf_stored totalEntry prizePool :
  (doubleOrNull (option_map snd (rakeOf totalEntry prizePool)) <> None ->
   doubleOrNull (option_map fst (rakeOf totalEntry prizePool)) <> None)
  /\ (doubleOrNull (option_map fst (rakeOf totalEntry prizePool)) <> None ->
      numOrNull prizePool <> None).
Proof.
  unfold rakeOf.
  destruct prizePool as [pp|]; [|simpl; tauto].
  destruct (isPositive totalEntry) eqn:Hte; [|simpl; tauto].
  destruct (isPositive pp) eqn:Hpp; [|simpl; tauto].
  cbn [andb option_map fst snd]. split.
  - unfold doubleOrNull.
    destruct (falsyDouble (Dsub (toDouble totalEntry) (toDouble pp))) eqn:E;
      [|discriminate].
    intros H. exfalso. apply H. clear H.
    destruct (Dsub (toDouble totalEntry) (toDouble pp)) as [q| | |] eqn:Ed;
      try discriminate; [|reflexivity].
    simpl in E. apply Qeq_bool_iff in E.
    destruct totalEntry as [te| | |]; try discriminate;
      [|destruct pp; discriminate].
    simpl in Hte. apply Z.ltb_lt in Hte. cbn [toDouble Ddiv].
    assert (Hz : Qeq_bool (inject_Z te) 0 = false).
    { destruct (Qeq_bool (inject_Z te) 0) eqn:E0; [|reflexivity].
      apply Qeq_bool_iff in E0. unfold Qeq in E0. simpl in E0. lia. }
    rewrite Hz, (round64_zero (q / inject_Z te)%Q)
      by (rewrite E; unfold Qdiv; apply Qmult_0_l).
    reflexivity.
  - intros _. unfold numOrNull, doubleOrNull.
    destruct pp as [z| | |]; try discriminate. simpl in Hpp. apply Z.ltb_lt in Hpp.
    cbn [option_map toDouble falsyDouble].
    destruct (Qeq_bool (inject_Z z) 0) eqn:E0; [|discriminate].
    apply Qeq_bool_iff in E0. unfold Qeq in E0. simpl in E0. lia.
Qed.

(** X18.  In the parameters of every INSERT of an upload in the row
    format, and in those built from any record of the row pipeline, a rake
    percentage is only stored with its rake in dollars, and a rake in
    dollars only with its prize pool.  The converse fails: a rake
    percentage that rounds to 0.0 is stored as NULL beside its rake in
    dollars. *)
Theorem upload_rake_columns :
  (forall (currentYear : Z) (pdfText : string) (bodyVenue : option string)
          (row : Insert.t),
     detectFormat pdfText = generic ->
     In row (Outcome.inserts (uploadSchedule currentYear pdfText bodyVenue)) ->
     (Insert.rake_pct row <> None -> Insert.rake_dollars row <> None)
     /\ (Insert.rake_dollars row <> None -> Insert.prize_pool row <> None))
  /\ (forall (currentYear : Z) (text : string) (options : Options.t)
             (tournaments : list Tournament.t) (tournament : Tournament.t),
        parseGenericSchedule currentYear text options = Returns tournaments ->
        In tournament tournaments ->
        let row := insertOfRow tournament in
        (Insert.rake_pct row <> None -> Insert.rake_dollars row <> None)
        /\ (Insert.rake_dollars row <> None -> Insert.prize_pool row <> None))
  /\ exists row,
       Outcome.inserts (uploadSchedule 2026 thinRakeText None) = [row]
       /\ Outcome.response (uploadSchedule 2026 thinRakeText None) = Uploaded generic 1
       /\ Insert.buyin row = JNum 10000
       /\ Insert.rake_dollars row = Some (Dbl 1)
       /\ Insert.rake_pct row = None.
Proof.
  assert (Hrecord : forall cy text options ts t,
            parseGenericSchedule cy text options = Returns ts -> In t ts ->
            (Insert.rake_pct (insertOfRow t) <> None
             -> Insert.rake_dollars (insertOfRow t) <> None)
            /\ (Insert.rake_dollars (insertOfRow t) <> None
                -> Insert.prize_pool (insertOfRow t) <> None));
    [|split; [|split; [exact Hrecord
                      |eexists; split; [vm_compute; reflexivity | repeat split]]]].
  2: { intros cy pdfText bodyVenue row Hfmt Hrow.
       destruct (parseGenericSchedule_returns cy pdfText (Options.mk (userVenueOf bodyVenue)))
         as [ts Hts].
       unfold uploadSchedule in Hrow. rewrite Hfmt, Hts, insertAll_inserts in Hrow.
       apply runInserts_incl in Hrow.
       apply in_map_iff in Hrow. destruct Hrow as (t & <- & Ht).
       exact (Hrecord _ _ _ _ _ Hts Ht). }
  intros cy pdfText options ts t Hts Ht.
  destruct (parseGenericSchedule_origin _ _ _ _ _ Hts Ht)
    as (r & t0 & e & _ & Hparse & ->).
  destruct (parseRow_rake _ _ _ _ Hparse) as [Hd Hp].
  assert (Hsame : Tournament.rakeDollars (linkRestart e t0) = Tournament.rakeDollars t0
                  /\ Tournament.rakePct (linkRestart e t0) = Tournament.rakePct t0
                  /\ Tournament.prizePool (linkRestart e t0) = Tournament.prizePool t0).
  { destruct (linkRestart_same e t0) as [->|[p ->]]; repeat split; reflexivity. }
  destruct Hsame as (E1 & E2 & E3).
  unfold insertOfRow. cbn [Insert.rake_pct Insert.rake_dollars Insert.prize_pool].
  rewrite E1, E2, E3, Hd, Hp. apply rakeOf_stored.
Qed.

Lemma upload_rake_columns_witness :
  exists row,
    Outcome.inserts (uploadSchedule 2026 "MON JAN 5 10AM NLH $100 $90" None) = [row]
    /\ Insert.rake_pct row <> None
    /\ Insert.rake_dollars row <> None.
Proof.
  eexists. split; [vm_compute; reflexivity|].
  match goal with
  | |- Insert.rake_pct ?row <> None /\ _ =>
      destruct (proj1 upload_rake_columns 2026%Z "MON JAN 5 10AM NLH $100 $90"
                  None row) as [Hpct _];
      [vm_compute; reflexivity | vm_compute; left; reflexivity |]
  end.
  split; [discriminate | apply Hpct; discriminate].
Defined.
End Upload.

(* ================================================================== *)
(** ** The matcher is sound *)

Section MatcherSound.
Import JS Re MatchVocabulary.

Lemma starLoop_sound ci r k fuel :
  (forall j st res, rmatch ci r j st = Some res ->
     exists st', Matches ci r st st' /\ j st' = Some res) ->
  forall st res, starLoop (rmatch ci r) k fuel st = Some res ->
    exists st', Matches ci (Star r) st st' /\ k st' = Some res.
Proof.
  intros Hbody. induction fuel as [|fuel IH]; simpl; intros st res H.
  - exists st. split; [constructor | assumption].
  - destruct (rmatch ci r _ st) as [m|] eqn:E.
    + injection H as ->. apply Hbody in E. destruct E as (st1 & M1 & E).
      destruct (m_pos st1 =? m_pos st); [discriminate|].
      apply IH in E. destruct E as (st2 & M2 & E).
      exists st2. split; [econstructor; eauto | assumption].
    + exists st. split; [constructor | assumption].
Qed.

(** A successful run of the matcher is a match of the pattern, up to the
    position it hands to its continuation. *)
Lemma rmatch_sound ci r :
  forall k st res, rmatch ci r k st = Some res ->
    exists st', Matches ci r st st' /\ k st' = Some res.
Proof.
  induction r as [|c|p|r1 IH1 r2 IH2|r1 IH1 r2 IH2|r IH|n r IH| | |];
    simpl; intros k st res H.
  - exists st. split; [constructor | assumption].
  - destruct (m_rest st) as [|x s'] eqn:E; [discriminate|].
    destruct (eqChar ci c x) eqn:Ec; [|discriminate].
    exists (advance st x s'). split; [now constructor | assumption].
  - destruct (m_rest st) as [|x s'] eqn:E; [discriminate|].
    destruct (inClass ci p x) eqn:Ec; [|discriminate].
    exists (advance st x s'). split; [now constructor | assumption].
  - apply IH1 in H. destruct H as (st1 & M1 & H).
    apply IH2 in H. destruct H as (st2 & M2 & H).
    exists st2. split; [econstructor; eauto | assumption].
  - destruct (rmatch ci r1 k st) as [m|] eqn:E.
    + injection H as ->. apply IH1 in E. destruct E as (st' & M & E).
      exists st'. split; [now apply M_AltL | assumption].
    + apply IH2 in H. destruct H as (st' & M & E').
      exists st'. split; [now apply M_AltR | assumption].
  - eapply (starLoop_sound ci r k (S (String.length (m_rest st)))); eauto.
  - apply IH in H. destruct H as (st1 & M1 & H).
    exists (capture n (m_pos st) st1). split; [now constructor | assumption].
  - destruct (Nat.eqb_spec (m_pos st) 0); [|discriminate].
    exists st. split; [now constructor | assumption].
  - destruct (m_rest st) eqn:E; [|discriminate].
    exists st. split; [now constructor | assumption].
  - destruct (xorb _ _) eqn:E; [|discriminate].
    exists st. split; [now constructor | assumption].
Qed.

Lemma sliceFrom_step s : forall p x s',
  sliceFrom s p = String x s' -> sliceFrom s (S p) = s'.
Proof.
  induction s as [|c s IH]; intros p x s' H.
  - destruct p; discriminate.
  - destruct p as [|p]; simpl in *.
    + injection H as _ <-. now destruct s.
    + destruct s as [|c' s2]; [destruct p; discriminate|].
      exact (IH p x s' H).
Qed.

Lemma Matches_within ci s r st st' :
  Matches ci r st st' -> within s st -> within s st'.
Proof.
  unfold within. induction 1; intros W; auto.
  - simpl. symmetry. apply (sliceFrom_step s (m_pos st) x). congruence.
  - simpl. symmetry. apply (sliceFrom_step s (m_pos st) x). congruence.
Qed.

(** A pattern without groups captures nothing. *)
Lemma Matches_caps ci r st st' :
  Matches ci r st st' -> hasGroup r = false -> m_caps st' = m_caps st.
Proof.
  induction 1; simpl; intros G; auto; try discriminate.
  - apply orb_false_elim in G. destruct G as [G1 G2].
    rewrite IHMatches2, IHMatches1; auto.
  - apply orb_false_elim in G. tauto.
  - apply orb_false_elim in G. tauto.
  - rewrite IHMatches2, IHMatches1; auto.
Qed.

(** A match found by [exec] starts at a position of the subject with no
    group captured yet, and is a match of the pattern from there. *)
Lemma searchFrom_sound re s0 :
  forall s pos prev m,
    s = sliceFrom s0 pos ->
    searchFrom re pos prev s = Some m ->
    exists st0,
      within s0 st0 /\ m_pos st0 = index m /\ m_caps st0 = []
      /\ Matches (ignoreCase re) (source re) st0 (after m)
      /\ groups m = m_caps (after m) /\ lastIndex m = m_pos (after m).
Proof.
  induction s as [|c s IH]; intros pos prev m Hs; simpl.
  - destruct (rmatch _ _ Some _) as [st|] eqn:E; [|discriminate].
    intros [= <-]. apply rmatch_sound in E. destruct E as (st' & M & [= ->]).
    eexists. split; [|split; [|split; [|split; [exact M | split; reflexivity]]]];
      [exact Hs | reflexivity | reflexivity].
  - destruct (rmatch _ _ Some _) as [st|] eqn:E.
    + intros [= <-]. apply rmatch_sound in E. destruct E as (st' & M & [= ->]).
      eexists. split; [|split; [|split; [|split; [exact M | split; reflexivity]]]];
        [exact Hs | reflexivity | reflexivity].
    + apply IH. symmetry. apply (sliceFrom_step s0 pos c). now symmetry.
Qed.

Lemma exec_sound re s m :
  exec re s = Some m ->
  exists st0,
    within s st0 /\ m_pos st0 = index m /\ m_caps st0 = []
    /\ Matches (ignoreCase re) (source re) st0 (after m)
    /\ groups m = m_caps (after m) /\ lastIndex m = m_pos (after m).
Proof.
  unfold exec. apply searchFrom_sound. now destruct s.
Qed.

Lemma substring_take s : forall a n, substring a n s = take n (sliceFrom s a).
Proof.
  induction s as [|c s IH]; intros a n.
  - destruct a, n; reflexivity.
  - destruct a as [|a]; simpl.
    + destruct n; simpl; [reflexivity|]. f_equal. rewrite (IH 0 n). now destruct s.
    + rewrite IH. reflexivity.
Qed.

(** The text of a group that starts at the position [st]. *)
Lemma slice_within s st n :
  within s st -> slice s (m_pos st) (m_pos st + n) = take n (m_rest st).
Proof.
  unfold within, slice. intros ->. rewrite substring_take. f_equal. lia.
Qed.
End MatcherSound.

(* ================================================================== *)
(** ** Row pipeline: year and date *)

Ltac inv H := inversion H; subst; clear H.

(** Takes apart the matches of sequences, alternatives, groups and
    single characters among the hypotheses. *)
Ltac inv_matches :=
  repeat (match goal with
          | H : MatchVocabulary.Matches _ (Re.Seq _ _) _ _ |- _ => inv H
          | H : MatchVocabulary.Matches _ (Re.Alt _ _) _ _ |- _ => inv H
          | H : MatchVocabulary.Matches _ (Re.Grp _ _) _ _ |- _ => inv H
          | H : MatchVocabulary.Matches _ (Re.Chr _) _ _ |- _ => inv H
          | H : MatchVocabulary.Matches _ (Re.Cls _) _ _ |- _ => inv H
          | H : MatchVocabulary.Matches _ Re.Eps _ _ |- _ => inv H
          | H : MatchVocabulary.Matches _ Re.WordB _ _ |- _ => inv H
          | H : MatchVocabulary.Matches _ Re.Bol _ _ |- _ => inv H
          | H : MatchVocabulary.Matches _ Re.Eol _ _ |- _ => inv H
          end;
          cbn [Re.m_rest Re.m_pos Re.m_caps Re.m_prev Re.advance Re.capture] in *;
          subst).

Section Header.
Import JS Re MatchVocabulary GenericParser Statements.
Import WsopParser (re, rei, Cat).

Lemma eqChar_exact c x : eqChar false c x = true -> x = c.
Proof. unfold eqChar. intros H. apply Ascii.eqb_eq in H. congruence. Qed.

Lemma prefix_nil s : String.prefix "" s = true.
Proof. now destruct s. Qed.

Lemma includes_sliceFrom s : forall p sub,
  String.prefix sub (sliceFrom s p) = true -> includes s sub = true.
Proof.
  induction s as [|c s IH]; intros p sub H.
  - assert (E : sliceFrom "" p = "") by (destruct p; reflexivity).
    rewrite E in H. cbn [includes]. now rewrite H.
  - cbn [includes]. destruct (String.prefix sub (String c s)) eqn:P; [reflexivity|].
    destruct p as [|p]; [cbn [sliceFrom] in H; congruence|].
    exact (IH p sub H).
Qed.

(** X19.  [detectYear] gives the calendar year exactly when the first
    500 characters hold no year 2020..2039 as a word of its own; otherwise
    a year 2020..2039 whose digits stand in those 500 characters. *)
Theorem detectYear_range :
  forall (currentYear : Z) (text : string),
    (test yearRe (slice text 0 500) = false
     /\ detectYear currentYear text = currentYear)
    \/ (test yearRe (slice text 0 500) = true
        /\ (2020 <= detectYear currentYear text <= 2039)%Z
        /\ includes (slice text 0 500) (toString (detectYear currentYear text)) = true).
Proof.
  intros cy text. unfold detectYear, test.
  destruct (exec yearRe (slice text 0 500)) as [m|] eqn:E; [right | left; auto].
  split; [reflexivity|].
  destruct (exec_sound _ _ _ E) as (st0 & W & Hidx & Hcaps & M & Hg & _).
  unfold group. rewrite Hg.
  remember (after m) as stF eqn:HF. clear HF E m Hidx Hg.
  cbv [yearRe re source ignoreCase Cat Lit digit] in M.
  inv_matches.
  all: cbn [lookupGroup Nat.eqb];
    repeat match goal with
           | H : eqChar false _ _ = true |- _ => apply eqChar_exact in H; subst
           end;
    match goal with
    | W : within _ ?st, R : m_rest ?st = _, D : inClass false isDigit _ = true |- _ =>
        change (S (S (S (S (m_pos st))))) with (4 + m_pos st);
        rewrite (Nat.add_comm 4), (slice_within _ _ 4 W), R; cbn [take];
        unfold inClass in D; apply isDigit_cases in D; simpl in D;
        repeat (destruct D as [<-|D];
                [match goal with
                 | |- context [digitsValue 0 ?g] =>
                     let v := eval vm_compute in (digitsValue 0 g) in
                     change (digitsValue 0 g) with v
                 end;
                 split; [lia|];
                 match goal with
                 | |- context [toString ?z] =>
                     let v := eval vm_compute in (toString z) in
                     change (toString z) with v
                 end;
                 apply (includes_sliceFrom _ (m_pos st)); unfold within in W;
                 rewrite <- W, R; cbn; apply prefix_nil|]);
        destruct D
    end.
Qed.



Lemma inClass_digit ci x : inClass ci isDigit x = true -> isDigit x = true.
Proof.
  destruct ci; [|exact (fun H => H)].
  destruct x as [[] [] [] [] [] [] [] []]; vm_compute; intros H;
    first [reflexivity | discriminate H].
Qed.

Lemma eqChar_upper c x : eqChar true c x = true -> toUpper x = toUpper c.
Proof. unfold eqChar. intros H. apply Ascii.eqb_eq in H. congruence. Qed.

Lemma within_capture s n start st : within s st -> within s (capture n start st).
Proof. exact (fun H => H). Qed.

(** What the groups of a match of the date pattern hold: an abbreviated
    month in any letter case, and one or two digits. *)
Lemma dateRe_groups joined m :
  exec dateRe joined = Some m ->
  In (toUpperCase (group joined m 2)) (map fst MONTH_FULL)
  /\ (0 <= digitsValue 0 (group joined m 3) <= 99)%Z.
Proof.
  intros E.
  destruct (exec_sound _ _ _ E) as (st0 & W & _ & Hcaps & M & Hg & _).
  unfold group. rewrite Hg.
  remember (after m) as stF eqn:HF. clear HF E m Hg.
  cbv [dateRe rei source ignoreCase Cat] in M.
  inv_matches.
  match goal with
  | Hday : Matches true dayNames st0 ?s1,
    Hsp1 : Matches true (Plus space) (capture 1 _ ?s1) ?sB,
    Hmon : Matches true monthNames ?sB ?s2,
    Hsp2 : Matches true (Plus space) (capture 2 _ ?s2) ?sD,
    Hd1 : Matches true digit ?sD ?s3,
    Hd2 : Matches true (Opt (Seq digit Eps)) ?s3 ?sE |- _ =>
      pose proof (Matches_within _ joined _ _ _ Hsp1
                    (within_capture _ _ _ _ (Matches_within _ joined _ _ _ Hday W)))
        as WB;
      pose proof (Matches_within _ joined _ _ _ Hsp2
                    (within_capture _ _ _ _ (Matches_within _ joined _ _ _ Hmon WB)))
        as WD;
      assert (C : m_caps sE = (2, (m_pos sB, m_pos s2)) :: m_caps s2)
        by (rewrite (Matches_caps _ _ _ _ Hd2 eq_refl),
              (Matches_caps _ _ _ _ Hd1 eq_refl),
              (Matches_caps _ _ _ _ Hsp2 eq_refl); reflexivity);
      rewrite C; cbn [lookupGroup Nat.eqb]; clear C Hday Hsp1 Hsp2 W Hcaps; split;
      [ clear Hd1 Hd2 WD; cbv [monthNames Words AltOf map Lit] in Hmon
      | clear Hmon WB; cbv [digit Opt] in Hd1, Hd2 ]
  end.
  - inv_matches;
      match goal with
      | R : m_rest ?st = _ |- context [slice joined (m_pos ?st) _] =>
          change (S (S (S (m_pos st)))) with (3 + m_pos st);
          rewrite (Nat.add_comm 3), (slice_within _ _ 3 WB), R;
          cbn [take toUpperCase]
      end;
      repeat match goal with
             | H : eqChar true _ _ = true |- _ =>
                 apply eqChar_upper in H; rewrite H; clear H
             end;
      vm_compute; tauto.
  - inv_matches;
      match goal with
      | R : m_rest ?st = String _ (String _ _) |- context [slice joined (m_pos ?st) (S (S _))] =>
          change (S (S (m_pos st))) with (2 + m_pos st);
          rewrite (Nat.add_comm 2), (slice_within _ _ 2 WD), R; cbn [take]
      | R : m_rest ?st = String _ _ |- context [slice joined (m_pos ?st) (S _)] =>
          change (S (m_pos st)) with (1 + m_pos st);
          rewrite (Nat.add_comm 1), (slice_within _ _ 1 WD), R; cbn [take]
      end;
      repeat match goal with
             | H : inClass true isDigit _ = true |- _ =>
                 apply inClass_digit, isDigit_cases in H; simpl in H
             end;
      repeat match goal with
             | H : _ \/ _ |- _ => destruct H as [<-|H]
             | H : False |- _ => destruct H
             end;
      vm_compute; split; discriminate.
Qed.

Lemma lookupOr_month abbr :
  In abbr (map fst MONTH_FULL) -> In (lookupOr MONTH_FULL abbr) (map snd MONTH_FULL).
Proof.
  simpl. intros H.
  repeat (destruct H as [<-|H]; [vm_compute; tauto|]). destruct H.
Qed.

Lemma parseRow_date rowLines year venue t :
  parseRow rowLines year venue = Returns (Some t) ->
  exists month day,
    In month (map snd MONTH_FULL) /\ (0 <= day <= 99)%Z
    /\ Tournament.date t = month ++ " " ++ toString day ++ ", " ++ toString year.
Proof.
  unfold parseRow. destruct rowLines as [|line0 rest]; [discriminate|].
  destruct (exec dateRe (rowJoined (line0 :: rest))) as [dateMatch|] eqn:E; [|discriminate].
  intros [= <-]. cbn [Tournament.date].
  destruct (dateRe_groups _ _ E) as [Hm Hd].
  eexists. eexists. split; [apply lookupOr_month; exact Hm|].
  split; [exact Hd | reflexivity].
Qed.

(** X20.  The date of every record of the row pipeline is a full month
    name, a day number 0..99 without leading zero and the year of the
    document: the month is the row's own abbreviation in any letter case,
    and the day is not checked against the month. *)
Theorem row_record_date :
  forall (currentYear : Z) (text : string) (options : Options.t)
         (ts : list Tournament.t) (t : Tournament.t),
    parseGenericSchedule currentYear text options = Returns ts ->
    In t ts ->
    exists month day,
      In month (map snd MONTH_FULL) /\ (0 <= day <= 99)%Z
      /\ Tournament.date t
         = month ++ " " ++ toString day ++ ", "
           ++ toString (detectYear currentYear
                          (join (String "010" "") (WsopParser.splitPages text))).
Proof.
  intros cy text options ts t H Hin.
  destruct (parseGenericSchedule_origin _ _ _ _ _ H Hin) as (row & t0 & e & _ & Hrow & ->).
  destruct (parseRow_date _ _ _ _ Hrow) as (month & day & Hm & Hd & Hdate).
  exists month, day. split; [assumption|]. split; [assumption|].
  rewrite <- Hdate. destruct (linkRestart_same e t0) as [->|[p ->]]; reflexivity.
Qed.

Lemma row_record_date_witness :
  exists t,
    parseGenericSchedule 2026 "mon feb 31 10AM NLH $100 $90" noOptions = Returns [t]
    /\ Tournament.date t = "February 31, 2026"
    /\ exists month day,
         In month (map snd MONTH_FULL) /\ (0 <= day <= 99)%Z
         /\ Tournament.date t = month ++ " " ++ toString day ++ ", "
              ++ toString (detectYear 2026
                   (join (String "010" "")
                      (WsopParser.splitPages "mon feb 31 10AM NLH $100 $90"))).
Proof.
  eexists. split; [vm_compute; reflexivity|]. split; [reflexivity|].
  match goal with
  | |- exists month day, _ /\ _ /\ Tournament.date ?t = _ =>
      apply (row_record_date 2026%Z "mon feb 31 10AM NLH $100 $90" noOptions [t] t);
      [vm_compute; reflexivity | left; reflexivity]
  end.
Defined.
End Header.

(* ================================================================== *)
(** ** Event numbers and row starts *)

Section Shapes.
Import JS Re MatchVocabulary Statements ShapeVocabulary.
Import WsopParser (re, rei, Cat).

Ltac shape_done :=
  cbn [take sliceFrom GenericParser.allDigits String.length append];
  split; [reflexivity|];
  split; [repeat match goal with
                 | D : isDigit _ = true |- _ => rewrite D; clear D
                 end; reflexivity|];
  split; [lia|];
  first [ left; reflexivity | right; eexists; split; [reflexivity | assumption] ].

Lemma sliceFrom_0 s : sliceFrom s 0 = s.
Proof. now destruct s. Qed.

Lemma eventNumberRe_shape e :
  test WsopParser.eventNumberRe e = true -> eventNumberShape (inRange "A" "E") e.
Proof.
  unfold test. destruct (exec WsopParser.eventNumberRe e) as [m|] eqn:E; [|discriminate].
  intros _. destruct (exec_sound _ _ _ E) as (st0 & W & _ & _ & M & _ & _).
  remember (after m) as stF eqn:HF. clear HF E m.
  cbv [WsopParser.eventNumberRe re source ignoreCase Cat] in M.
  unfold within in W.
  inv_matches.
  all: match goal with
       | P : m_pos ?st = 0 |- _ => rewrite P, sliceFrom_0 in W
       end.
  cbv [Opt digit range] in *. inv_matches.
  all: unfold inClass in *; unfold eventNumberShape;
    match goal with
    | R : m_rest _ = ?s |- _ =>
        rewrite R;
        first [ exists (take 3 s), (sliceFrom s 3); shape_done
              | exists (take 2 s), (sliceFrom s 2); shape_done
              | exists (take 1 s), (sliceFrom s 1); shape_done ]
    end.
Qed.

(** X21.  The event number of every record of the columnar pipeline is
    one of the lines of its page and consists of one to three digits,
    followed by at most one letter A..E. *)
Theorem columnar_event_number_shape :
  forall (text : string) (year : Z) (t : WsopParser.Tournament.t),
    In t (WsopParser.parseWSOP2025Schedule text year) ->
    eventNumberShape (inRange "A" "E") (WsopParser.Tournament.eventNumber t)
    /\ exists page,
         In page (WsopParser.splitPages text)
         /\ In (WsopParser.Tournament.eventNumber t) (WsopParser.pageLines page).
Proof.
  intros text year t Hin.
  destruct (parseWSOP2025Schedule_In _ _ _ Hin) as (page & Hpage & Ht).
  assert (Htok : eventNumberToken (WsopParser.pageLines page)
                   (WsopParser.Tournament.eventNumber t)).
  { revert Ht. unfold WsopParser.parsePage.
    pose proof (findSections_eventNumbers (WsopParser.pageLines page)) as Hall.
    destruct (WsopParser.eventNumbers _) eqn:E; [intros []|]. rewrite <- E in *.
    intros Ht. apply pushed_In in Ht. destruct Ht as (i & Hi & Ht).
    apply in_seq in Hi. apply parseEvent_fields in Ht. rewrite Ht.
    rewrite Forall_forall in Hall. apply Hall. apply nth_In. lia. }
  destruct Htok as [Htest Hline].
  split; [now apply eventNumberRe_shape|]. exists page. auto.
Qed.

Lemma columnar_event_number_shape_witness :
  exists t,
    nth_error (WsopParser.parseWSOP2025Schedule samplePage 2026) 1 = Some t
    /\ WsopParser.Tournament.eventNumber t = "59"
    /\ eventNumberShape (inRange "A" "E") (WsopParser.Tournament.eventNumber t).
Proof.
  eexists. split; [vm_compute; reflexivity|]. split; [reflexivity|].
  match goal with
  | |- eventNumberShape _ (WsopParser.Tournament.eventNumber ?t) =>
      apply (columnar_event_number_shape samplePage 2026%Z t);
      vm_compute; right; left; reflexivity
  end.
Defined.

Section RowStart.
Import GenericParser.

Lemma rowStart_head line :
  test ROW_START_RE line = true ->
  exists c1 rest,
    line = String c1 rest
    /\ (isDigit c1 = true
        \/ exists c2 rest',
             rest = String c2 rest'
             /\ In (toUpper c1, toUpper c2)
                  [("M", "O"); ("T", "U"); ("W", "E"); ("T", "H"); ("F", "R");
                   ("S", "A"); ("S", "U")]%char).
Proof.
  unfold test. destruct (exec ROW_START_RE line) as [m|] eqn:E; [|discriminate].
  intros _. destruct (exec_sound _ _ _ E) as (st0 & W & _ & _ & M & _ & _).
  remember (after m) as stF eqn:HF. clear HF E m.
  cbv [ROW_START_RE rei source ignoreCase Cat] in M.
  unfold within in W.
  inv_matches.
  match goal with
  | P : m_pos ?st = 0 |- _ => rewrite P, sliceFrom_0 in W
  end.
  repeat match goal with
         | H : Matches _ (Plus _) _ _ |- _ => clear H
         | H : Matches _ monthNames _ _ |- _ => clear H
         | H : Matches _ digit _ _ |- _ => clear H
         | H : Matches _ (Opt (Seq digit Eps)) _ _ |- _ => clear H
         | H : xorb _ _ = true |- _ => clear H
         end.
  match goal with
  | Hopt : Matches true (Opt (Grp _ _)) _ _ |- _ => unfold Opt in Hopt; inv Hopt
  end.
  - (* the row starts with its event number *)
    match goal with
    | H : Matches _ dayNames _ _ |- _ => clear H
    end.
    inv_matches.
    all: match goal with
         | D : Matches true digit ?st _, P : m_pos ?st = 0 |- _ => unfold digit in D; inv D
         end;
      do 2 eexists; (split; [eassumption|]); left;
      eapply inClass_digit; eassumption.
  - (* the row starts with the day *)
    inv_matches.
    match goal with
    | H : Matches _ dayNames _ _ |- _ => cbv [dayNames Words AltOf map Lit] in H
    end.
    inv_matches.
    all: do 2 eexists; (split; [eassumption|]); right;
      do 2 eexists; (split; [reflexivity|]);
      repeat match goal with
             | H : eqChar true _ _ = true |- _ =>
                 apply eqChar_upper in H; rewrite H; clear H
             end;
      vm_compute; tauto.
Qed.

Lemma inClass_flight c :
  inClass true (inRange "A" "G") c = true -> flightLetter c = true.
Proof.
  destruct c as [[] [] [] [] [] [] [] []]; vm_compute; intros H;
    first [reflexivity | discriminate H].
Qed.

(** The event number [parseRow] reads off the first line of a row. *)
Lemma eventNumberRe_group firstLine m :
  exec eventNumberRe firstLine = Some m ->
  eventNumberShape flightLetter (group firstLine m 1).
Proof.
  intros E. destruct (exec_sound _ _ _ E) as (st0 & W & _ & Hcaps & M & Hg & _).
  unfold group. rewrite Hg.
  remember (after m) as stF eqn:HF. clear HF E m Hg.
  cbv [eventNumberRe rei source ignoreCase Cat] in M.
  inv_matches.
  match goal with
  | Hd : Matches true dayNames ?sB ?sC,
    Hs : Matches true (Plus space) (capture 1 _ ?sA) ?sB |- _ =>
      rewrite (Matches_caps _ _ _ _ Hd eq_refl), (Matches_caps _ _ _ _ Hs eq_refl);
      clear Hd Hs
  end.
  cbn [m_caps capture lookupGroup Nat.eqb].
  cbv [Opt digit range] in *. inv_matches.
  all: repeat match goal with
              | D : inClass true isDigit _ = true |- _ => apply inClass_digit in D
              | F : inClass true (inRange _ _) _ = true |- _ => apply inClass_flight in F
              end;
    match goal with
    | R : m_rest ?st = _ |- _ =>
        first [ change (S (S (S (S (m_pos st))))) with (4 + m_pos st);
                rewrite (Nat.add_comm 4), (slice_within _ _ 4 W)
              | change (S (S (S (m_pos st)))) with (3 + m_pos st);
                rewrite (Nat.add_comm 3), (slice_within _ _ 3 W)
              | change (S (S (m_pos st))) with (2 + m_pos st);
                rewrite (Nat.add_comm 2), (slice_within _ _ 2 W)
              | change (S (m_pos st)) with (1 + m_pos st);
                rewrite (Nat.add_comm 1), (slice_within _ _ 1 W) ];
        rewrite R; cbn [take]
    end;
    unfold eventNumberShape;
    match goal with
    | |- exists digits letter, ?s = _ /\ _ =>
        first [ exists (take 3 s), (sliceFrom s 3); shape_done
              | exists (take 2 s), (sliceFrom s 2); shape_done
              | exists (take 1 s), (sliceFrom s 1); shape_done ]
    end.
Qed.

Lemma parseRow_eventNumber rowLines year venue t :
  parseRow rowLines year venue = Returns (Some t) ->
  Tournament.eventNumber t = "" \/ eventNumberShape flightLetter (Tournament.eventNumber t).
Proof.
  unfold parseRow. destruct rowLines as [|line0 rest]; [discriminate|].
  destruct (exec dateRe (rowJoined (line0 :: rest))); [|discriminate].
  intros [= <-]. cbn [Tournament.eventNumber].
  destruct (exec eventNumberRe _) as [m|] eqn:E; [right | now left].
  exact (eventNumberRe_group _ _ E).
Qed.

(** X23.  The event number of a record of the row pipeline is empty, or
    one to three digits followed by at most one flight letter A..G in
    either case. *)
Theorem row_event_number_shape :
  forall (currentYear : Z) (text : string) (options : Options.t)
         (ts : list Tournament.t) (t : Tournament.t),
    parseGenericSchedule currentYear text options = Returns ts ->
    In t ts ->
    Tournament.eventNumber t = ""
    \/ eventNumberShape flightLetter (Tournament.eventNumber t).
Proof.
  intros cy text options ts t H Hin.
  destruct (parseGenericSchedule_origin _ _ _ _ _ H Hin) as (row & t0 & e & _ & Hrow & ->).
  destruct (linkRestart_fields e t0) as (-> & _ & _).
  exact (parseRow_eventNumber _ _ _ _ Hrow).
Qed.

Lemma row_event_number_shape_witness :
  exists t,
    parseGenericSchedule 2026 "12b MON JAN 5 10AM NLH $100 $90" noOptions = Returns [t]
    /\ Tournament.eventNumber t = "12b"
    /\ (Tournament.eventNumber t = ""
        \/ eventNumberShape flightLetter (Tournament.eventNumber t)).
Proof.
  eexists. split; [vm_compute; reflexivity|]. split; [reflexivity|].
  match goal with
  | |- Tournament.eventNumber ?t = "" \/ _ =>
      apply (row_event_number_shape 2026%Z "12b MON JAN 5 10AM NLH $100 $90"
               noOptions [t] t);
      [vm_compute; reflexivity | left; reflexivity]
  end.
Defined.

Lemma monthLine_head line :
  test monthLineRe line = true ->
  exists c1 c2 rest,
    line = String c1 (String c2 rest)
    /\ In (toUpper c1, toUpper c2)
         [("J", "A"); ("F", "E"); ("M", "A"); ("A", "P"); ("J", "U"); ("A", "U");
          ("S", "E"); ("O", "C"); ("N", "O"); ("D", "E")]%char.
Proof.
  unfold test. destruct (exec monthLineRe line) as [m|] eqn:E; [|discriminate].
  intros _. destruct (exec_sound _ _ _ E) as (st0 & W & _ & _ & M & _ & _).
  remember (after m) as stF eqn:HF. clear HF E m.
  cbv [monthLineRe rei source ignoreCase Cat] in M.
  unfold within in W.
  inv_matches.
  match goal with
  | P : m_pos ?st = 0 |- _ => rewrite P, sliceFrom_0 in W
  end.
  repeat match goal with
         | H : Matches _ (Plus _) _ _ |- _ => clear H
         | H : Matches _ digit _ _ |- _ => clear H
         end.
  match goal with
  | H : Matches _ (Words _) _ _ |- _ => cbv [Words AltOf map Lit] in H
  end.
  inv_matches.
  all: do 3 eexists; (split; [eassumption|]);
    repeat match goal with
           | H : eqChar true _ _ = true |- _ =>
               apply eqChar_upper in H; rewrite H; clear H
           end;
    vm_compute; tauto.
Qed.

Lemma presentedBy_head line :
  test presentedByRe line = true ->
  exists c1 rest, line = String c1 rest /\ toUpper c1 = "P"%char.
Proof.
  unfold test. destruct (exec presentedByRe line) as [m|] eqn:E; [|discriminate].
  intros _. destruct (exec_sound _ _ _ E) as (st0 & W & _ & _ & M & _ & _).
  remember (after m) as stF eqn:HF. clear HF E m.
  cbv [presentedByRe rei source ignoreCase Cat Lit] in M.
  unfold within in W.
  inv_matches.
  match goal with
  | P : m_pos ?st = 0 |- _ => rewrite P, sliceFrom_0 in W
  end.
  subst line. do 2 eexists. split; [eassumption|].
  repeat match goal with
         | H : eqChar true _ _ = true |- _ => apply eqChar_upper in H
         end.
  assumption.
Qed.

Lemma isDigit_toUpper c : isDigit c = true -> toUpper c = c.
Proof.
  destruct c as [[] [] [] [] [] [] [] []]; vm_compute; intros H;
    first [reflexivity | discriminate H].
Qed.

(** A line that starts a row is no month line and no "PRESENTED BY"
    line. *)
Lemma rowStart_not_heading line :
  test ROW_START_RE line = true ->
  test monthLineRe line = false /\ test presentedByRe line = false.
Proof.
  intros Hrow. destruct (rowStart_head line Hrow) as (c1 & rest & -> & Hhead).
  split.
  - destruct (test monthLineRe (String c1 rest)) eqn:Hm; [exfalso | reflexivity].
    destruct (monthLine_head _ Hm) as (d1 & d2 & rest' & [= -> ->] & Hmonth).
    destruct Hhead as [Hd | (c2 & rest2 & [= -> ->] & Hday)].
    + rewrite (isDigit_toUpper _ Hd) in Hmonth. simpl in Hmonth.
      repeat (destruct Hmonth as [[= <- _]|Hmonth]; [discriminate Hd|]).
      destruct Hmonth.
    + simpl in Hday, Hmonth. intuition congruence.
  - destruct (test presentedByRe (String c1 rest)) eqn:Hp; [exfalso | reflexivity].
    destruct (presentedBy_head _ Hp) as (d1 & rest' & [= -> ->] & Hup).
    destruct Hhead as [Hd | (c2 & rest2 & _ & Hday)].
    + rewrite (isDigit_toUpper _ Hd) in Hup. subst. discriminate Hd.
    + rewrite Hup in Hday. simpl in Hday. intuition congruence.
Qed.

(** X22.  A line that starts a row and is no footer always becomes a
    data line once the column header of its page has been seen.  Before
    that it becomes a data line, and ends the page header, unless it
    matches the series pattern of [isMetadataLine] (as a line that holds
    WINTER, CLASSIC or CHAMPIONSHIP does): then it is dropped as metadata.
    The year and the venue names do not count on such a line. *)
Theorem row_start_line_kept :
  forall (year : Z) (dataLines : list string) (rawLine : string),
    test ROW_START_RE (trim rawLine) = true ->
    test FOOTER_RE (trim rawLine) = false ->
    scanDataLine year (true, dataLines) rawLine
    = (true, WsopParser.push dataLines (trim rawLine))
    /\ scanDataLine year (false, dataLines) rawLine
       = if test seriesLineRe (trim rawLine) then (false, dataLines)
         else (true, WsopParser.push dataLines (trim rawLine)).
Proof.
  intros year dataLines rawLine Hrow Hfoot.
  destruct (rowStart_not_heading _ Hrow) as [Hmonth Hpres].
  assert (Htruthy : truthy (trim rawLine) = true).
  { destruct (rowStart_head _ Hrow) as (c & rest & -> & _). reflexivity. }
  assert (Hhead : isColumnHeaderLine (trim rawLine) = false).
  { unfold isColumnHeaderLine. now rewrite Hrow. }
  unfold scanDataLine. rewrite Htruthy, Hfoot, Hhead. cbn [negb].
  split; [reflexivity|].
  unfold isMetadataLine. rewrite Hmonth, Hpres, Hrow. cbn [negb].
  rewrite !andb_false_r.
  destruct (test seriesLineRe (trim rawLine)); reflexivity.
Qed.

Lemma row_start_line_kept_witness :
  scanDataLine 2026 (true, []) "MON JAN 5 10AM NLH CHAMPIONSHIP $100 $90"
  = (true, ["MON JAN 5 10AM NLH CHAMPIONSHIP $100 $90"])
  /\ scanDataLine 2026 (false, []) "MON JAN 5 10AM NLH CHAMPIONSHIP $100 $90"
     = (false, [])
  /\ parseGenericSchedule 2026 "MON JAN 5 10AM NLH CHAMPIONSHIP $100 $90" noOptions
     = Returns [].
Proof.
  destruct (row_start_line_kept 2026%Z [] "MON JAN 5 10AM NLH CHAMPIONSHIP $100 $90")
    as [Hdone Hbefore]; [vm_compute; reflexivity | vm_compute; reflexivity |].
  split; [rewrite Hdone; vm_compute; reflexivity|].
  split; [rewrite Hbefore; vm_compute; reflexivity|].
  vm_compute. reflexivity.
Defined.
End RowStart.
End Shapes.

(* ================================================================== *)
(** ** Columnar pipeline: the columns of a page *)

Section Columns.
Import JS Re WsopParser Statements ColumnarVocabulary ColumnVocabulary.

Ltac columns_kept :=
  unfold columnsOf;
  cbn [dates times durations reentries lateRegs pushDate pushTime pushBuyin pushChips
       pushDuration pushReentry pushLateReg pushEventName pushEventNumber setEventNames];
  unfold push;
  repeat split; try assumption;
  try (apply Forall_app; split; [assumption | constructor; [|constructor]]).

Lemma collect_columns all sec r line :
  In line all -> columnsOf all r -> columnsOf all (snd (collect sec r line)).
Proof.
  intros Hin Hall. pose proof Hall as (Hd & Ht & Hu & Hr & Hl).
  destruct sec; cbn [collect snd]; try exact Hall.
  - destruct (test dateLineRe line) eqn:E; [|exact Hall]. columns_kept. now split.
  - destruct (test timeLineRe line || String.eqb line "TBD") eqn:E; [|exact Hall].
    columns_kept. exists line. split; [assumption|]. split; [|reflexivity].
    apply orb_prop in E. destruct E as [E|E]; [now left|].
    right. now apply String.eqb_eq.
  - destruct (String.eqb line "-"); [columns_kept|].
    destruct (test dollarStartRe line); [|exact Hall].
    destruct (exec dollarAmountRe line); columns_kept.
  - destruct (test chipsLineRe line || String.eqb line "-"); [columns_kept | exact Hall].
  - destruct (test durationLineRe line || String.eqb line "-") eqn:E; [|exact Hall].
    columns_kept. destruct (String.eqb line "-") eqn:E2; [now left|].
    right. rewrite orb_false_r in E. now split.
  - match goal with
    | |- context [if ?b then _ else _] => destruct b; [columns_kept | exact Hall]
    end.
    assumption.
  - destruct (test levelsLineRe line || test firstRe line) eqn:E; [|exact Hall].
    cbn [snd]. columns_kept. split; [assumption|]. now apply orb_prop.
Qed.

Lemma flushName_columns all buf r : columnsOf all r -> columnsOf all (flushName buf r).
Proof. destruct buf; [exact (fun H => H) | exact (fun H => H)]. Qed.

Lemma scanLine_columns all st line :
  In line all -> columnsOf all (result st) -> columnsOf all (result (scanLine st line)).
Proof.
  intros Hin Hall. unfold scanLine.
  repeat match goal with
         | |- context [if ?b then _ else _] =>
             destruct b; [first [exact Hall | now apply flushName_columns]|]
         end.
  pose proof (collect_columns all (section st) (result st) line Hin Hall) as Hc.
  destruct (collect (section st) (result st) line) as [sec r]. cbn [snd] in Hc.
  destruct sec; try exact Hc.
  - destruct (isNewEventName line (eventNameBuffer st)); cbn [result];
      [now apply flushName_columns | exact Hc].
  - cbn [result]. destruct (test eventNumberRe line); exact Hc.
Qed.

Lemma findSections_columns lines : columnsOf lines (findSections lines).
Proof.
  unfold findSections. cbv zeta.
  assert (H : forall ls st, incl ls lines -> columnsOf lines (result st) ->
            columnsOf lines (result (fold_left scanLine ls st))).
  { induction ls as [|l ls IH]; simpl; intros st Hincl Hst; [assumption|].
    apply IH; [intros x Hx; apply Hincl; now right|].
    apply scanLine_columns; [apply Hincl; now left | assumption]. }
  specialize (H lines (mkScan NoSection [] noSections) (incl_refl _)).
  match goal with
  | |- columnsOf _ (setEventNames ?r _) =>
      assert (Hr : columnsOf lines r)
  end.
  { apply flushName_columns. apply H. repeat split; constructor. }
  exact Hr.
Qed.

Lemma findSections_names_kept lines :
  Forall (fun n => keepName n = true) (eventNames (findSections lines)).
Proof.
  unfold findSections. cbv zeta. cbn [eventNames setEventNames].
  apply Forall_forall. intros n Hn. apply filter_In in Hn. tauto.
Qed.

Lemma keptNames_no_day names i :
  Forall (fun n => keepName n = true) names ->
  test mainEventDayRe (orEmpty (nth_error names i)) = false.
Proof.
  intros H. destruct (nth_error names i) as [n|] eqn:E; [|vm_compute; reflexivity].
  cbn [orEmpty]. apply nth_error_In in E. rewrite Forall_forall in H.
  specialize (H n E). unfold keepName in H.
  destruct (includes (toLowerCase n) "registration opens"); [discriminate|].
  destruct (test mainEventDayRe n); [discriminate | reflexivity].
Qed.

(** X24.  The test for MAIN EVENT continuation days in the loop of
    [parsePage] never fires: [findSections] has already removed such names,
    and a missing name reads as the empty string. *)
Theorem parsePage_day_check_unreachable :
  forall (lines : list string) (i : nat),
    test mainEventDayRe (orEmpty (nth_error (eventNames (findSections lines)) i)) = false.
Proof.
  intros lines i. apply keptNames_no_day, findSections_names_kept.
Qed.

Lemma nonNull_lengths buyins : forall k,
  List.length (nonNullIndices k buyins) = List.length (nonNullBuyins buyins).
Proof.
  induction buyins as [|[b|] bs IH]; intros k; simpl; [reflexivity | f_equal |]; apply IH.
Qed.

(** Event [i] gives a record exactly when the [i]-th buy-in that is not
    null is a number of at least 100. *)
Lemma parseEvent_counted sections year i :
  Forall (fun n => keepName n = true) (eventNames sections) ->
  match parseEvent sections (nonNullIndices 0 (allBuyins sections)) year i with
  | Some _ => true
  | None => false
  end
  = match nth_error (nonNullBuyins (allBuyins sections)) i with
    | Some b => countedBuyin b
    | None => false
    end.
Proof.
  intros Hnames. unfold parseEvent. rewrite (keptNames_no_day _ i Hnames).
  destruct (nth_error (nonNullIndices 0 (allBuyins sections)) i) as [rowIdx|] eqn:E.
  - apply nonNullIndices_spec in E. destruct E as (_ & b & Hb & Hn).
    rewrite Nat.sub_0_r in Hb. rewrite Hb, Hn.
    destruct b as [z| | |]; try reflexivity. cbn [countedBuyin falsyNumber lessThan].
    destruct ((z =? 0)%Z || (z <? 100)%Z); reflexivity.
  - apply nth_error_None in E. rewrite nonNull_lengths in E.
    apply nth_error_None in E. now rewrite E.
Qed.

Lemma skipn_nth_error {A} (l : list A) : forall k,
  skipn k l = match nth_error l k with
              | Some x => x :: skipn (S k) l
              | None => []
              end.
Proof.
  induction l as [|x l IH]; intros k; [now destruct k|].
  destruct k as [|k]; [reflexivity|]. simpl. apply IH.
Qed.

Lemma pushed_count {A B} (f : nat -> option B) (g : A -> bool) (l : list A) :
  (forall i, match f i with Some _ => true | None => false end
             = match nth_error l i with Some x => g x | None => false end) ->
  forall n k,
    List.length (pushed f (seq k n)) = List.length (filter g (firstn n (skipn k l))).
Proof.
  intros Hf. induction n as [|n IH]; intros k; [reflexivity|].
  cbn [seq pushed]. specialize (Hf k). rewrite (skipn_nth_error l k).
  destruct (nth_error l k) as [x|] eqn:E.
  - cbn [firstn filter]. destruct (f k); rewrite <- Hf; cbn [List.length]; rewrite IH;
      reflexivity.
  - destruct (f k); [discriminate|]. rewrite IH, (skipn_nth_error l (S k)).
    assert (E' : nth_error l (S k) = None).
    { apply nth_error_None. apply nth_error_None in E. lia. }
    rewrite E'. now destruct n.
Qed.

(** X25.  A page gives exactly one record for each of its first
    [eventNumbers.length] non-null buy-ins that is a number of at least
    100: the names, dates and other columns never decide whether an event
    is kept. *)
Theorem parsePage_count :
  forall (pageText : string) (year : Z),
    let sections := findSections (pageLines pageText) in
    List.length (parsePage pageText year)
    = List.length
        (filter countedBuyin
           (firstn (List.length (eventNumbers sections))
              (nonNullBuyins (allBuyins sections)))).
Proof.
  intros pageText year sections. unfold parsePage. fold sections.
  destruct (eventNumbers sections) eqn:E; [reflexivity|]. rewrite <- E.
  rewrite (pushed_count _ countedBuyin (nonNullBuyins (allBuyins sections))).
  - reflexivity.
  - intros i. apply parseEvent_counted. apply findSections_names_kept.
Qed.

Ltac entry_of H :=
  let E := fresh "E" in
  match goal with
  | |- context [nth_error ?l ?i] =>
      destruct (nth_error l i) as [?x|] eqn:E;
      [apply nth_error_In in E; rewrite Forall_forall in H; specialize (H _ E) | ]
  end.

(** X26.  Where the text fields of a columnar record come from: the
    date is empty or a line of the page that matches the date pattern,
    followed by the year; the time is "TBD" or a time line of the page
    without its blanks and in upper case; the level duration is empty or
    a line of minutes; the re-entry entry is empty or a line of the page;
    the late registration is empty or a line that matches the levels
    pattern or starts with "First". *)
Theorem columnar_record_provenance :
  forall (pageText : string) (year : Z) (t : Tournament.t),
    In t (parsePage pageText year) ->
    let lines := pageLines pageText in
    (Tournament.date t = ""
     \/ exists d, dateEntry lines d /\ Tournament.date t = d ++ ", " ++ toString year)
    /\ (Tournament.time t = "TBD" \/ timeEntry lines (Tournament.time t))
    /\ durationEntry lines (Tournament.levelDuration t)
    /\ (Tournament.reentry t = "" \/ In (Tournament.reentry t) lines)
    /\ (Tournament.lateReg t = "" \/ lateRegEntry lines (Tournament.lateReg t)).
Proof.
  intros pageText year t Hin lines.
  destruct (parsePage_record _ _ _ Hin) as (i & rowIdx & buyin & H).
  cbv zeta in H. fold lines in H. destruct H as (_ & _ & _ & _ & _ & ->).
  destruct (findSections_columns lines) as (Hd & Ht & Hu & Hr & Hl).
  unfold recordOf.
  cbn [Tournament.date Tournament.time Tournament.levelDuration Tournament.reentry
       Tournament.lateReg].
  split; [|split; [|split; [|split]]].
  - entry_of Hd; [|now left]. destruct x; [now left | right]. eexists. split; [eassumption|].
    reflexivity.
  - entry_of Ht; [|now left]. destruct x; [now left | right]. exact Ht.
  - entry_of Hu; [exact Hu | now left].
  - entry_of Hr; [right; exact Hr | now left].
  - entry_of Hl; [right; exact Hl | now left].
Qed.

Lemma columnar_record_provenance_witness :
  exists t,
    nth_error (parsePage samplePage 2026) 0 = Some t
    /\ Tournament.date t = "May 27, 2026"
    /\ (Tournament.date t = ""
        \/ exists d, dateEntry (pageLines samplePage) d
                     /\ Tournament.date t = d ++ ", " ++ toString 2026).
Proof.
  eexists. split; [vm_compute; reflexivity|]. split; [reflexivity|].
  match goal with
  | |- Tournament.date ?t = "" \/ _ =>
      refine (proj1 (columnar_record_provenance samplePage 2026%Z t _));
      vm_compute; left; reflexivity
  end.
Defined.
End Columns.

(* ================================================================== *)
(** ** Row pipeline: the number of records *)

Section RowCount.
Import JS Re GenericParser Statements RowVocabulary CountVocabulary.
Import WsopParser (splitPages).

Lemma parseRows_count rows year venue ts :
  parseRows rows year venue = Returns ts ->
  List.length ts = List.length (filter rowHasDate rows).
Proof.
  revert ts. induction rows as [|row rows IH]; simpl; intros ts H.
  - now injection H as <-.
  - destruct (parseRow row year venue) as [parsed|] eqn:E; [|discriminate].
    destruct (parseRows rows year venue) as [ts'|]; [|discriminate].
    injection H as <-. specialize (IH ts' eq_refl).
    unfold parseRow in E. destruct row as [|line0 rest]; [discriminate|].
    unfold rowHasDate, test.
    destruct (exec dateRe (rowJoined (line0 :: rest))); injection E as <-; simpl; now rewrite IH.
Qed.

(** X27.  The row pipeline returns exactly one record for each row whose
    joined text holds a date (day, month, day number): neither a missing
    time nor missing amounts drop a row.  So there are at most as many
    records as data lines that start a row. *)
Theorem row_records_count :
  forall (currentYear : Z) (text : string) (options : Options.t)
         (ts : list Tournament.t),
    parseGenericSchedule currentYear text options = Returns ts ->
    let dataLines :=
      collectDataLines (detectYear currentYear (join (String "010" "") (splitPages text)))
        (splitPages text) in
    List.length ts = List.length (filter rowHasDate (groupIntoRows dataLines))
    /\ List.length ts <= List.length (filter startsRow dataLines).
Proof.
  intros cy text options ts H dataLines. unfold parseGenericSchedule in H.
  fold dataLines in H.
  match type of H with
  | match parseRows ?rows ?y ?v with _ => _ end = _ =>
      destruct (parseRows rows y v) as [ts0|] eqn:E; [|discriminate]
  end.
  injection H as <-. unfold linkRestartsToParents. rewrite length_map.
  rewrite (parseRows_count _ _ _ _ E). split; [reflexivity|].
  transitivity (List.length (groupIntoRows dataLines)); [apply filter_length_le|].
  unfold groupIntoRows. rewrite groupLines_length. simpl. lia.
Qed.

Lemma row_records_count_witness :
  exists ts,
    parseGenericSchedule 2026 "MON JAN 5 NLH
TUES JAN 6 10AM PLO $100 $90" noOptions = Returns ts
    /\ List.length ts = 2.
Proof.
  eexists. split; [vm_compute; reflexivity|].
  match goal with
  | |- List.length ?ts = 2 =>
      rewrite (proj1 (row_records_count 2026%Z "MON JAN 5 NLH
TUES JAN 6 10AM PLO $100 $90" noOptions ts ltac:(vm_compute; reflexivity)))
  end.
  vm_compute. reflexivity.
Defined.
End RowCount.
